(** * RRDP client worker: a shallow embedding of [rrdp.c] and
    [rrdp_notification.c], and the properties of the specification
    checked against it.

    Layout: machine integers; [hex_to_bin]; the notification handler
    ([add_delta], [check_state], the element callbacks); the session
    worker ([rrdp_failed], [rrdp_input_handler], the loops of
    [proc_rrdp]); the notions the properties are stated with; then the
    lemmas and the theorems: C1 to C10, of which those on a whole turn
    of the loop stand with the lemmas on the turn, and the further
    properties X1 to X24. *)

From Stdlib Require Import ZArith Lia String Ascii.
From stdpp Require Import base tactics option list numbers strings.
From Equations Require Import Equations.

Open Scope Z_scope.

(** ** Machine integers

    C integers are modelled as [Z]; every operation that can leave the
    range of its type has the wrap-around written out.  Conversion of an
    out-of-range value to a signed type is implementation-defined in C;
    the model takes the two's complement reduction every supported
    compiler implements. *)

Definition INT_MAX : Z := 2 ^ 31 - 1.
Definition INT_MIN : Z := - 2 ^ 31.
Definition UINT_MAX : Z := 2 ^ 32 - 1.
Definition LLONG_MAX : Z := 2 ^ 63 - 1.
Definition LLONG_MIN : Z := - 2 ^ 63.

(** [(unsigned char) z] *)
Definition uchar (z : Z) : Z := z mod 2 ^ 8.
(** [(unsigned int) z] *)
Definition uint (z : Z) : Z := z mod 2 ^ 32.
(** [(int) z] *)
Definition int (z : Z) : Z := (z + 2 ^ 31) mod 2 ^ 32 - 2 ^ 31.
(** [(long long) z] *)
Definition llong (z : Z) : Z := (z + 2 ^ 63) mod 2 ^ 64 - 2 ^ 63.

(** ** [hex_to_bin] (rrdp.c)

    [hexstr] is the memory the pointer designates: the characters in
    front of the terminating NUL; reading at or past the end of the list
    reads the terminator.  [buf] is the destination array; a store
    outside it is undefined behaviour and is the [None] of the model. *)

(** <ctype.h> in the "C" locale, on an [unsigned char] value. *)
Definition isdigit (ch : Z) : bool := (48 <=? ch) && (ch <=? 57).
Definition islower (ch : Z) : bool := (97 <=? ch) && (ch <=? 122).
Definition isupper (ch : Z) : bool := (65 <=? ch) && (ch <=? 90).

(** [hexstr[i]], converted to [unsigned char]. *)
Definition char_at (hexstr : list Z) (i : nat) : Z := uchar (nth i hexstr 0).

(** [buf[pos] = r] *)
Definition store (buf : list Z) (pos : nat) (r : Z) : option (list Z) :=
  if decide (pos < length buf)%nat then Some (<[pos:=r]> buf) else None.

(** One turn of the inner [for] loop: [ch] is classified and reduced,
    then shifted into [r].  [None] is the [return -1]. *)
Definition hex_digit (r ch : Z) : option Z :=
  let ch' :=
    if isdigit ch then Some (uchar (ch - 48))
    else if islower ch then Some (uchar (ch - (97 - 10)))
    else if isupper ch then Some (uchar (ch - (65 - 10)))
    else None in
  match ch' with
  | None => None
  | Some ch => if 0xf <? ch then None else Some (uchar (Z.lor (Z.shiftl r 4) ch))
  end.

(** The [while] loop, which runs until [hexstr] points at the NUL.  The result pairs the returned [int]
    with the final contents of [buf]. *)
Equations hex_to_bin (hexstr buf : list Z) (pos len : nat) : option (Z * list Z)
  by wf (length hexstr) lt :=
hex_to_bin [] buf pos len := Some (0, buf);
hex_to_bin (c0 :: hexstr1) buf pos len :=
  if uchar c0 =? 0 then Some (0, buf) else
  match hex_digit 0 (uchar c0) with
  | None => Some (-1, buf)
  | Some r0 =>
    match hex_digit r0 (char_at hexstr1 0) with
    | None => Some (-1, buf)
    | Some r =>
      if decide (pos < len)%nat then
        match store buf pos r with
        | None => None
        | Some buf' => hex_to_bin (drop 1 hexstr1) buf' (S pos) len
        end
      else Some (-1, buf)
    end
  end.
Next Obligation. intros. simpl. rewrite length_drop. lia. Qed.

(** What the claim about [hex_to_bin] speaks of: hexadecimal digits,
    their values, and the bytes a digit string denotes. *)
Definition is_xdigit (c : Z) : bool :=
  ((48 <=? c) && (c <=? 57)) || ((97 <=? c) && (c <=? 102))
  || ((65 <=? c) && (c <=? 70)).

Definition xdigit_value (c : Z) : Z :=
  if c <=? 57 then c - 48 else if c <=? 70 then c - 55 else c - 87.

Fixpoint hex_pairs (s : list Z) : list Z :=
  match s with
  | c0 :: c1 :: rest => (16 * xdigit_value c0 + xdigit_value c1) :: hex_pairs rest
  | _ => []
  end.

(** The characters of a string literal, as [unsigned char] values. *)
Definition chars (s : string) : list Z :=
  map (fun a => Z.of_nat (nat_of_ascii a)) (list_ascii_of_string s).

(** ** libc: [strtonum]

    [strtonum(numstr, minval, maxval, &errstr)] as OpenBSD documents it:
    optional white space, an optional sign, decimal digits and nothing
    after them; a value outside [minval, maxval] or a malformed string
    sets [errstr] and returns 0.  The result pairs the returned number
    with [errstr != NULL]. *)

Definition isspace (ch : Z) : bool := (ch =? 32) || ((9 <=? ch) && (ch <=? 13)).

Fixpoint skip_space (s : list Z) : list Z :=
  match s with
  | c :: s' => if isspace c then skip_space s' else s
  | [] => []
  end.

(** The digits of [s] accumulated on [acc]; [None] when a character
    that is no digit is met. *)
Fixpoint digits_value (s : list Z) (acc : Z) : option Z :=
  match s with
  | [] => Some acc
  | c :: s' => if isdigit c then digits_value s' (10 * acc + (c - 48)) else None
  end.

Definition strtonum (numstr : string) (minval maxval : Z) : Z * bool :=
  if maxval <? minval then (0, true) else
  let s := skip_space (chars numstr) in
  let '(neg, ds) :=
    match s with
    | 45 :: ds => (true, ds)
    | 43 :: ds => (false, ds)
    | _ => (false, s)
    end in
  match ds with
  | [] => (0, true)
  | _ =>
    match digits_value ds 0 with
    | None => (0, true)
    | Some v =>
      let ll := if neg then - v else v in
      if (ll <? minval) || (maxval <? ll) then (0, true) else (ll, false)
    end
  end.

(** ** The notification handler (rrdp_notification.c) *)

Module Notification.

Definition MAX_VERSION : Z := 1.

Inductive notification_scope :=
  | NOTIFICATION_SCOPE_START
  | NOTIFICATION_SCOPE_NOTIFICATION
  | NOTIFICATION_SCOPE_SNAPSHOT
  | NOTIFICATION_SCOPE_NOTIFICATION_POST_SNAPSHOT
  | NOTIFICATION_SCOPE_DELTA
  | NOTIFICATION_SCOPE_END.

Inductive notification_state :=
  | NOTIFICATION_STATE_SNAPSHOT
  | NOTIFICATION_STATE_DELTAS
  | NOTIFICATION_STATE_NONE
  | NOTIFICATION_STATE_ERROR.

#[global] Instance notification_scope_eq_dec : EqDecision notification_scope.
Proof. solve_decision. Defined.
#[global] Instance notification_state_eq_dec : EqDecision notification_state.
Proof. solve_decision. Defined.

(** The enumerators as the integers C gives them, for [scope <= ...]. *)
Definition scope_value (sc : notification_scope) : Z :=
  match sc with
  | NOTIFICATION_SCOPE_START => 0
  | NOTIFICATION_SCOPE_NOTIFICATION => 1
  | NOTIFICATION_SCOPE_SNAPSHOT => 2
  | NOTIFICATION_SCOPE_NOTIFICATION_POST_SNAPSHOT => 3
  | NOTIFICATION_SCOPE_DELTA => 4
  | NOTIFICATION_SCOPE_END => 5
  end.

Record delta_item := {
  d_uri : string;
  d_hash : string;
  d_serial : Z
}.

(** [struct notification_xml]; a [char *] that may be NULL is an
    [option string], the tail queue is the list of its items from the
    head.  A fresh one ([calloc]) is {!new_notification_xml}. *)
Record notification_xml := {
  session_id : option string;
  current_session_id : option string;
  snapshot_uri : option string;
  snapshot_hash : option string;
  delta_q : list delta_item;
  serial : Z;
  current_serial : Z;
  version : Z;
  scope : notification_scope;
  state : notification_state
}.

Definition set_session_id v n :=
  {| session_id := v; current_session_id := current_session_id n;
     snapshot_uri := snapshot_uri n; snapshot_hash := snapshot_hash n;
     delta_q := delta_q n; serial := serial n;
     current_serial := current_serial n; version := version n;
     scope := scope n; state := state n |}.
Definition set_snapshot_uri v n :=
  {| session_id := session_id n; current_session_id := current_session_id n;
     snapshot_uri := v; snapshot_hash := snapshot_hash n;
     delta_q := delta_q n; serial := serial n;
     current_serial := current_serial n; version := version n;
     scope := scope n; state := state n |}.
Definition set_snapshot_hash v n :=
  {| session_id := session_id n; current_session_id := current_session_id n;
     snapshot_uri := snapshot_uri n; snapshot_hash := v;
     delta_q := delta_q n; serial := serial n;
     current_serial := current_serial n; version := version n;
     scope := scope n; state := state n |}.
Definition set_delta_q v n :=
  {| session_id := session_id n; current_session_id := current_session_id n;
     snapshot_uri := snapshot_uri n; snapshot_hash := snapshot_hash n;
     delta_q := v; serial := serial n;
     current_serial := current_serial n; version := version n;
     scope := scope n; state := state n |}.
Definition set_serial v n :=
  {| session_id := session_id n; current_session_id := current_session_id n;
     snapshot_uri := snapshot_uri n; snapshot_hash := snapshot_hash n;
     delta_q := delta_q n; serial := v;
     current_serial := current_serial n; version := version n;
     scope := scope n; state := state n |}.
Definition set_version v n :=
  {| session_id := session_id n; current_session_id := current_session_id n;
     snapshot_uri := snapshot_uri n; snapshot_hash := snapshot_hash n;
     delta_q := delta_q n; serial := serial n;
     current_serial := current_serial n; version := v;
     scope := scope n; state := state n |}.
Definition set_scope v n :=
  {| session_id := session_id n; current_session_id := current_session_id n;
     snapshot_uri := snapshot_uri n; snapshot_hash := snapshot_hash n;
     delta_q := delta_q n; serial := serial n;
     current_serial := current_serial n; version := version n;
     scope := v; state := state n |}.
Definition set_state v n :=
  {| session_id := session_id n; current_session_id := current_session_id n;
     snapshot_uri := snapshot_uri n; snapshot_hash := snapshot_hash n;
     delta_q := delta_q n; serial := serial n;
     current_serial := current_serial n; version := version n;
     scope := scope n; state := v |}.

(** *** <sys/queue.h>: a pointer to an item is its position from the head *)

Definition TAILQ_LAST {A} (q : list A) : option nat :=
  match q with
  | [] => None
  | _ :: q' => Some (length q')
  end.

Definition TAILQ_INSERT_AFTER {A} (q : list A) (n : nat) (d : A) : list A :=
  take (S n) q ++ d :: drop (S n) q.

Definition TAILQ_INSERT_HEAD {A} (q : list A) (d : A) : list A := d :: q.

(** *** [add_delta] *)

(** The [TAILQ_FOREACH] of [add_delta], from item number [i] on.
    [None]: the duplicate was met and the function returned 0.
    [Some n]: the loop ended with the cursor at [n], which is NULL
    ([None]) when the walk ran off the tail. *)
Fixpoint add_delta_walk (serial : Z) (q : list delta_item) (i : nat)
  : option (option nat) :=
  match q with
  | [] => Some None
  | n :: q' =>
    if d_serial n =? serial then None
    else if d_serial n <? serial then Some (Some i)
    else add_delta_walk serial q' (S i)
  end.

Definition add_delta (nxml : notification_xml) (uri hash : string) (serial : Z)
  : Z * notification_xml :=
  let d := {| d_uri := uri; d_hash := hash; d_serial := serial |} in
  let q := delta_q nxml in
  let n := TAILQ_LAST q in
  let walk :=
    match n with
    | None => add_delta_walk serial q 0
    | Some l =>
      if serial <? default 0 (d_serial <$> q !! l)
      then add_delta_walk serial q 0
      else Some n
    end in
  match walk with
  | None => (0, nxml)
  | Some (Some n) => (1, set_delta_q (TAILQ_INSERT_AFTER q n d) nxml)
  | Some None => (1, set_delta_q (TAILQ_INSERT_HEAD q d) nxml)
  end.

(** *** [check_state] *)

(** The [TAILQ_FOREACH] of [check_state]: [None] when an item misses
    its serial (the early return), else the final [serial_counter]. *)
Fixpoint check_state_walk (current_serial : Z) (q : list delta_item)
    (serial_counter : Z) : option Z :=
  match q with
  | [] => Some serial_counter
  | d :: q' =>
    let serial_counter := int (serial_counter + 1) in
    if negb (llong (current_serial + serial_counter) =? d_serial d) then None
    else check_state_walk current_serial q' serial_counter
  end.

Definition check_state (nxml : notification_xml) : notification_xml :=
  if bool_decide (state nxml = NOTIFICATION_STATE_ERROR)
     || bool_decide (state nxml = NOTIFICATION_STATE_NONE)
  then nxml
  else
  match current_session_id nxml with
  | None => set_state NOTIFICATION_STATE_SNAPSHOT nxml
  | Some cur_sid =>
    if current_serial nxml =? 0 then set_state NOTIFICATION_STATE_SNAPSHOT nxml
    else
    match session_id nxml with
    | None => set_state NOTIFICATION_STATE_ERROR nxml
    | Some sid =>
      if serial nxml =? 0 then set_state NOTIFICATION_STATE_ERROR nxml
      else if negb (String.eqb cur_sid sid)
      then set_state NOTIFICATION_STATE_SNAPSHOT nxml
      else
      let serial_diff := int (llong (serial nxml - current_serial nxml)) in
      if serial_diff =? 0 then set_state NOTIFICATION_STATE_NONE nxml
      else if serial_diff <? 0 then set_state NOTIFICATION_STATE_ERROR nxml
      else if scope_value (scope nxml) <=? scope_value NOTIFICATION_SCOPE_DELTA
      then nxml
      else
      match check_state_walk (current_serial nxml) (delta_q nxml) 0 with
      | None => set_state NOTIFICATION_STATE_SNAPSHOT nxml
      | Some serial_counter =>
        if negb (serial_counter =? serial_diff)
        then set_state NOTIFICATION_STATE_SNAPSHOT nxml
        else set_state NOTIFICATION_STATE_DELTAS nxml
      end
    end
  end.

(** *** The element callbacks

    [attr] is expat's attribute array, name and value in turn.
    [PARSE_FAIL] stops the parser and leaves the callback; what the
    callback had stored until then stays stored. *)

Inductive parse_result :=
  | PARSE_OK (nxml : notification_xml)
  | PARSE_FAIL (nxml : notification_xml) (msg : string).

Definition is_null {A} (p : option A) : bool :=
  match p with None => true | Some _ => false end.

(** The attribute loop of [start_notification_elem]; [inr] is its
    [PARSE_FAIL], the same message at both places. *)
Fixpoint start_notification_attrs (attr : list (string * string))
    (has_xmlns : bool) (nxml : notification_xml)
  : (bool * notification_xml) + notification_xml :=
  match attr with
  | [] => inl (has_xmlns, nxml)
  | (name, value) :: attr' =>
    if String.eqb "xmlns" name then
      start_notification_attrs attr' true nxml
    else if String.eqb "session_id" name then
      start_notification_attrs attr' has_xmlns (set_session_id (Some value) nxml)
    else if String.eqb "version" name then
      let '(v, errstr) := strtonum value 1 MAX_VERSION in
      let nxml := set_version (int v) nxml in
      if errstr then inr nxml
      else start_notification_attrs attr' has_xmlns nxml
    else if String.eqb "serial" name then
      let '(v, errstr) := strtonum value 1 LLONG_MAX in
      let nxml := set_serial v nxml in
      if errstr then inr nxml
      else start_notification_attrs attr' has_xmlns nxml
    else inr nxml
  end.

Definition start_notification_elem (nxml : notification_xml)
    (attr : list (string * string)) : parse_result :=
  if negb (bool_decide (scope nxml = NOTIFICATION_SCOPE_START)) then
    PARSE_FAIL nxml "parse failed - entered notification elem unexpectedely"
  else
  match start_notification_attrs attr false nxml with
  | inr nxml =>
    PARSE_FAIL nxml
      "parse failed - non conforming attribute found in notification elem"
  | inl (has_xmlns, nxml) =>
    if negb (has_xmlns && negb (version nxml =? 0)
             && negb (is_null (session_id nxml)) && negb (serial nxml =? 0))
    then PARSE_FAIL nxml "parse failed - incomplete notification attributes"
    else
      let nxml := check_state nxml in
      PARSE_OK (set_scope NOTIFICATION_SCOPE_NOTIFICATION nxml)
  end.

Definition end_notification_elem (nxml : notification_xml) : parse_result :=
  if negb (bool_decide
             (scope nxml = NOTIFICATION_SCOPE_NOTIFICATION_POST_SNAPSHOT)) then
    PARSE_FAIL nxml "parse failed - exited notification elem unexpectedely"
  else
    let nxml := set_scope NOTIFICATION_SCOPE_END nxml in
    PARSE_OK (check_state nxml).

Fixpoint start_snapshot_attrs (attr : list (string * string))
    (nxml : notification_xml) : notification_xml + notification_xml :=
  match attr with
  | [] => inl nxml
  | (name, value) :: attr' =>
    if String.eqb "uri" name then
      start_snapshot_attrs attr' (set_snapshot_uri (Some value) nxml)
    else if String.eqb "hash" name then
      start_snapshot_attrs attr' (set_snapshot_hash (Some value) nxml)
    else inr nxml
  end.

Definition start_snapshot_elem (nxml : notification_xml)
    (attr : list (string * string)) : parse_result :=
  if negb (bool_decide (scope nxml = NOTIFICATION_SCOPE_NOTIFICATION)) then
    PARSE_FAIL nxml "parse failed - entered snapshot elem unexpectedely"
  else
  match start_snapshot_attrs attr nxml with
  | inr nxml =>
    PARSE_FAIL nxml
      "parse failed - non conforming attribute found in snapshot elem"
  | inl nxml =>
    if is_null (snapshot_uri nxml) || is_null (snapshot_hash nxml) then
      PARSE_FAIL nxml "parse failed - incomplete snapshot attributes"
    else PARSE_OK (set_scope NOTIFICATION_SCOPE_SNAPSHOT nxml)
  end.

Definition end_snapshot_elem (nxml : notification_xml) : parse_result :=
  if negb (bool_decide (scope nxml = NOTIFICATION_SCOPE_SNAPSHOT)) then
    PARSE_FAIL nxml "parse failed - exited snapshot elem unexpectedely"
  else PARSE_OK (set_scope NOTIFICATION_SCOPE_NOTIFICATION_POST_SNAPSHOT nxml).

(** The attribute loop of [start_delta_elem] over its three locals;
    [inr] carries the message of the [PARSE_FAIL] taken. *)
Fixpoint start_delta_attrs (attr : list (string * string))
    (delta_uri delta_hash : option string) (delta_serial : Z)
  : (option string * option string * Z) + string :=
  match attr with
  | [] => inl (delta_uri, delta_hash, delta_serial)
  | (name, value) :: attr' =>
    if String.eqb "uri" name then
      start_delta_attrs attr' (Some value) delta_hash delta_serial
    else if String.eqb "hash" name then
      start_delta_attrs attr' delta_uri (Some value) delta_serial
    else if String.eqb "serial" name then
      let '(v, errstr) := strtonum value 1 LLONG_MAX in
      if errstr then
        inr "parse failed - non conforming attribute found in notification elem"
      else start_delta_attrs attr' delta_uri delta_hash v
    else inr "parse failed - non conforming attribute found in snapshot elem"
  end.

Definition start_delta_elem (nxml : notification_xml)
    (attr : list (string * string)) : parse_result :=
  if negb (bool_decide
             (scope nxml = NOTIFICATION_SCOPE_NOTIFICATION_POST_SNAPSHOT)) then
    PARSE_FAIL nxml "parse failed - entered delta elem unexpectedely"
  else
  match start_delta_attrs attr None None 0 with
  | inr msg => PARSE_FAIL nxml msg
  | inl (Some delta_uri, Some delta_hash, delta_serial) =>
    if delta_serial =? 0 then
      PARSE_FAIL nxml "parse failed - incomplete delta attributes"
    else if negb (current_serial nxml =? 0)
            && (current_serial nxml <? delta_serial) then
      match add_delta nxml delta_uri delta_hash delta_serial with
      | (0, _) => PARSE_FAIL nxml "parse failed - adding delta failed"
      | (_, nxml) => PARSE_OK (set_scope NOTIFICATION_SCOPE_DELTA nxml)
      end
    else PARSE_OK (set_scope NOTIFICATION_SCOPE_DELTA nxml)
  | inl _ => PARSE_FAIL nxml "parse failed - incomplete delta attributes"
  end.

Definition end_delta_elem (nxml : notification_xml) : parse_result :=
  if negb (bool_decide (scope nxml = NOTIFICATION_SCOPE_DELTA)) then
    PARSE_FAIL nxml "parse failed - exited delta elem unexpectedely"
  else PARSE_OK (set_scope NOTIFICATION_SCOPE_NOTIFICATION_POST_SNAPSHOT nxml).

Definition notification_xml_elem_start (nxml : notification_xml) (el : string)
    (attr : list (string * string)) : parse_result :=
  if String.eqb "notification" el then start_notification_elem nxml attr
  else if String.eqb "snapshot" el then start_snapshot_elem nxml attr
  else if String.eqb "delta" el then start_delta_elem nxml attr
  else PARSE_FAIL nxml "parse failed - unexpected elem exit found".

Definition notification_xml_elem_end (nxml : notification_xml) (el : string)
  : parse_result :=
  if String.eqb "notification" el then end_notification_elem nxml
  else if String.eqb "snapshot" el then end_snapshot_elem nxml
  else if String.eqb "delta" el then end_delta_elem nxml
  else PARSE_FAIL nxml "parse failed - unexpected elem exit found".

(** [calloc]: every field zero, the queue initialised empty. *)
Definition new_notification_xml : notification_xml :=
  {| session_id := None; current_session_id := None;
     snapshot_uri := None; snapshot_hash := None;
     delta_q := []; serial := 0; current_serial := 0; version := 0;
     scope := NOTIFICATION_SCOPE_START;
     state := NOTIFICATION_STATE_SNAPSHOT |}.

(** The state of the last synchronisation stored into the handler:
    [current_session_id] and [current_serial] are assigned by the
    caller (in this file only by the disabled
    [fetch_existing_notification_data]). *)
Definition with_current (sid : option string) (ser : Z) (n : notification_xml)
  : notification_xml :=
  {| session_id := session_id n; current_session_id := sid;
     snapshot_uri := snapshot_uri n; snapshot_hash := snapshot_hash n;
     delta_q := delta_q n; serial := serial n;
     current_serial := ser; version := version n;
     scope := scope n; state := state n |}.

(** *** expat, as far as the handler sees it

    A document reaches the handler as the sequence of its element
    events; the callbacks run in turn until one stops the parser.
    For a document that expat gets through this is the whole of what
    the handler sees.  When a callback stops the parser the result
    carries the handler as that callback leaves it; expat may make one
    more call after that, the end callback of an empty-element tag
    whose start callback has stopped it, so what the handler holds
    after a refused document is to be read off [callbacks] below. *)
Inductive xml_event :=
  | StartElement (el : string) (attr : list (string * string))
  | EndElement (el : string).

Fixpoint XML_Parse (doc : list xml_event) (nxml : notification_xml)
  : parse_result :=
  match doc with
  | [] => PARSE_OK nxml
  | ev :: doc' =>
    let r := match ev with
             | StartElement el attr => notification_xml_elem_start nxml el attr
             | EndElement el => notification_xml_elem_end nxml el
             end in
    match r with
    | PARSE_OK nxml => XML_Parse doc' nxml
    | PARSE_FAIL _ _ => r
    end
  end.

(** The handler after expat has made the calls for [evs] one after the
    other, whether or not one of them has stopped the parser: a
    callback that takes [PARSE_FAIL] leaves the handler as it is at
    that point, and the next call, if expat makes one, finds it so. *)
Definition callbacks (evs : list xml_event) (nxml : notification_xml)
  : notification_xml :=
  fold_left
    (fun nxml ev =>
       let r := match ev with
                | StartElement el attr =>
                    notification_xml_elem_start nxml el attr
                | EndElement el => notification_xml_elem_end nxml el
                end in
       match r with
       | PARSE_OK nxml => nxml
       | PARSE_FAIL nxml _ => nxml
       end) evs nxml.

(** A notification document: the root with its attributes, the
    snapshot element, and one delta element per entry of [deltas]. *)
Definition delta_elem (serial uri hash : string) : list xml_event :=
  [ StartElement "delta" [("serial", serial); ("uri", uri); ("hash", hash)];
    EndElement "delta" ].

Definition notification_doc (session serial : string)
    (deltas : list (string * string * string)) : list xml_event :=
  ([ StartElement "notification"
       [("xmlns", "http://www.ripe.net/rpki/rrdp"); ("version", "1");
        ("session_id", session); ("serial", serial)];
     StartElement "snapshot" [("uri", "https://h/s.xml"); ("hash", "00")];
     EndElement "snapshot" ]
   ++ concat (map (fun '(s, u, h) => delta_elem s u h) deltas)
   ++ [ EndElement "notification" ]).

End Notification.


(** ** The session worker (rrdp.c) *)

(** <openssl/sha.h>.  The worker only initialises a context, feeds it
    and takes the digest, so the hash function is an interface. *)
Class Hasher := {
  SHA256_CTX : Type;
  SHA256_Init : SHA256_CTX;
  SHA256_Update : SHA256_CTX -> list Z -> SHA256_CTX;
  SHA256_Final : SHA256_CTX -> list Z;
  (** the context [calloc] leaves in a new session, zeroed and not yet
      initialised *)
  SHA256_zeroed : SHA256_CTX
}.

Module Rrdp.

Definition MAX_SESSIONS : nat := 12.

(** [NOTYET] is defined nowhere in the sources: the block it guards in
    [rrdp_input_handler] is compiled out. *)
Definition NOTYET : bool := false.

Inductive rrdp_state := REQ | WAITING | PARSING | PARSED | ERROR | DONE.

(** [enum rrdp_task], [enum publish_type] and [enum rrdp_msg] come from
    a header that is not part of the sources; the enumerators are the
    ones rrdp.c uses.  A session starts ([calloc]) on [NOTIFICATION]. *)
Inductive rrdp_task := NOTIFICATION | SNAPSHOT | DELTA.
Inductive publish_type := PUB_ADD | PUB_UPD | PUB_DEL.
Inductive rrdp_msg :=
  | RRDP_START | RRDP_SESSION | RRDP_FILE | RRDP_END
  | RRDP_HTTP_REQ | RRDP_HTTP_INI | RRDP_HTTP_FIN.

#[global] Instance rrdp_state_eq_dec : EqDecision rrdp_state.
Proof. solve_decision. Defined.
#[global] Instance rrdp_task_eq_dec : EqDecision rrdp_task.
Proof. solve_decision. Defined.
#[global] Instance publish_type_eq_dec : EqDecision publish_type.
Proof. solve_decision. Defined.

Record rrdp_session := {
  session_id : option string;
  serial : Z;
  last_mod : option string
}.

(** A pointer to one of the three handlers, whose code is outside
    rrdp.c: never set, pointing at a live handler, or left dangling by
    a [free_..._xml]. *)
Inductive xml_ptr := XML_NULL | XML_LIVE | XML_FREED.

Definition free_xml (p : xml_ptr) : xml_ptr :=
  match p with
  | XML_NULL => XML_NULL
  | _ => XML_FREED
  end.

(** A message queued on [msgq] for the parent, by the function that
    builds it. *)
Inductive ibuf :=
  | Msg_END (id : Z) (ok : Z)
  | Msg_HTTP_REQ (id : Z) (uri : option string) (last_mod : option string)
  | Msg_SESSION (id : Z) (session_id : option string) (serial : Z)
      (last_mod : option string)
  | Msg_FILE (id : Z) (type : publish_type) (hash : option (list Z))
      (uri : option string) (data : list Z).

(** A message of the parent, as [rrdp_input_handler] reads it: the
    descriptor [io_recvfd] returned (-1 for none), the session id, and
    the fields read for its type. *)
Inductive imsg :=
  | In_START (infd id : Z) (local notify session_id : option string)
      (serial : Z) (last_mod : option string)
  | In_HTTP_INI (infd id : Z)
  | In_HTTP_FIN (infd id : Z) (status : Z) (last_mod : option string)
  | In_FILE (infd id : Z) (status : Z)
  | In_other (type : rrdp_msg) (infd id : Z).

(** [errx(1, ...)] ends the process. *)
Inductive result (A : Type) :=
  | Done (a : A)
  | Errx (msg : string).
Arguments Done {A} a.
Arguments Errx {A} msg.

Section Worker.
Context {hasher : Hasher}.

Record rrdp := {
  id : Z;
  notifyuri : option string;
  local : option string;
  pfd : option nat;
  infd : Z;
  state : rrdp_state;
  task : rrdp_task;
  status : Z;
  file_pending : Z;
  file_failed : Z;
  hash : list Z;
  ctx : SHA256_CTX;
  repository : rrdp_session;
  current : rrdp_session;
  nxml : xml_ptr;
  sxml : xml_ptr;
  dxml : xml_ptr
}.

Definition set_pfd (v : option nat) (s : rrdp) : rrdp :=
  {| id := id s; notifyuri := notifyuri s; local := local s; pfd := v;
     infd := infd s; state := state s; task := task s; status := status s;
     file_pending := file_pending s; file_failed := file_failed s;
     hash := hash s; ctx := ctx s; repository := repository s;
     current := current s; nxml := nxml s; sxml := sxml s; dxml := dxml s |}.
Definition set_infd (v : Z) (s : rrdp) : rrdp :=
  {| id := id s; notifyuri := notifyuri s; local := local s; pfd := pfd s;
     infd := v; state := state s; task := task s; status := status s;
     file_pending := file_pending s; file_failed := file_failed s;
     hash := hash s; ctx := ctx s; repository := repository s;
     current := current s; nxml := nxml s; sxml := sxml s; dxml := dxml s |}.
Definition set_state (v : rrdp_state) (s : rrdp) : rrdp :=
  {| id := id s; notifyuri := notifyuri s; local := local s; pfd := pfd s;
     infd := infd s; state := v; task := task s; status := status s;
     file_pending := file_pending s; file_failed := file_failed s;
     hash := hash s; ctx := ctx s; repository := repository s;
     current := current s; nxml := nxml s; sxml := sxml s; dxml := dxml s |}.
Definition set_task (v : rrdp_task) (s : rrdp) : rrdp :=
  {| id := id s; notifyuri := notifyuri s; local := local s; pfd := pfd s;
     infd := infd s; state := state s; task := v; status := status s;
     file_pending := file_pending s; file_failed := file_failed s;
     hash := hash s; ctx := ctx s; repository := repository s;
     current := current s; nxml := nxml s; sxml := sxml s; dxml := dxml s |}.
Definition set_status (v : Z) (s : rrdp) : rrdp :=
  {| id := id s; notifyuri := notifyuri s; local := local s; pfd := pfd s;
     infd := infd s; state := state s; task := task s; status := v;
     file_pending := file_pending s; file_failed := file_failed s;
     hash := hash s; ctx := ctx s; repository := repository s;
     current := current s; nxml := nxml s; sxml := sxml s; dxml := dxml s |}.
Definition set_file_pending (v : Z) (s : rrdp) : rrdp :=
  {| id := id s; notifyuri := notifyuri s; local := local s; pfd := pfd s;
     infd := infd s; state := state s; task := task s; status := status s;
     file_pending := v; file_failed := file_failed s; hash := hash s;
     ctx := ctx s; repository := repository s; current := current s;
     nxml := nxml s; sxml := sxml s; dxml := dxml s |}.
Definition set_file_failed (v : Z) (s : rrdp) : rrdp :=
  {| id := id s; notifyuri := notifyuri s; local := local s; pfd := pfd s;
     infd := infd s; state := state s; task := task s; status := status s;
     file_pending := file_pending s; file_failed := v; hash := hash s;
     ctx := ctx s; repository := repository s; current := current s;
     nxml := nxml s; sxml := sxml s; dxml := dxml s |}.
Definition set_hash (v : list Z) (s : rrdp) : rrdp :=
  {| id := id s; notifyuri := notifyuri s; local := local s; pfd := pfd s;
     infd := infd s; state := state s; task := task s; status := status s;
     file_pending := file_pending s; file_failed := file_failed s;
     hash := v; ctx := ctx s; repository := repository s;
     current := current s; nxml := nxml s; sxml := sxml s; dxml := dxml s |}.
Definition set_ctx (v : SHA256_CTX) (s : rrdp) : rrdp :=
  {| id := id s; notifyuri := notifyuri s; local := local s; pfd := pfd s;
     infd := infd s; state := state s; task := task s; status := status s;
     file_pending := file_pending s; file_failed := file_failed s;
     hash := hash s; ctx := v; repository := repository s;
     current := current s; nxml := nxml s; sxml := sxml s; dxml := dxml s |}.
Definition set_sxml (v : xml_ptr) (s : rrdp) : rrdp :=
  {| id := id s; notifyuri := notifyuri s; local := local s; pfd := pfd s;
     infd := infd s; state := state s; task := task s; status := status s;
     file_pending := file_pending s; file_failed := file_failed s;
     hash := hash s; ctx := ctx s; repository := repository s;
     current := current s; nxml := nxml s; sxml := v; dxml := dxml s |}.
Definition set_dxml (v : xml_ptr) (s : rrdp) : rrdp :=
  {| id := id s; notifyuri := notifyuri s; local := local s; pfd := pfd s;
     infd := infd s; state := state s; task := task s; status := status s;
     file_pending := file_pending s; file_failed := file_failed s;
     hash := hash s; ctx := ctx s; repository := repository s;
     current := current s; nxml := nxml s; sxml := sxml s; dxml := v |}.

(** The process: the queue [states] from its head, and [msgq]. *)
Record worker := {
  states : list rrdp;
  msgq : list ibuf
}.

Definition set_states (v : list rrdp) (w : worker) : worker :=
  {| states := v; msgq := msgq w |}.
Definition ibuf_close (w : worker) (b : ibuf) : worker :=
  {| states := states w; msgq := msgq w ++ [b] |}.

(** [s->field = v] for the session at position [i] of [states]. *)
Definition update (w : worker) (i : nat) (f : rrdp -> rrdp) : worker :=
  set_states (alter f i (states w)) w.

Definition rrdp_done (w : worker) (id : Z) (ok : Z) : worker :=
  ibuf_close w (Msg_END id ok).

Definition rrdp_fetch (w : worker) (id : Z) (uri last_mod : option string)
  : worker :=
  ibuf_close w (Msg_HTTP_REQ id uri last_mod).

Definition rrdp_state_send (w : worker) (s : rrdp) : worker :=
  ibuf_close w
    (Msg_SESSION (id s) (session_id (current s)) (serial (current s))
       (last_mod (current s))).

Definition rrdp_new (w : worker) (id : Z)
    (local notify session_id : option string) (serial : Z)
    (last_mod : option string) : worker :=
  let s :=
    {| id := id; notifyuri := notify; local := local; pfd := None;
       infd := -1; state := REQ; task := NOTIFICATION; status := 0;
       file_pending := 0; file_failed := 0; hash := repeat 0 32;
       ctx := SHA256_zeroed;
       repository := {| session_id := session_id; serial := serial;
                        last_mod := last_mod |};
       current := {| session_id := None; serial := 0; last_mod := None |};
       nxml := XML_LIVE; sxml := XML_NULL; dxml := XML_NULL |} in
  set_states (states w ++ [s]) w.

(** [TAILQ_REMOVE] and the frees; a pointer to a session is its
    position in [states]. *)
Definition rrdp_free (w : worker) (i : nat) : worker :=
  set_states (delete i (states w)) w.

(** The position of the first session with this id, NULL when none. *)
Fixpoint rrdp_get_from (l : list rrdp) (id' : Z) (i : nat) : option nat :=
  match l with
  | [] => None
  | s :: l' => if id s =? id' then Some i else rrdp_get_from l' id' (S i)
  end.

Definition rrdp_get (w : worker) (id : Z) : option nat :=
  rrdp_get_from (states w) id 0.

Definition rrdp_failed (w : worker) (i : nat) : worker :=
  match states w !! i with
  | None => w
  | Some s =>
    let id := id s in
    if bool_decide (task s = DELTA) then
      (* fallback to a snapshot as per RFC8182 *)
      update w i (fun s =>
        set_state REQ
          (set_task SNAPSHOT
             (set_sxml XML_LIVE (set_dxml (free_xml (dxml s)) s))))
    else
      rrdp_done (rrdp_free w i) id 0
  end.

(** What the code outside rrdp.c answers while a fetch is completed:
    the final [XML_Parse(parser, NULL, 0, 1)] (true for
    [XML_STATUS_OK]), [notification_done] and
    [notification_delta_done]. *)
Record completion := {
  XML_Parse_final : bool;
  notification_done : rrdp_task;
  notification_delta_done : bool
}.

(** The code at the label [done] of [rrdp_input_handler], for the
    session at position [i]; [id] is the id read from the message. *)
Definition rrdp_input_done (w : worker) (i : nat) (id : Z) (c : completion)
  : worker :=
  match states w !! i with
  | None => w
  | Some s =>
    if status s =? 200 then
      if negb (XML_Parse_final c) then rrdp_failed w i
      else if 0 <? file_failed s then rrdp_failed w i
      else
        match task s with
        | NOTIFICATION =>
          let w := update w i (set_task (notification_done c)) in
          match notification_done c with
          | NOTIFICATION =>
            rrdp_done
              (rrdp_free (rrdp_state_send w (set_task NOTIFICATION s)) i) id 1
          | SNAPSHOT =>
            update w i (fun s => set_state REQ (set_sxml XML_LIVE s))
          | DELTA =>
            update w i (fun s => set_state REQ (set_dxml XML_LIVE s))
          end
        | SNAPSHOT => rrdp_done (rrdp_free (rrdp_state_send w s) i) id 1
        | DELTA =>
          if notification_delta_done c then
            rrdp_done (rrdp_free (rrdp_state_send w s) i) id 1
          else
            update w i (fun s => set_state REQ (set_dxml XML_LIVE s))
        end
    else if (status s =? 304) && bool_decide (task s = NOTIFICATION) then
      (* no need to update state file *)
      rrdp_done (rrdp_free w i) id 1
    else rrdp_failed w i
  end.

Definition rrdp_input_handler (w : worker) (m : imsg) (c : completion)
  : result worker :=
  match m with
  | In_START infd id local notify session_id serial last_mod =>
    if negb (infd =? -1) then Errx "received unexpected fd"
    else Done (rrdp_new w id local notify session_id serial last_mod)
  | In_HTTP_INI infd id =>
    if infd =? -1 then Errx "expected fd not received"
    else
      match rrdp_get w id with
      | None => Errx "rrdp session does not exist"
      | Some i =>
        match states w !! i with
        | None => Done w
        | Some s =>
          if negb (bool_decide (state s = WAITING)) then
            Errx "bad internal state"
          else Done (update w i (fun s => set_state PARSING (set_infd infd s)))
        end
      end
  | In_HTTP_FIN infd id status last_mod =>
    if negb (infd =? -1) then Errx "received unexpected fd"
    else
      match rrdp_get w id with
      | None => Errx "rrdp session does not exist"
      | Some i =>
        match states w !! i with
        | None => Done w
        | Some s =>
          if bool_decide (state s = ERROR) then Done (rrdp_failed w i)
          else if negb (bool_decide (state s = PARSED)) then
            Errx "bad internal state"
          else
            let w := update w i (fun s => set_state DONE (set_status status s)) in
            (* not all files have been validated and put in place *)
            if NOTYET && (0 <? file_pending s) then Done w
            else Done (rrdp_input_done w i id c)
        end
      end
  | In_FILE infd id status =>
    match rrdp_get w id with
    | None => Errx "rrdp session does not exist"
    | Some i =>
      match states w !! i with
      | None => Done w
      | Some s =>
        let s :=
          if status =? 0 then set_file_failed (uint (file_failed s + 1)) s
          else s in
        let s := set_file_pending (uint (file_pending s - 1)) s in
        let w := update w i (fun _ => s) in
        if (file_pending s =? 0) && bool_decide (state s = DONE)
        then Done (rrdp_input_done w i id c)
        else Done w
      end
    end
  | In_other type infd id => Errx "unexpected message"
  end.

(** *** [publish_done] *)

(** [struct publish_xml]; [data] is the base64 text gathered so far,
    NULL while [data_length] is 0. *)
Record publish_xml := {
  pub_uri : option string;
  pub_data : option string;
  pub_hash : list Z;
  pub_data_length : Z;
  pub_type : publish_type
}.

(** [base64_decode] is outside rrdp.c. *)
Variable base64_decode : string -> option (list Z).

Definition publish_done (w : worker) (i : nat) (pxml : publish_xml)
  : Z * worker :=
  match states w !! i with
  | None => (-1, w)
  | Some s =>
    let decoded :=
      if 0 <? pub_data_length pxml
      then base64_decode (default EmptyString (pub_data pxml))
      else Some [] in
    match decoded with
    | None => (-1, w)
    | Some data =>
      let b :=
        Msg_FILE (id s) (pub_type pxml)
          (if bool_decide (pub_type pxml = PUB_ADD) then None
           else Some (pub_hash pxml))
          (pub_uri pxml) data in
      let w := ibuf_close w b in
      (0, update w i (fun s => set_file_pending (uint (file_pending s + 1)) s))
    end
  end.

(** [publish_done] from [ibuf_dynamic] on: what it does with a record
    whose data have decoded to [data]. *)
Definition publish_sent (w : worker) (i : nat) (pxml : publish_xml)
    (data : list Z) : worker :=
  match states w !! i with
  | None => w
  | Some s =>
    let b :=
      Msg_FILE (id s) (pub_type pxml)
        (if bool_decide (pub_type pxml = PUB_ADD) then None
         else Some (pub_hash pxml))
        (pub_uri pxml) data in
    let w := ibuf_close w b in
    update w i (fun s => set_file_pending (uint (file_pending s + 1)) s)
  end.

(** *** [proc_rrdp]: one turn of the [for (;;)] loop *)

(** The first [TAILQ_FOREACH]: sessions in [REQ] send their request and
    every session gets a slot of [pfds].  [next k] is what
    [notification_get_next] answers for the session at position [k]:
    the URI and the digest it stores through the [hash] argument. *)
Fixpoint proc_rrdp_requests (next : nat -> option string * list Z)
    (l : list rrdp) (k i : nat) (q : list ibuf)
  : list rrdp * list ibuf * nat :=
  match l with
  | [] => ([], q, i)
  | s :: l' =>
    if decide (MAX_SESSIONS + 1 <= i)%nat then
      (* not enough sessions, wait for better times *)
      let '(l'', q, i) := proc_rrdp_requests next l' (S k) i q in
      (set_pfd None s :: l'', q, i)
    else
      let '(s, q) :=
        if bool_decide (state s = REQ) then
          match task s with
          | NOTIFICATION =>
            (set_state WAITING s,
             q ++ [Msg_HTTP_REQ (id s) (notifyuri s) (last_mod (repository s))])
          | _ =>
            let '(uri, h) := next k in
            (set_state WAITING (set_ctx SHA256_Init (set_hash h s)),
             q ++ [Msg_HTTP_REQ (id s) uri None])
          end
        else (s, q) in
      let s := set_pfd (Some i) s in
      let '(l'', q, i) := proc_rrdp_requests next l' (S k) (S i) q in
      (s :: l'', q, i)
  end.

(** What [poll] and [read] report for one slot whose [POLLIN] is set:
    the bytes read ([None] for -1, the empty list at end of file),
    whether [XML_Parse] takes them ([XML_STATUS_OK]), and what the
    callbacks do while [XML_Parse] runs.  The callbacks of the snapshot
    and delta handlers are outside rrdp.c; they hand the publish and
    withdraw records they finish to [publish_done], and [ev_publish]
    lists the records of this call that [publish_done] has sent on,
    each with its decoded data.  The callbacks of the notification
    handler (rrdp_notification.c) never call [publish_done]. *)
Record stream_event := {
  ev_read : option (list Z);
  ev_xml_ok : bool;
  ev_publish : list (publish_xml * list Z)
}.

(** The body of the second loop for the session at position [i], once
    [POLLIN] is known to be set. *)
Definition rrdp_stream_input (w : worker) (i : nat) (ev : stream_event)
  : result worker :=
  match states w !! i with
  | None => Done w
  | Some s =>
    match ev_read ev with
    | None => Done (rrdp_failed w i)
    | Some buf =>
      if negb (bool_decide (state s = PARSING))
         && negb (bool_decide (state s = ERROR))
      then Errx "bad parser state"
      else
      match buf with
      | [] =>
        (* parser stage finished *)
        let w := update w i (set_infd (-1)) in
        if negb (bool_decide (task s = NOTIFICATION))
           && negb (bool_decide (hash s = SHA256_Final (ctx s)))
        then Done (rrdp_failed w i)
        else if bool_decide (state s = PARSING)
        then Done (update w i (set_state PARSED))
        else Done w
      | _ =>
        (* parse and maybe hash the bytes just read *)
        let w :=
          if negb (bool_decide (task s = NOTIFICATION))
          then update w i (fun s => set_ctx (SHA256_Update (ctx s) buf) s)
          else w in
        if bool_decide (state s = PARSING) then
          (* XML_Parse, and the records its callbacks send on *)
          let w :=
            if negb (bool_decide (task s = NOTIFICATION))
            then fold_left (fun w r => publish_sent w i r.1 r.2)
                   (ev_publish ev) w
            else w in
          if negb (ev_xml_ok ev)
          then Done (update w i (set_state ERROR))
          else Done w
        else Done w
      end
    end
  end.

(** The [TAILQ_FOREACH_SAFE] over the sessions, [n] of them left from
    position [i].  A body that frees its session moves the followers
    up by one, so the saved successor is found at [i] again. *)
Fixpoint proc_rrdp_streams (revents : nat -> option stream_event) (n i : nat)
    (w : worker) : result worker :=
  match n with
  | O => Done w
  | S n' =>
    match states w !! i with
    | None => Done w
    | Some s =>
      match pfd s with
      | None => proc_rrdp_streams revents n' (S i) w
      | Some slot =>
        match revents slot with
        | None => proc_rrdp_streams revents n' (S i) w
        | Some ev =>
          match rrdp_stream_input w i ev with
          | Errx msg => Errx msg
          | Done w' =>
            let i' := (S i - (length (states w) - length (states w')))%nat in
            proc_rrdp_streams revents n' i' w'
          end
        end
      end
    end
  end.

(** What one [poll] reports: hang-up of the parent; when the channel
    is writable, what [msgbuf_write] returns and how many of the queued
    messages it has written out in full, which it takes off the head
    of [msgq] (a message written in part stays queued); a message on
    the control channel with the answers of the code outside; and the
    events of the session slots. *)
Record poll_result := {
  pollhup : bool;
  pollout : option (Z * nat);
  pollin : option (imsg * completion);
  revents : nat -> option stream_event
}.

(** One turn of the loop; [None] is the [break] that leads to
    [exit(0)]. *)
Definition proc_rrdp_turn (next : nat -> option string * list Z)
    (p : poll_result) (w : worker) : result (option worker) :=
  let '(l, q, _) := proc_rrdp_requests next (states w) 0 1 (msgq w) in
  if pollhup p then Done None
  else if bool_decide (fst <$> pollout p = Some 0)
  then Errx "write: connection closed"
  else if bool_decide (fst <$> pollout p = Some (-1)) then Errx "write"
  else
    let w := {| states := l;
                msgq := drop (from_option snd 0%nat (pollout p)) q |} in
    let r :=
      match pollin p with
      | None => Done w
      | Some (m, c) => rrdp_input_handler w m c
      end in
    match r with
    | Errx msg => Errx msg
    | Done w =>
      match proc_rrdp_streams (revents p) (length (states w)) 0 w with
      | Errx msg => Errx msg
      | Done w => Done (Some w)
      end
    end.

End Worker.

End Rrdp.

(** ** The publish records (rrdp.c) *)

Module Publish.
Import Rrdp.

Definition SHA256_DIGEST_LENGTH : Z := 32.

(** [new_publish_xml]: the record comes from [calloc], so [data] is
    NULL and [data_length] is 0; [hash], which points to [hlen] bytes,
    is copied when [hlen] is not 0.  The [assert] wants [hlen] to be
    the size of the field and aborts otherwise, which the model
    reports like an error exit. *)
Definition new_publish_xml (type : publish_type) (uri : option string)
    (hash : list Z) (hlen : Z) : result publish_xml :=
  if 0 <? hlen then
    if negb (hlen =? SHA256_DIGEST_LENGTH)
    then Errx "assertion failed: hlen == sizeof(pxml->hash)"
    else
      Done {| pub_uri := uri; pub_data := None;
              pub_hash := take (Z.to_nat hlen) hash;
              pub_data_length := 0; pub_type := type |}
  else
    Done {| pub_uri := uri; pub_data := None;
            pub_hash := repeat 0 (Z.to_nat SHA256_DIGEST_LENGTH);
            pub_data_length := 0; pub_type := type |}.

(** [publish_add_content]: [len] bytes of [buf] are put behind the
    first [data_length] bytes of [data] and a NUL behind them;
    [pub_data] holds the bytes before that NUL.  [new_length] is an
    [int]. *)
Definition publish_add_content (pxml : publish_xml) (buf : string) (len : Z)
  : publish_xml :=
  if (len =? 1) && bool_decide (String.get 0 buf = Some "010"%char) then pxml
  else
    (* append content to data *)
    let new_length := int (pub_data_length pxml + len) in
    {| pub_uri := pub_uri pxml;
       pub_data :=
         Some (substring 0 (Z.to_nat (pub_data_length pxml))
                 (default EmptyString (pub_data pxml))
               +:+ substring 0 (Z.to_nat len) buf);
       pub_hash := pub_hash pxml;
       pub_data_length := new_length;
       pub_type := pub_type pxml |}.

End Publish.

(** ** [strip_non_b64] (main.c)

    [str] and [out] are the arrays the pointers designate, NULL being
    [None]; the elements are [char] values.  A read outside [str] or a
    store outside [out] is undefined behaviour and is the [None] of the
    model.  The result pairs the returned [int] with [out]. *)

Definition b64_char (c : Z) : bool :=
  (c =? 43) || (c =? 47) || (c =? 61) || (c =? 0)
  || ((48 <=? c) && (c <=? 57))
  || ((65 <=? c) && (c <=? 90))
  || ((97 <=? c) && (c <=? 122)).

(** The [for] loop with [n] turns left, that is [len - i]. *)
Fixpoint strip_non_b64_loop (n : nat) (str : list Z) (i offset : Z)
    (out : list Z) : option (Z * list Z) :=
  match n with
  | O => Some (i - offset, out)
  | S n' =>
    match str !! Z.to_nat i with
    | None => None
    | Some c =>
      if b64_char c then
        match store out (Z.to_nat (i - offset)) c with
        | None => None
        | Some out' =>
          if c =? 0 then Some (i - offset, out')
          else strip_non_b64_loop n' str (i + 1) offset out'
        end
      else strip_non_b64_loop n' str (i + 1) (offset + 1) out
    end
  end.

Definition strip_non_b64 (str : option (list Z)) (len : Z)
    (out : option (list Z)) : option (Z * option (list Z)) :=
  match out, str with
  | Some out', Some str' =>
    match strip_non_b64_loop (Z.to_nat len) str' 0 0 out' with
    | Some (r, out'') => Some (r, Some out'')
    | None => None
    end
  | _, _ => Some (-1, out)
  end.

(** ** [rsync_uri_parse] (main.c)

    A C string is the list of its characters in front of the NUL, as
    for [hex_to_bin]; a pointer into [uri] is the rest of [uri] from
    that place on. *)

(** libc, in the "C" locale: [tolower]; [strncasecmp] and [strcasecmp],
    which compare the characters as [unsigned char] after [tolower]
    and stop at a NUL; [strchr], the offset of the first [c] ([None]
    for NULL; [c] is not the NUL here). *)
Definition tolower (c : Z) : Z := if isupper c then c + 32 else c.

Fixpoint strncasecmp (s1 s2 : list Z) (n : nat) : Z :=
  match n with
  | O => 0
  | S n' =>
    let c1 := tolower (char_at s1 0) in
    let c2 := tolower (char_at s2 0) in
    if c1 =? c2 then
      if c1 =? 0 then 0 else strncasecmp (drop 1 s1) (drop 1 s2) n'
    else c1 - c2
  end.

Fixpoint strcasecmp (s1 s2 : list Z) : Z :=
  let c1 := tolower (char_at s1 0) in
  let c2 := tolower (char_at s2 0) in
  match s1 with
  | [] => c1 - c2
  | _ :: s1' =>
    if c1 =? c2 then
      if c1 =? 0 then 0 else strcasecmp s1' (drop 1 s2)
    else c1 - c2
  end.

Fixpoint strchr (s : list Z) (c : Z) : option nat :=
  match s with
  | [] => None
  | x :: s' => if x =? c then Some 0%nat else S <$> strchr s' c
  end.

(** [enum rtype], the values this file names. *)
Inductive rtype := RTYPE_EOF | RTYPE_ROA | RTYPE_MFT | RTYPE_CER | RTYPE_CRL.

(** What the call stores through its seven output pointers, all of
    them taken to be given: a NULL one only drops its stores. *)
Record rsync_uri := {
  hostp : option (list Z);
  hostsz : Z;
  modulep : option (list Z);
  modulesz : Z;
  pathp : option (list Z);
  pathsz : Z;
  rtypep : rtype
}.

Definition rsync_uri_parse (uri : list Z) : Z * rsync_uri :=
  (* Initialise all output values to NULL or 0. *)
  let out :=
    {| hostp := None; hostsz := 0; modulep := None; modulesz := 0;
       pathp := None; pathsz := 0; rtypep := RTYPE_EOF |} in
  (* Case-insensitive rsync URI. *)
  if negb (strncasecmp uri (chars "rsync://") 8 =? 0) then (0, out)
  else
    (* Parse the non-zero-length hostname. *)
    let host := drop 8 uri in
    match strchr host 47 with
    | None => (0, out)
    | Some m =>
      if (m =? 0)%nat then (0, out)
      else
        let out :=
          {| hostp := Some host; hostsz := Z.of_nat m;
             modulep := None; modulesz := 0;
             pathp := None; pathsz := 0; rtypep := RTYPE_EOF |} in
        let module := drop m host in
        (* The non-zero-length module follows the hostname. *)
        if nth 1 module 0 =? 0 then (0, out)
        else
          let module := drop 1 module in
          (* The path component is optional. *)
          match strchr module 47 with
          | None =>
            (1, {| hostp := hostp out; hostsz := hostsz out;
                   modulep := Some module;
                   modulesz := Z.of_nat (length module);
                   pathp := None; pathsz := 0; rtypep := RTYPE_EOF |})
          | Some p =>
            if (p =? 0)%nat then (0, out)
            else
              let path := drop 1 (drop p module) in
              let sz := length path in
              let ext := drop (sz - 4) path in
              (1, {| hostp := hostp out; hostsz := hostsz out;
                     modulep := Some module; modulesz := Z.of_nat p;
                     pathp := Some path; pathsz := Z.of_nat sz;
                     rtypep :=
                       if (4 <? sz)%nat then
                         if strcasecmp ext (chars ".roa") =? 0 then RTYPE_ROA
                         else if strcasecmp ext (chars ".mft") =? 0
                         then RTYPE_MFT
                         else if strcasecmp ext (chars ".cer") =? 0
                         then RTYPE_CER
                         else if strcasecmp ext (chars ".crl") =? 0
                         then RTYPE_CRL
                         else RTYPE_EOF
                       else RTYPE_EOF |})
          end
    end.


(** * What the properties are stated with

    The notions of the specification that the code has no function
    for, and the concrete sessions the worker is run on. *)

(** ** [hex_to_bin] *)

(** The characters of a C string: [unsigned char] values, none of them
    the NUL. *)
Definition is_cstring (s : list Z) : Prop := Forall (fun c => 0 < c < 256) s.

(** The digit string fits: an even number of characters, all of them
    hexadecimal digits, and no more pairs than the [len - pos] bytes
    left. *)
Definition hex_ok (hexstr : list Z) (pos len : nat) : Prop :=
  Nat.even (length hexstr) = true /\ Forall (fun c => is_xdigit c = true) hexstr
  /\ (pos + Nat.div2 (length hexstr) <= len)%nat.

(** Both turns of the inner loop, against the digit predicate and the
    digit values. *)
Definition hex_digit_pair_ok (c0 c1 : Z) : bool :=
  match hex_digit 0 c0 with
  | None => negb (is_xdigit c0)
  | Some r0 =>
    is_xdigit c0 &&
    match hex_digit r0 c1 with
    | None => negb (is_xdigit c1)
    | Some r => is_xdigit c1 && (r =? 16 * xdigit_value c0 + xdigit_value c1)
    end
  end.

(** ** The plan of the specification *)

Section PlanReference.
Import Notification.

(** The serials [deltas] are [first], [first + 1], ... without a gap. *)
Fixpoint contiguous_from (first : Z) (deltas : list Z) : bool :=
  match deltas with
  | [] => true
  | d :: deltas' => (d =? first) && contiguous_from (first + 1) deltas'
  end.

(** The plan as section 4.3 of the specification words it, from the
    state of the last synchronisation, the header of the notification
    and the serials of the delta list in list order: exactly [diff]
    entries, with the serials that follow the repository's one by
    one. *)
Definition spec_plan (repo_sid : option string) (repo_serial : Z)
    (sid : string) (serial : Z) (deltas : list Z) : notification_state :=
  match repo_sid with
  | None => NOTIFICATION_STATE_SNAPSHOT
  | Some rs =>
    if String.eqb rs "" || (repo_serial =? 0) then NOTIFICATION_STATE_SNAPSHOT
    else if negb (String.eqb rs sid) then NOTIFICATION_STATE_SNAPSHOT
    else
      let diff := serial - repo_serial in
      if diff =? 0 then NOTIFICATION_STATE_NONE
      else if diff <? 0 then NOTIFICATION_STATE_ERROR
      else if (Z.of_nat (length deltas) =? diff)
              && contiguous_from (repo_serial + 1) deltas
      then NOTIFICATION_STATE_DELTAS
      else NOTIFICATION_STATE_SNAPSHOT
  end.

(** A serial [strtonum] lets through. *)
Definition serial_in_range (z : Z) : Prop := 1 <= z <= LLONG_MAX.

(** The [<delta>] elements of a document handed to [add_delta] in
    their order, as [start_delta_elem] does for serials above the
    repository's. *)
Definition add_deltas (nxml : notification_xml) (ds : list delta_item)
  : notification_xml :=
  fold_left
    (fun n d => (add_delta n (d_uri d) (d_hash d) (d_serial d)).2) ds nxml.

(** Presentation orders: no serial below its predecessor; every
    serial below all the earlier ones. *)
Fixpoint ascending (l : list Z) : Prop :=
  match l with
  | a :: (b :: _) as t => a <= b /\ ascending t
  | _ => True
  end.

Fixpoint descending (l : list Z) : Prop :=
  match l with
  | [] => True
  | a :: t => Forall (fun b => b < a) t /\ descending t
  end.

End PlanReference.

(** ** The worker *)

(** A stand-in for SHA-256 to run the worker on concrete input: the
    context is the list of the bytes fed so far and the digest is that
    list, so that two inputs never share a digest. *)
Definition recording_hasher : Hasher :=
  {| SHA256_CTX := list Z; SHA256_Init := [];
     SHA256_Update := fun ctx buf => ctx ++ buf;
     SHA256_Final := fun ctx => ctx; SHA256_zeroed := [] |}.

Section Samples.
Import Rrdp.
Existing Instance recording_hasher.

(** Session 7 of a queue of one: last synchronisation at session A,
    serial 10; the notification read announces serial 12.  The expected
    hash and the bytes hashed so far agree. *)
Definition sample_session (st : rrdp_state) (t : rrdp_task) (pending : Z)
  : rrdp :=
  {| id := 7; notifyuri := Some "https://rrdp.example/notification.xml"%string;
     local := Some "rrdp.example"%string; pfd := Some 1%nat; infd := 5;
     state := st; task := t; status := 0;
     file_pending := pending; file_failed := 0;
     hash := [222; 173]; ctx := [222; 173];
     repository := {| session_id := Some "A"%string; serial := 10;
                      last_mod := Some "Mon, 01 Jan 2024 00:00:00 GMT"%string |};
     current := {| session_id := Some "A"%string; serial := 12;
                   last_mod := None |};
     nxml := XML_LIVE;
     sxml := if bool_decide (t = SNAPSHOT) then XML_LIVE else XML_NULL;
     dxml := if bool_decide (t = DELTA) then XML_LIVE else XML_NULL |}.

Definition sample_worker (st : rrdp_state) (t : rrdp_task) (pending : Z)
  : worker :=
  {| states := [sample_session st t pending]; msgq := [] |}.

Definition all_fine : completion :=
  {| XML_Parse_final := true; notification_done := NOTIFICATION;
     notification_delta_done := true |}.

Definition sample_publish (uri : string) : publish_xml :=
  {| pub_uri := Some uri; pub_data := Some "AAAA"%string; pub_hash := [];
     pub_data_length := 4; pub_type := PUB_ADD |}.

(** A snapshot fetch of session 7: two [<publish>] elements are sent on
    as FILE messages, the stream ends with the right digest, and the
    parent reports status 200 before it has acknowledged either file. *)
Definition snapshot_run : worker * result worker :=
  let decode := fun _ : string => Some [0; 0; 0] in
  let w0 := sample_worker PARSING SNAPSHOT 0 in
  let w1 := (publish_done decode w0 0 (sample_publish "rsync://h/m/a.cer")).2 in
  let w2 := (publish_done decode w1 0 (sample_publish "rsync://h/m/b.roa")).2 in
  match rrdp_stream_input w2 0
          {| ev_read := Some []; ev_xml_ok := true; ev_publish := [] |} with
  | Done w3 => (w3, rrdp_input_handler w3 (In_HTTP_FIN (-1) 7 200 None) all_fine)
  | Errx msg => (w2, Errx msg)
  end.

(** Turns of the loop one after the other, as long as the worker
    runs; [notification_get_next] is not asked in the runs below. *)
Definition turns (ps : list poll_result) (w : worker) : result (option worker) :=
  fold_left
    (fun r p =>
       match r with
       | Done (Some w) => proc_rrdp_turn (fun _ => (None, [])) p w
       | _ => r
       end) ps (Done (Some w)).

End Samples.

(** ** The scope automaton *)

Section ScopeReference.
Import Notification.

(** The path of section 4.2 of the specification: the scope an element
    event leads to, [None] where the event has no place. *)
Definition scope_step (sc : notification_scope) (ev : xml_event)
  : option notification_scope :=
  match ev with
  | StartElement el _ =>
    if String.eqb "notification" el then
      if bool_decide (sc = NOTIFICATION_SCOPE_START)
      then Some NOTIFICATION_SCOPE_NOTIFICATION else None
    else if String.eqb "snapshot" el then
      if bool_decide (sc = NOTIFICATION_SCOPE_NOTIFICATION)
      then Some NOTIFICATION_SCOPE_SNAPSHOT else None
    else if String.eqb "delta" el then
      if bool_decide (sc = NOTIFICATION_SCOPE_NOTIFICATION_POST_SNAPSHOT)
      then Some NOTIFICATION_SCOPE_DELTA else None
    else None
  | EndElement el =>
    if String.eqb "notification" el then
      if bool_decide (sc = NOTIFICATION_SCOPE_NOTIFICATION_POST_SNAPSHOT)
      then Some NOTIFICATION_SCOPE_END else None
    else if String.eqb "snapshot" el then
      if bool_decide (sc = NOTIFICATION_SCOPE_SNAPSHOT)
      then Some NOTIFICATION_SCOPE_NOTIFICATION_POST_SNAPSHOT else None
    else if String.eqb "delta" el then
      if bool_decide (sc = NOTIFICATION_SCOPE_DELTA)
      then Some NOTIFICATION_SCOPE_NOTIFICATION_POST_SNAPSHOT else None
    else None
  end.

Fixpoint scope_run (sc : notification_scope) (doc : list xml_event)
  : option notification_scope :=
  match doc with
  | [] => Some sc
  | ev :: doc' =>
    match scope_step sc ev with
    | Some sc' => scope_run sc' doc'
    | None => None
    end
  end.

(** A sequence of [<delta ...></delta>] elements. *)
Fixpoint delta_elems (doc : list xml_event) : Prop :=
  match doc with
  | [] => True
  | StartElement el _ :: EndElement el' :: doc' =>
    el = "delta"%string /\ el' = "delta"%string /\ delta_elems doc'
  | _ => False
  end.

(** The handler state a parse ends with, accepted or not. *)
Definition parsed_nxml (r : parse_result) : notification_xml :=
  match r with
  | PARSE_OK nxml => nxml
  | PARSE_FAIL nxml _ => nxml
  end.

(** Every queued delta is newer than the repository and a serial
    [strtonum] lets through; without a repository serial nothing is
    queued. *)
Definition queue_relevant (nxml : notification_xml) : Prop :=
  Forall (fun d => current_serial nxml < d_serial d <= LLONG_MAX)
    (delta_q nxml) /\
  (current_serial nxml = 0 -> delta_q nxml = []).

Fixpoint strictly_ascending (l : list Z) : Prop :=
  match l with
  | [] => True
  | a :: t => Forall (fun b => a < b) t /\ strictly_ascending t
  end.

Definition header_names : list string :=
  ["xmlns"; "session_id"; "version"; "serial"]%string.

(** The fields the attribute loops and [check_state] leave alone. *)
Definition same_queue (n n' : notification_xml) : Prop :=
  delta_q n' = delta_q n /\ current_serial n' = current_serial n /\
  current_session_id n' = current_session_id n.

(** The value an attribute ends with when the list is read from the
    front: the one of its last occurrence, [old] when it has none. *)
Fixpoint last_value (name : string) (attr : list (string * string))
    (old : option string) : option string :=
  match attr with
  | [] => old
  | (n, v) :: attr' =>
      last_value name attr' (if String.eqb name n then Some v else old)
  end.

Definition snapshot_name (a : string * string) : Prop :=
  a.1 = "uri"%string \/ a.1 = "hash"%string.

End ScopeReference.

(** ** The worker *)

Section WorkerReference.
Context {hasher : Hasher}.
Import Rrdp.

(** The session a message with this id is for. *)
Definition session_of (w : worker) (id' : Z) : option rrdp :=
  match rrdp_get w id' with
  | Some i => states w !! i
  | None => None
  end.

Definition msg_id (m : imsg) : Z :=
  match m with
  | In_START _ id' _ _ _ _ _ => id'
  | In_HTTP_INI _ id' => id'
  | In_HTTP_FIN _ id' _ _ => id'
  | In_FILE _ id' _ => id'
  | In_other _ _ id' => id'
  end.

Definition is_start (m : imsg) : bool :=
  match m with In_START _ _ _ _ _ _ _ => true | _ => false end.

(** Nothing sent and no session freed; or one session freed and its
    END sent, after the SESSION message when there is one. *)
Definition quiet_step (w w' : worker) : Prop :=
  msgq w' = msgq w /\ length (states w') = length (states w).

Definition ending_step (id' : Z) (w w' : worker) : Prop :=
  exists ok tail,
    msgq w' = msgq w ++ tail ++ [Msg_END id' ok] /\
    S (length (states w')) = length (states w) /\
    (tail = [] \/
     ok = 1 /\ exists sid ser lm, tail = [Msg_SESSION id' sid ser lm]).

(** What a step has queued. *)
Definition sent (w w' : worker) : list ibuf :=
  drop (length (msgq w)) (msgq w').

(** The ways a fetch completes with success. *)
Definition completes (s : rrdp) (status' : Z) (c : completion) : Prop :=
  (status' = 200 /\ XML_Parse_final c = true /\ ~ 0 < file_failed s /\
   (task s = SNAPSHOT \/
    (task s = NOTIFICATION /\ notification_done c = NOTIFICATION) \/
    (task s = DELTA /\ notification_delta_done c = true))) \/
  (status' = 304 /\ task s = NOTIFICATION).

(** The request a session in REQ sends, with what
    [notification_get_next] answers for a snapshot or a delta. *)
Definition request_of (next : nat -> option string * list Z) (k : nat)
    (s : rrdp) : ibuf :=
  match task s with
  | NOTIFICATION =>
      Msg_HTTP_REQ (id s) (notifyuri s) (last_mod (repository s))
  | _ => Msg_HTTP_REQ (id s) (next k).1 None
  end.

(** The requests of one run of the loop, in the order sent. *)
Fixpoint requests_of (next : nat -> option string * list Z) (k i : nat)
    (l : list rrdp) : list ibuf :=
  match l with
  | [] => []
  | s :: l' =>
    if decide (MAX_SESSIONS + 1 <= i)%nat then []
    else (if bool_decide (state s = REQ) then [request_of next k s] else [])
         ++ requests_of next (S k) (S i) l'
  end.

(** What happens to the files of one session while it is fetched: a
    record is handed to [publish_done], or the parent acknowledges a
    file. *)
Inductive file_step :=
  | Published (pxml : publish_xml)
  | Acked (status' : Z).

Fixpoint file_steps (decode : string -> option (list Z)) (c : completion)
    (id' : Z) (i : nat) (evs : list file_step) (w : worker) : result worker :=
  match evs with
  | [] => Done w
  | Published pxml :: evs' =>
      file_steps decode c id' i evs' (publish_done decode w i pxml).2
  | Acked status' :: evs' =>
      match rrdp_input_handler w (In_FILE (-1) id' status') c with
      | Done w' => file_steps decode c id' i evs' w'
      | Errx msg => Errx msg
      end
  end.

(** The records [publish_done] sends on: those whose data decode. *)
Definition decodes (decode : string -> option (list Z)) (pxml : publish_xml)
  : bool :=
  if 0 <? pub_data_length pxml
  then bool_decide (is_Some (decode (default EmptyString (pub_data pxml))))
  else true.

Fixpoint files_sent (decode : string -> option (list Z))
    (evs : list file_step) : Z :=
  match evs with
  | [] => 0
  | Published pxml :: evs' =>
      (if decodes decode pxml then 1 else 0) + files_sent decode evs'
  | Acked _ :: evs' => files_sent decode evs'
  end.

Fixpoint files_acked (evs : list file_step) : Z :=
  match evs with
  | [] => 0
  | Published _ :: evs' => files_acked evs'
  | Acked _ :: evs' => 1 + files_acked evs'
  end.

Fixpoint files_failed (evs : list file_step) : Z :=
  match evs with
  | [] => 0
  | Published _ :: evs' => files_failed evs'
  | Acked status' :: evs' =>
      (if status' =? 0 then 1 else 0) + files_failed evs'
  end.

(** A session whose slot has [POLLIN] set. *)
Definition polled (revents : nat -> option stream_event) (s : rrdp) : bool :=
  match pfd s with
  | Some slot => bool_decide (is_Some (revents slot))
  | None => false
  end.

(** What a failed [read] leaves of a session: a DELTA session falls
    back to its snapshot, any other one is gone. *)
Definition read_failure_keeps (revents : nat -> option stream_event)
    (s : rrdp) : option rrdp :=
  if polled revents s then
    if bool_decide (task s = DELTA) then
      Some (set_state REQ
              (set_task SNAPSHOT
                 (set_sxml XML_LIVE (set_dxml (free_xml (dxml s)) s))))
    else None
  else Some s.

Definition read_failure_reports (revents : nat -> option stream_event)
    (s : rrdp) : option ibuf :=
  if polled revents s && negb (bool_decide (task s = DELTA))
  then Some (Msg_END (id s) 0) else None.

(** The END messages among those queued, and what a stretch of the
    loop owes: the messages queued before are still there, and every
    session that has gone has its END ([n] sessions have come in). *)
Definition is_end (b : ibuf) : bool :=
  match b with Msg_END _ _ => true | _ => false end.

Definition ends (q : list ibuf) : nat := length (List.filter is_end q).

Definition accounted (n : nat) (w w' : worker) : Prop :=
  exists tail,
    msgq w' = msgq w ++ tail /\
    (length (states w') + ends tail = length (states w) + n)%nat.

(** No session is in DONE; and the same of all sessions but the one
    at position [i]. *)
Definition none_done (l : list rrdp) : Prop :=
  Forall (fun s => state s <> DONE) l.

Definition others_not_done (i : nat) (l : list rrdp) : Prop :=
  forall j s, j <> i -> l !! j = Some s -> state s <> DONE.

(** The stream loop on a session that is alone in the worker, and on
    the sessions of a list one after the other, each alone: what is
    left of them and what they send, up to the first error exit. *)
Definition stream_alone (revents : nat -> option stream_event) (s : rrdp)
  : result worker :=
  match pfd s with
  | None => Done {| states := [s]; msgq := [] |}
  | Some slot =>
    match revents slot with
    | None => Done {| states := [s]; msgq := [] |}
    | Some ev => rrdp_stream_input {| states := [s]; msgq := [] |} 0 ev
    end
  end.

Fixpoint streams_alone (revents : nat -> option stream_event)
    (l : list rrdp) : result worker :=
  match l with
  | [] => Done {| states := []; msgq := [] |}
  | s :: l' =>
    match stream_alone revents s with
    | Errx msg => Errx msg
    | Done w1 =>
      match streams_alone revents l' with
      | Errx msg => Errx msg
      | Done w2 =>
        Done {| states := states w1 ++ states w2;
                msgq := msgq w1 ++ msgq w2 |}
      end
    end
  end.

(** The sessions with another id than [id'], in their order. *)
Definition other_sessions (id' : Z) (w : worker) : list rrdp :=
  List.filter (fun s => negb (id s =? id')) (states w).

(** *** The stream loop, seen from one session

    What the body of the stream loop makes of a session and what it
    queues, set down for the session alone: the sessions left in its
    place (the session, changed or not, or none) and the messages. *)

(** The FILE message of a record that has been sent on, and the
    session after [rs] such records. *)
Definition file_message (s : rrdp) (r : publish_xml * list Z) : ibuf :=
  Msg_FILE (id s) (pub_type r.1)
    (if bool_decide (pub_type r.1 = PUB_ADD) then None
     else Some (pub_hash r.1))
    (pub_uri r.1) r.2.

Definition published (s : rrdp) (rs : list (publish_xml * list Z)) : rrdp :=
  set_file_pending
    (Nat.iter (length rs) (fun p => uint (p + 1)) (file_pending s)) s.

(** The failure path: a DELTA session is set to fetch the snapshot, any
    other session goes and END with ok = 0 is queued. *)
Definition failure_outcome (s : rrdp) : list rrdp * list ibuf :=
  if bool_decide (task s = DELTA)
  then ([set_state REQ
           (set_task SNAPSHOT
              (set_sxml XML_LIVE (set_dxml (free_xml (dxml s)) s)))], [])
  else ([], [Msg_END (id s) 0]).

(** The session after a chunk of data. *)
Definition after_chunk (s : rrdp) (ev : stream_event) (buf : list Z) : rrdp :=
  let s1 :=
    if bool_decide (task s = NOTIFICATION) then s
    else set_ctx (SHA256_Update (ctx s) buf) s in
  if bool_decide (state s = PARSING) then
    let s2 :=
      if bool_decide (task s = NOTIFICATION) then s1
      else published s1 (ev_publish ev) in
    if ev_xml_ok ev then s2 else set_state ERROR s2
  else s1.

Definition chunk_files (s : rrdp) (ev : stream_event) : list ibuf :=
  if bool_decide (state s = PARSING)
     && negb (bool_decide (task s = NOTIFICATION))
  then map (file_message s) (ev_publish ev) else [].

Definition stream_outcome (s : rrdp) (ev : stream_event)
  : result (list rrdp * list ibuf) :=
  match ev_read ev with
  | None => Done (failure_outcome s)
  | Some buf =>
    if negb (bool_decide (state s = PARSING))
       && negb (bool_decide (state s = ERROR))
    then Errx "bad parser state"
    else
    match buf with
    | [] =>
      if negb (bool_decide (task s = NOTIFICATION))
         && negb (bool_decide (hash s = SHA256_Final (ctx s)))
      then Done (failure_outcome (set_infd (-1) s))
      else
        Done ([set_state
                 (if bool_decide (state s = PARSING) then PARSED
                  else state s) (set_infd (-1) s)], [])
    | _ => Done ([after_chunk s ev buf], chunk_files s ev)
    end
  end.

(** *** The hash discipline of the specification *)

(** The event [poll] reports for the slot of a session, if any. *)
Definition event_of (revents : nat -> option stream_event) (s : rrdp)
  : option stream_event :=
  match pfd s with
  | Some slot => revents slot
  | None => None
  end.



(** *** What [poll] reports in the runs of one session *)

Definition end_of_file : stream_event :=
  {| ev_read := Some []; ev_xml_ok := true; ev_publish := [] |}.

(** Nothing to write and no hang-up: the events of the slots alone, and
    a message of the parent with them. *)
Definition poll_streams (revents : nat -> option stream_event)
  : poll_result :=
  {| pollhup := false; pollout := None; pollin := None;
     revents := revents |}.

Definition poll_message (m : imsg) (c : completion)
    (revents : nat -> option stream_event) : poll_result :=
  {| pollhup := false; pollout := None; pollin := Some (m, c);
     revents := revents |}.

End WorkerReference.


(** ** The publish records *)

Section PublishReference.
Import Rrdp Publish.

Definition newline : string := String "010"%char EmptyString.

(** The character data of one element as the parser hands it over,
    chunk by chunk, each with its length. *)
Definition add_chunks (pxml : publish_xml) (chunks : list string)
  : publish_xml :=
  fold_left
    (fun p buf => publish_add_content p buf (Z.of_nat (String.length buf)))
    chunks pxml.

(** The chunks one after the other, without those that are a newline
    and nothing else. *)
Definition content (chunks : list string) : string :=
  fold_right String.append EmptyString
    (List.filter (fun buf => negb (String.eqb buf newline)) chunks).

(** [data_length] is the length of [data]. *)
Definition data_ok (pxml : publish_xml) : Prop :=
  pub_data_length pxml
  = Z.of_nat (String.length (default EmptyString (pub_data pxml))).

End PublishReference.

(** ** [strip_non_b64] *)

(** The characters in front of the first NUL. *)
Fixpoint until_nul (s : list Z) : list Z :=
  match s with
  | [] => []
  | c :: s' => if c =? 0 then [] else c :: until_nul s'
  end.

(** What [strip_non_b64] keeps of [s]. *)
Definition b64_kept (s : list Z) : list Z :=
  List.filter b64_char (until_nul s).

(** ** [rsync_uri_parse] *)

(** [uri] is a scheme that reads rsync:// in any case, a host, a
    slash, a module, and maybe a slash and a path; host and module are
    not empty and hold no slash. *)
Definition rsync_tail (path : option (list Z)) : list Z :=
  match path with
  | Some p => 47 :: p
  | None => []
  end.

Definition rsync_parts (uri scheme host module : list Z)
    (path : option (list Z)) : Prop :=
  uri = scheme ++ host ++ 47 :: module ++ rsync_tail path /\
  map tolower scheme = chars "rsync://" /\
  host <> [] /\ ~ In 47 host /\ module <> [] /\ ~ In 47 module.

(** The type the last four characters of a path of more than four
    stand for. *)
Definition rtype_of (path : list Z) : rtype :=
  let ext := map tolower (drop (length path - 4) path) in
  if decide (length path <= 4)%nat then RTYPE_EOF
  else if decide (ext = chars ".roa") then RTYPE_ROA
  else if decide (ext = chars ".mft") then RTYPE_MFT
  else if decide (ext = chars ".cer") then RTYPE_CER
  else if decide (ext = chars ".crl") then RTYPE_CRL
  else RTYPE_EOF.

(** A pattern of the comparisons: lower-case characters, no NUL. *)
Definition plain (p : list Z) : Prop :=
  Forall (fun x => 0 < x < 256 /\ tolower x = x) p.


(** * Properties *)

(** ** Machine integers *)

Lemma uchar_small z : 0 <= z < 256 -> uchar z = z.
Proof. intros. unfold uchar. apply Z.mod_small. lia. Qed.

Lemma int_small z : INT_MIN <= z <= INT_MAX -> int z = z.
Proof.
  unfold int, INT_MIN, INT_MAX. intros.
  rewrite Z.mod_small; lia.
Qed.

Lemma llong_small z : LLONG_MIN <= z <= LLONG_MAX -> llong z = z.
Proof.
  unfold llong, LLONG_MIN, LLONG_MAX. intros.
  rewrite Z.mod_small; lia.
Qed.

(** ** [hex_to_bin] *)

Section HexToBin.


Lemma hex_digit_table :
  forallb (fun c0 => forallb (hex_digit_pair_ok c0) (seqZ 0 256)) (seqZ 0 256)
  = true.
Proof. vm_compute. reflexivity. Qed.

Lemma hex_digit_pair c0 c1 :
  0 <= c0 < 256 -> 0 <= c1 < 256 -> hex_digit_pair_ok c0 c1 = true.
Proof.
  intros H0 H1.
  pose proof hex_digit_table as T.
  rewrite forallb_forall in T.
  specialize (T c0). rewrite forallb_forall in T.
  apply T; apply list_elem_of_In, elem_of_seqZ; lia.
Qed.

Lemma hex_digit_first c0 :
  0 <= c0 < 256 ->
  if is_xdigit c0 then exists r0, hex_digit 0 c0 = Some r0
  else hex_digit 0 c0 = None.
Proof.
  intros H0. pose proof (hex_digit_pair c0 0 H0 ltac:(lia)) as P.
  unfold hex_digit_pair_ok in P.
  destruct (hex_digit 0 c0) as [r0|], (is_xdigit c0); simpl in P;
    try discriminate; eauto.
Qed.

Lemma hex_digit_second c0 c1 r0 :
  0 <= c0 < 256 -> 0 <= c1 < 256 -> hex_digit 0 c0 = Some r0 ->
  if is_xdigit c1
  then hex_digit r0 c1 = Some (16 * xdigit_value c0 + xdigit_value c1)
  else hex_digit r0 c1 = None.
Proof.
  intros H0 H1 E. pose proof (hex_digit_pair c0 c1 H0 H1) as P.
  unfold hex_digit_pair_ok in P. rewrite E in P.
  destruct (is_xdigit c0); simpl in P; [|discriminate].
  destruct (hex_digit r0 c1) as [r|], (is_xdigit c1); simpl in P;
    try discriminate; [|reflexivity].
  apply Z.eqb_eq in P. by subst.
Qed.



Lemma hex_to_bin_loop n : forall hexstr buf pos len,
  (length hexstr <= n)%nat -> is_cstring hexstr ->
  (len <= length buf)%nat -> (pos <= len)%nat ->
  exists ret buf', hex_to_bin hexstr buf pos len = Some (ret, buf') /\
    length buf' = length buf /\ take pos buf' = take pos buf /\
    drop len buf' = drop len buf /\
    ((ret = 0 /\ hex_ok hexstr pos len /\
      take (Nat.div2 (length hexstr)) (drop pos buf') = hex_pairs hexstr)
     \/ (ret = -1 /\ ~ hex_ok hexstr pos len)).
Proof.
  induction n as [|n IH]; intros hexstr buf pos len Hn Hs Hb Hp.
  - destruct hexstr; [|simpl in Hn; lia].
    simp hex_to_bin. exists 0, buf. repeat split; auto.
    left. repeat split; auto. simpl. lia.
  - destruct hexstr as [|c0 hexstr1].
    { simp hex_to_bin. exists 0, buf. repeat split; auto.
      left. repeat split; auto. simpl. lia. }
    apply Forall_cons in Hs as [Hc0 Hs].
    simp hex_to_bin. rewrite (uchar_small c0) by lia.
    destruct (Z.eqb_spec c0 0) as [|_]; [lia|].
    pose proof (hex_digit_first c0 ltac:(lia)) as F.
    destruct (is_xdigit c0) eqn:X0.
    2:{ rewrite F. exists (-1), buf. repeat split; auto. right. split; auto.
        intros (_ & A & _). apply Forall_cons in A as [A _]. congruence. }
    destruct F as [r0 F]. rewrite F.
    assert (C1 : 0 <= char_at hexstr1 0 < 256).
    { unfold char_at, uchar. apply Z.mod_pos_bound. lia. }
    pose proof (hex_digit_second c0 _ r0 ltac:(lia) C1 F) as G.
    destruct hexstr1 as [|c1 rest].
    { rewrite G.
      exists (-1), buf. repeat split; auto. right. split; auto.
      intros (A & _). discriminate. }
    apply Forall_cons in Hs as [Hc1 Hs].
    change (char_at (c1 :: rest) 0) with (uchar c1) in *.
    rewrite (uchar_small c1) in * by lia.
    destruct (is_xdigit c1) eqn:X1; rewrite G.
    2:{ exists (-1), buf. repeat split; auto. right. split; auto.
        intros (_ & A & _). apply Forall_cons in A as [_ A].
        apply Forall_cons in A as [A _]. congruence. }
    destruct (decide (pos < len)%nat) as [Hlt|Hge].
    2:{ exists (-1), buf. repeat split; auto. right. split; auto.
        intros (_ & _ & A). simpl in A.
        revert A. generalize (Nat.div2 (length rest)). lia. }
    unfold store. destruct (decide (pos < length buf)%nat) as [_|]; [|lia].
    simpl drop. rewrite drop_0.
    set (r := 16 * xdigit_value c0 + xdigit_value c1).
    destruct (IH rest (<[pos:=r]> buf) (S pos) len) as
      (ret & buf' & E & L & T & D & R); auto.
    { simpl in Hn. lia. }
    { rewrite length_insert. lia. }
    rewrite length_insert in L.
    exists ret, buf'. split; [exact E|]. split; [exact L|].
    assert (Tp : take pos buf' = take pos buf).
    { apply (f_equal (take pos)) in T. rewrite !take_take in T.
      rewrite !Nat.min_l in T by lia. rewrite T.
      apply take_insert_ge. lia. }
    assert (Ep : buf' !! pos = Some r).
    { rewrite <- (lookup_take_lt buf' (S pos) pos) by lia. rewrite T.
      rewrite lookup_take_lt by lia. apply list_lookup_insert_eq. lia. }
    split; [exact Tp|]. split.
    { rewrite D. apply drop_insert_lt. lia. }
    destruct R as [(-> & (Ev & Fa & Le) & Tk)|(-> & N)].
    + left. split; auto. split.
      * repeat split; simpl; auto.
        revert Le. generalize (Nat.div2 (length rest)). lia.
      * simpl length. simpl Nat.div2. simpl hex_pairs.
        rewrite (drop_S _ _ _ Ep). simpl. by rewrite Tk.
    + right. split; auto. intros (A & B & C). apply N.
      apply Forall_cons in B as [_ B]. apply Forall_cons in B as [_ B].
      repeat split; simpl in *; auto.
      revert C. generalize (Nat.div2 (length rest)). lia.
Qed.

(** C10. [hex_to_bin(hexstr, buf, len)] on a C string and a buffer of at
    least [len] bytes returns (no store leaves the buffer), and returns
    0 or -1; it returns 0 exactly when the string has an even number of
    characters, all hexadecimal digits, and at most [len] pairs of
    them, shorter strings included; then byte [i] of the buffer is the
    value of pair [i].  Bytes from [len] on are never written. *)
Theorem hex_to_bin_spec (hexstr buf : list Z) (len : nat) :
  is_cstring hexstr -> (len <= length buf)%nat ->
  exists ret buf',
    hex_to_bin hexstr buf 0 len = Some (ret, buf') /\
    (ret = 0 \/ ret = -1) /\
    (ret = 0 <->
       Nat.even (length hexstr) = true /\
       Forall (fun c => is_xdigit c = true) hexstr /\
       (Nat.div2 (length hexstr) <= len)%nat) /\
    (ret = 0 -> take (Nat.div2 (length hexstr)) buf' = hex_pairs hexstr) /\
    length buf' = length buf /\
    drop len buf' = drop len buf.
Proof.
  intros Hs Hb.
  destruct (hex_to_bin_loop (length hexstr) hexstr buf 0 len)
    as (ret & buf' & E & L & _ & D & R); auto; [lia|].
  exists ret, buf'. unfold hex_ok in R. simpl in R.
  destruct R as [(-> & H & T)|(-> & N)]; repeat split; auto; try tauto;
    try discriminate.
Qed.

Lemma hex_to_bin_spec_witness :
  exists ret buf',
    hex_to_bin (chars "01aF") [7; 7; 7] 0 2 = Some (ret, buf') /\
    (ret = 0 \/ ret = -1) /\
    (ret = 0 <->
       Nat.even (length (chars "01aF")) = true /\
       Forall (fun c => is_xdigit c = true) (chars "01aF") /\
       (Nat.div2 (length (chars "01aF")) <= 2)%nat) /\
    (ret = 0 ->
       take (Nat.div2 (length (chars "01aF"))) buf' = hex_pairs (chars "01aF")) /\
    length buf' = length [7; 7; 7] /\
    drop 2 buf' = drop 2 [7; 7; 7].
Proof.
  apply (hex_to_bin_spec (chars "01aF") [7; 7; 7] 2).
  - unfold is_cstring. vm_compute. repeat constructor.
  - simpl. lia.
Defined.

(** A hash attribute of fewer than 64 digits is taken: two digits fill
    one byte of a 32-byte buffer and the call succeeds. *)
Example hex_to_bin_short :
  hex_to_bin (chars "aB") (repeat 0 32) 0 32 = Some (0, 171 :: repeat 0 31).
Proof. vm_compute. reflexivity. Qed.

Example hex_to_bin_odd :
  hex_to_bin (chars "abc") (repeat 0 32) 0 32 = Some (-1, 171 :: repeat 0 31).
Proof. vm_compute. reflexivity. Qed.

Example hex_to_bin_too_long :
  hex_to_bin (chars "0102") [0] 0 1 = Some (-1, [1]).
Proof. vm_compute. reflexivity. Qed.

End HexToBin.

(** ** The notification handler *)

Section NotificationProperties.
Import Notification.


Lemma contiguous_from_seqZ first deltas :
  contiguous_from first deltas = true <->
  deltas = seqZ first (Z.of_nat (length deltas)).
Proof.
  revert first. induction deltas as [|d ds IH]; intros first; simpl length.
  - simpl. split; auto.
  - rewrite Nat2Z.inj_succ, seqZ_cons by lia.
    replace (Z.pred (Z.succ (Z.of_nat (length ds)))) with (Z.of_nat (length ds))
      by lia.
    cbn [contiguous_from]. rewrite andb_true_iff, Z.eqb_eq, IH.
    replace (Z.succ first) with (first + 1) by lia.
    split; [intros [-> <-]; done | intros H; injection H; auto].
Qed.

Lemma check_state_walk_spec cur q : forall c,
  0 <= c -> c + Z.of_nat (length q) <= INT_MAX -> 0 <= cur <= LLONG_MAX ->
  Forall (fun d => serial_in_range (d_serial d)) q ->
  check_state_walk cur q c =
    if contiguous_from (cur + c + 1) (map d_serial q)
    then Some (c + Z.of_nat (length q)) else None.
Proof.
  induction q as [|d q IH]; intros c Hc Hlen Hcur Hq.
  - simpl. f_equal. lia.
  - apply Forall_cons in Hq as [Hd Hq]. unfold serial_in_range in Hd.
    cbn [check_state_walk length map contiguous_from] in *.
    rewrite Nat2Z.inj_succ in *.
    rewrite int_small by (unfold INT_MIN, INT_MAX in *; lia).
    assert ((llong (cur + (c + 1)) =? d_serial d) = (d_serial d =? cur + c + 1))
      as ->.
    { destruct (Z_le_gt_dec (cur + (c + 1)) LLONG_MAX).
      - rewrite llong_small by (unfold LLONG_MIN, LLONG_MAX in *; lia).
        rewrite Z.eqb_sym. f_equal. lia.
      - assert (llong (cur + (c + 1)) = cur + (c + 1) - 2 ^ 64) as ->.
        { unfold llong, LLONG_MAX, INT_MAX in *.
          assert ((cur + (c + 1) + 2 ^ 63) mod 2 ^ 64
                  = cur + (c + 1) + 2 ^ 63 - 2 ^ 64) as ->; [|lia].
          symmetry. apply Z.mod_unique with (q := 1); lia. }
        unfold LLONG_MAX, INT_MAX in *.
        destruct (Z.eqb_spec (cur + (c + 1) - 2 ^ 64) (d_serial d)),
          (Z.eqb_spec (d_serial d) (cur + c + 1)); lia. }
    destruct (d_serial d =? cur + c + 1); simpl; [|done].
    rewrite IH by (auto; lia).
    replace (cur + (c + 1) + 1) with (cur + c + 1 + 1) by lia.
    replace (c + 1 + Z.of_nat (length q)) with (c + Z.succ (Z.of_nat (length q)))
      by lia.
    done.
Qed.

(** Within the range of [int] the function computes the plan of the
    specification.  The hypotheses: the plan is not one of the two
    sticky ones, the document has been read to its end, the header and
    the queue hold what [strtonum] lets through, and the difference of
    the serials and the number of deltas are [int] values. *)
Lemma check_state_in_range (nxml : notification_xml) (sid : string) :
  state nxml <> NOTIFICATION_STATE_ERROR ->
  state nxml <> NOTIFICATION_STATE_NONE ->
  scope nxml = NOTIFICATION_SCOPE_END ->
  session_id nxml = Some sid ->
  current_session_id nxml <> Some EmptyString ->
  serial_in_range (serial nxml) ->
  0 <= current_serial nxml <= LLONG_MAX ->
  Forall (fun d => serial_in_range (d_serial d)) (delta_q nxml) ->
  Z.of_nat (length (delta_q nxml)) <= INT_MAX ->
  INT_MIN <= serial nxml - current_serial nxml <= INT_MAX ->
  state (check_state nxml) =
    spec_plan (current_session_id nxml) (current_serial nxml) sid
      (serial nxml) (map d_serial (delta_q nxml)).
Proof.
  intros HE HN Hsc Hsid Hcs Hser Hcur Hq Hlen Hdiff.
  unfold check_state, spec_plan.
  rewrite !bool_decide_eq_false_2 by done. simpl orb. cbv iota.
  destruct (current_session_id nxml) as [rs|]; [|done].
  assert (String.eqb rs "" = false) as ->.
  { apply String.eqb_neq. congruence. }
  simpl orb.
  destruct (Z.eqb_spec (current_serial nxml) 0) as [|Hc0]; [done|].
  rewrite Hsid. unfold serial_in_range in Hser.
  destruct (Z.eqb_spec (serial nxml) 0) as [|_]; [lia|].
  destruct (String.eqb rs sid); simpl negb; cbv iota; [|done].
  rewrite llong_small by (unfold LLONG_MIN, LLONG_MAX, INT_MIN, INT_MAX in *; lia).
  rewrite int_small by done.
  destruct (Z.eqb_spec (serial nxml - current_serial nxml) 0); [done|].
  destruct (Z.ltb_spec (serial nxml - current_serial nxml) 0); [done|].
  rewrite Hsc. simpl Z.leb. cbv iota.
  rewrite check_state_walk_spec by (auto; lia).
  replace (current_serial nxml + 0 + 1) with (current_serial nxml + 1) by lia.
  rewrite length_map. rewrite Z.add_0_l.
  destruct (contiguous_from _ _); [|by rewrite andb_false_r].
  rewrite andb_true_r.
  by destruct (Z.of_nat (length (delta_q nxml))
               =? serial nxml - current_serial nxml).
Qed.

(** C1. The plan of [check_state] leaves the reference definition once
    the serials are 2^32 apart.  Last synchronisation: session A at
    serial 10; the notification is of session A at serial 2^32 + 10 and
    lists no delta.  The reference plan is SNAPSHOT (the delta list does
    not reach the new serial); the handler ends on NONE. *)
Theorem check_state_plan_wraps :
  match XML_Parse (notification_doc "A" "4294967306" [])
          (with_current (Some "A"%string) 10 new_notification_xml) with
  | PARSE_OK nxml =>
      scope nxml = NOTIFICATION_SCOPE_END /\
      serial nxml = 2 ^ 32 + 10 /\
      state nxml = NOTIFICATION_STATE_NONE
  | PARSE_FAIL _ _ => False
  end /\
  spec_plan (Some "A"%string) 10 "A" (2 ^ 32 + 10) []
    = NOTIFICATION_STATE_SNAPSHOT.
Proof. vm_compute. repeat split; reflexivity. Qed.

(** C3. [serial_diff] is an [int]: the difference of the serials is
    reduced to 32 bits before it is tested.  With the last
    synchronisation at serial 2^32 + 1 and a notification at serial 1
    the difference -2^32 becomes 0 and the plan NONE; with the last
    synchronisation at 2^31 + 2 the difference -(2^31 + 1) becomes
    2^31 - 1, positive, and the plan SNAPSHOT after the walk of the
    empty queue.  In both the notification serial is the smaller one
    and ERROR is due. *)
Theorem check_state_serial_diff_truncated :
  let parsed cur :=
    XML_Parse (notification_doc "A" "1" [])
      (with_current (Some "A"%string) cur new_notification_xml) in
  match parsed (2 ^ 32 + 1) with
  | PARSE_OK nxml =>
      serial nxml - current_serial nxml = - 2 ^ 32 /\
      state nxml = NOTIFICATION_STATE_NONE
  | PARSE_FAIL _ _ => False
  end /\
  match parsed (2 ^ 31 + 2) with
  | PARSE_OK nxml =>
      serial nxml - current_serial nxml = - (2 ^ 31 + 1) /\
      state nxml = NOTIFICATION_STATE_SNAPSHOT
  | PARSE_FAIL _ _ => False
  end.
Proof. vm_compute. repeat split; reflexivity. Qed.

(** *** [add_delta] *)

Lemma TAILQ_LAST_snoc {A} (q : list A) (l : A) :
  TAILQ_LAST (q ++ [l]) = Some (length q).
Proof.
  destruct q as [|x q]; simpl; [done|].
  rewrite length_app. simpl. f_equal. lia.
Qed.

(** An item whose serial is not below the one of the last item goes
    behind it, without a look at the queue: equal serials included. *)
Lemma add_delta_append nxml uri hash serial q l :
  delta_q nxml = q ++ [l] -> d_serial l <= serial ->
  add_delta nxml uri hash serial =
    (1, set_delta_q
          (q ++ [l; {| d_uri := uri; d_hash := hash; d_serial := serial |}])
          nxml).
Proof.
  intros Hq Hle. unfold add_delta. rewrite Hq, TAILQ_LAST_snoc.
  rewrite lookup_app_r, Nat.sub_diag by lia. simpl.
  destruct (Z.ltb_spec serial (d_serial l)); [lia|].
  unfold TAILQ_INSERT_AFTER.
  rewrite take_ge, drop_ge by (rewrite length_app; simpl; lia).
  by rewrite <- app_assoc.
Qed.

(** The walk runs off a queue of larger serials with the cursor NULL. *)
Lemma add_delta_walk_all_larger serial q i :
  Forall (fun n => serial < d_serial n) q ->
  add_delta_walk serial q i = Some None.
Proof.
  revert i. induction q as [|n q IH]; intros i Hq; [done|].
  apply Forall_cons in Hq as [Hn Hq]. simpl.
  destruct (Z.eqb_spec (d_serial n) serial); [lia|].
  destruct (Z.ltb_spec (d_serial n) serial); [lia|]. auto.
Qed.

(** An item below every serial of the queue becomes the head. *)
Lemma add_delta_head nxml uri hash serial :
  Forall (fun n => serial < d_serial n) (delta_q nxml) ->
  add_delta nxml uri hash serial =
    (1, set_delta_q
          ({| d_uri := uri; d_hash := hash; d_serial := serial |}
             :: delta_q nxml) nxml).
Proof.
  intros Hq. unfold add_delta.
  destruct (delta_q nxml) as [|x q] eqn:E using rev_ind; [done|].
  clear IHq. rewrite TAILQ_LAST_snoc.
  rewrite lookup_app_r, Nat.sub_diag by lia. simpl.
  pose proof Hq as Hq'. apply Forall_app in Hq' as [_ Hx].
  apply Forall_cons in Hx as [Hx _].
  destruct (Z.ltb_spec serial (d_serial x)); [|lia].
  by rewrite add_delta_walk_all_larger.
Qed.

Lemma ascending_app_r l1 l2 : ascending (l1 ++ l2) -> ascending l2.
Proof.
  induction l1 as [|a l1 IH]; [done|]. intros H. apply IH.
  destruct l1 as [|b l1]; simpl in *.
  - destruct l2; [done | tauto].
  - tauto.
Qed.

Lemma set_delta_q_same nxml : set_delta_q (delta_q nxml) nxml = nxml.
Proof. by destruct nxml. Qed.

(** Deltas presented with ascending serials are queued in that order,
    each behind the last. *)
Lemma add_deltas_ascending ds : forall nxml,
  ascending (map d_serial (delta_q nxml ++ ds)) ->
  add_deltas nxml ds = set_delta_q (delta_q nxml ++ ds) nxml.
Proof.
  induction ds as [|d ds IH]; intros nxml Ha.
  - simpl. by rewrite app_nil_r, set_delta_q_same.
  - unfold add_deltas. cbn [fold_left].
    assert (add_delta nxml (d_uri d) (d_hash d) (d_serial d)
            = (1, set_delta_q (delta_q nxml ++ [d]) nxml)) as ->.
    { destruct (delta_q nxml) as [|l q _] eqn:E using rev_ind.
      - rewrite add_delta_head by (rewrite E; constructor).
        rewrite E. by destruct d.
      - rewrite (add_delta_append _ _ _ _ q l) by
          (auto; rewrite <- app_assoc, map_app in Ha;
           apply ascending_app_r in Ha; simpl in Ha; tauto).
        rewrite <- app_assoc. by destruct d. }
    simpl. fold (add_deltas (set_delta_q (delta_q nxml ++ [d]) nxml) ds).
    rewrite IH; simpl; rewrite <- app_assoc; [done|]. exact Ha.
Qed.

(** Deltas presented with descending serials, all below the queue, are
    queued in ascending order, each at the head. *)
Lemma add_deltas_descending ds : forall nxml,
  descending (map d_serial ds) ->
  Forall (fun d => Forall (fun n => d_serial d < d_serial n) (delta_q nxml)) ds ->
  add_deltas nxml ds = set_delta_q (rev ds ++ delta_q nxml) nxml.
Proof.
  induction ds as [|d ds IH]; intros nxml Hd Hq.
  - simpl. by rewrite set_delta_q_same.
  - apply Forall_cons in Hq as [Hdq Hq]. destruct Hd as [Hlt Hd].
    unfold add_deltas. cbn [fold_left]. rewrite add_delta_head by done.
    simpl. fold (add_deltas
                   (set_delta_q
                      ({| d_uri := d_uri d; d_hash := d_hash d;
                          d_serial := d_serial d |} :: delta_q nxml) nxml) ds).
    rewrite IH; simpl.
    + rewrite <- app_assoc. simpl. by destruct d.
    + exact Hd.
    + rewrite List.Forall_forall in *. intros d' Hin. constructor.
      * simpl. apply Hlt. by apply in_map.
      * by apply Hq.
Qed.

(** C4. A second [<delta>] with a serial already in the queue is taken
    when that serial is the one of the last item (it is put behind it
    without a look at the queue) and when a smaller serial sits in
    front of it (the walk stops there): the documents with the deltas
    11, 11, 12 and 11, 12, 13, 12 parse without a failure and leave the
    serial twice in the queue.  Last synchronisation: session A at
    serial 10. *)
Theorem duplicate_delta_not_rejected :
  let parsed serial deltas :=
    XML_Parse
      (notification_doc "A" serial (map (fun s => (s, "u", "h")) deltas))
      (with_current (Some "A"%string) 10 new_notification_xml) in
  fst (add_delta
         (set_delta_q [{| d_uri := "u"; d_hash := "h"; d_serial := 11 |}]
            (with_current (Some "A"%string) 10 new_notification_xml))
         "u" "h" 11) = 1 /\
  match parsed "12"%string ["11"; "11"; "12"]%string with
  | PARSE_OK nxml => map d_serial (delta_q nxml) = [11; 11; 12]
  | PARSE_FAIL _ _ => False
  end /\
  match parsed "13"%string ["11"; "12"; "13"; "12"]%string with
  | PARSE_OK nxml => map d_serial (delta_q nxml) = [11; 12; 12; 13]
  | PARSE_FAIL _ _ => False
  end.
Proof. vm_compute. repeat split; reflexivity. Qed.

(** The duplicate is met only by a walk that finds it before any
    smaller serial: 12, 11, 11 is refused at the third element. *)
Example duplicate_delta_rejected_at_head :
  match XML_Parse
          (notification_doc "A" "12"
             (map (fun s => (s, "u", "h")) ["12"; "11"; "11"]%string))
          (with_current (Some "A"%string) 10 new_notification_xml) with
  | PARSE_OK _ => False
  | PARSE_FAIL nxml msg =>
      map d_serial (delta_q nxml) = [11; 12] /\
      msg = "parse failed - adding delta failed"%string
  end.
Proof. vm_compute. split; reflexivity. Qed.

(** C9. The queue and the plan depend on the order of the [<delta>]
    elements.  The same four deltas 11 to 14 after serial 10: given in
    ascending order the queue is 11, 12, 13, 14 and the plan DELTAS;
    given as 11, 12, 14, 13 the last one is put behind the first
    smaller serial the walk meets, the queue is 11, 13, 12, 14 and the
    plan SNAPSHOT. *)
Theorem delta_order_changes_plan :
  let parsed deltas :=
    XML_Parse
      (notification_doc "A" "14" (map (fun s => (s, "u", "h")) deltas))
      (with_current (Some "A"%string) 10 new_notification_xml) in
  match parsed ["11"; "12"; "13"; "14"]%string with
  | PARSE_OK nxml =>
      map d_serial (delta_q nxml) = [11; 12; 13; 14] /\
      state nxml = NOTIFICATION_STATE_DELTAS
  | PARSE_FAIL _ _ => False
  end /\
  match parsed ["11"; "12"; "14"; "13"]%string with
  | PARSE_OK nxml =>
      map d_serial (delta_q nxml) = [11; 13; 12; 14] /\
      state nxml = NOTIFICATION_STATE_SNAPSHOT
  | PARSE_FAIL _ _ => False
  end.
Proof. vm_compute. repeat split; reflexivity. Qed.

(** *** The scenarios of the specification *)

(** Same session, deltas 11 and 12 up to serial 12: DELTAS. *)
Example scenario_same_session_delta :
  match XML_Parse
          (notification_doc "A" "12"
             [("11", "D11", "H11"); ("12", "D12", "H12")]%string)
          (with_current (Some "A"%string) 10 new_notification_xml) with
  | PARSE_OK nxml =>
      state nxml = NOTIFICATION_STATE_DELTAS /\
      map d_uri (delta_q nxml) = ["D11"; "D12"]%string
  | PARSE_FAIL _ _ => False
  end.
Proof. vm_compute. split; reflexivity. Qed.

(** A new session id: SNAPSHOT, and no delta is kept for serial 1. *)
Example scenario_session_change :
  match XML_Parse (notification_doc "B" "1" [])
          (with_current (Some "A"%string) 10 new_notification_xml) with
  | PARSE_OK nxml => state nxml = NOTIFICATION_STATE_SNAPSHOT
  | PARSE_FAIL _ _ => False
  end.
Proof. vm_compute. reflexivity. Qed.

(** Only delta 12 listed after serial 10: the gap gives SNAPSHOT. *)
Example scenario_delta_gap :
  match XML_Parse (notification_doc "A" "12" [("12", "D12", "H12")]%string)
          (with_current (Some "A"%string) 10 new_notification_xml) with
  | PARSE_OK nxml => state nxml = NOTIFICATION_STATE_SNAPSHOT
  | PARSE_FAIL _ _ => False
  end.
Proof. vm_compute. reflexivity. Qed.

(** The notification is at serial 9, behind the repository: ERROR. *)
Example scenario_backwards_serial :
  match XML_Parse (notification_doc "A" "9" [])
          (with_current (Some "A"%string) 10 new_notification_xml) with
  | PARSE_OK nxml => state nxml = NOTIFICATION_STATE_ERROR
  | PARSE_FAIL _ _ => False
  end.
Proof. vm_compute. reflexivity. Qed.

(** No state of a last synchronisation: SNAPSHOT, whatever is listed. *)
Example scenario_first_sync :
  match XML_Parse (notification_doc "A" "3" [("3", "D3", "H3")]%string)
          new_notification_xml with
  | PARSE_OK nxml =>
      state nxml = NOTIFICATION_STATE_SNAPSHOT /\ delta_q nxml = []
  | PARSE_FAIL _ _ => False
  end.
Proof. vm_compute. split; reflexivity. Qed.

End NotificationProperties.

(** ** The session worker *)


Section WorkerProperties.
Context {hasher : Hasher}.
Import Rrdp.

Lemma alter_lookup {A} (f : A -> A) (l : list A) (i : nat) (x : A) :
  l !! i = Some x -> alter f i l = <[i:=f x]> l.
Proof.
  revert i. induction l as [|y l IH]; intros [|i] H; simplify_eq/=; auto.
  f_equal. auto.
Qed.

Lemma update_lookup (w : worker) (i : nat) (f : rrdp -> rrdp) (s : rrdp) :
  states w !! i = Some s ->
  update w i f = {| states := <[i:=f s]> (states w); msgq := msgq w |}.
Proof. intros H. unfold update, set_states. by rewrite (alter_lookup _ _ _ s). Qed.

Lemma rrdp_get_from_Some l id' k i :
  rrdp_get_from l id' k = Some i ->
  exists s, l !! (i - k)%nat = Some s /\ id s = id' /\ (k <= i)%nat.
Proof.
  revert k. induction l as [|s l IH]; intros k H; [done|]. simpl in H.
  destruct (Z.eqb_spec (id s) id').
  - injection H as <-. exists s. rewrite Nat.sub_diag. auto.
  - apply IH in H as (s' & L & E & Hk). exists s'.
    replace (i - k)%nat with (S (i - S k)) by lia. simpl. split; auto.
    split; auto. lia.
Qed.

Lemma rrdp_get_Some (w : worker) (id' : Z) (i : nat) :
  rrdp_get w id' = Some i -> exists s, states w !! i = Some s /\ id s = id'.
Proof.
  intros H. apply rrdp_get_from_Some in H as (s & L & E & _).
  rewrite Nat.sub_0_r in L. eauto.
Qed.

Lemma rrdp_get_from_None l id' k :
  rrdp_get_from l id' k = None <-> Forall (fun s => id s <> id') l.
Proof.
  revert k. induction l as [|s l IH]; intros k; simpl.
  - split; auto.
  - destruct (Z.eqb_spec (id s) id') as [E|NE].
    + split; [done|]. intros H. apply Forall_cons in H as [H _]. done.
    + rewrite IH. split; [by constructor|].
      intros H. by apply Forall_cons in H as [_ H].
Qed.

Lemma rrdp_get_None (w : worker) (id' : Z) :
  rrdp_get w id' = None <-> Forall (fun s => id s <> id') (states w).
Proof. apply rrdp_get_from_None. Qed.

(** The failure fallback, for every session.  On a DELTA the pointer
    to the delta handler is no longer live (freed when there was a
    handler), a snapshot handler is installed and the session is back
    in REQ on the task SNAPSHOT; no other field and no other session
    changes and nothing is sent.  On a NOTIFICATION or a SNAPSHOT the
    session is freed and END with ok = 0 is queued. *)
Lemma rrdp_failed_fallback (w : worker) (i : nat) (s : rrdp) :
  states w !! i = Some s ->
  rrdp_failed w i =
    if bool_decide (task s = DELTA) then
      {| states :=
           <[i:=set_state REQ
                  (set_task SNAPSHOT
                     (set_sxml XML_LIVE
                        (set_dxml match dxml s with
                                  | XML_NULL => XML_NULL
                                  | _ => XML_FREED
                                  end s)))]>
             (states w);
         msgq := msgq w |}
    else
      {| states := delete i (states w);
         msgq := msgq w ++ [Msg_END (id s) 0] |}.
Proof.
  intros Hs. unfold rrdp_failed. rewrite Hs.
  destruct (bool_decide _); [|done].
  by rewrite (update_lookup _ _ _ s).
Qed.

(** RRDP_HTTP_FIN with status 304 for a session on a NOTIFICATION, by
    the state the message finds the session in.  PARSED (the stream
    read to its end without a parse error): the session is freed and
    END with ok = 1 is the one message queued.  ERROR: the status is
    not looked at, the failure path frees the session and queues END
    with ok = 0.  Any other state: [errx]. *)
Lemma notification_not_modified (w : worker) (id' : Z) (i : nat) (s : rrdp)
    (last_mod' : option string) (c : completion) :
  rrdp_get w id' = Some i ->
  states w !! i = Some s ->
  task s = NOTIFICATION ->
  rrdp_input_handler w (In_HTTP_FIN (-1) id' 304 last_mod') c =
    match state s with
    | PARSED =>
        Done {| states := delete i (states w);
                msgq := msgq w ++ [Msg_END id' 1] |}
    | ERROR =>
        Done {| states := delete i (states w);
                msgq := msgq w ++ [Msg_END (id s) 0] |}
    | _ => Errx "bad internal state"
    end.
Proof.
  intros Hget Hs Ht. unfold rrdp_input_handler. simpl negb. cbv iota.
  rewrite Hget, Hs.
  destruct (state s) eqn:Hst; try reflexivity.
  - simpl. f_equal.
    rewrite (update_lookup _ _ _ s) by done.
    unfold rrdp_input_done. simpl.
    rewrite list_lookup_insert_eq by (by eapply lookup_lt_Some).
    simpl. rewrite Ht. simpl.
    unfold rrdp_done, rrdp_free, ibuf_close, set_states. simpl. f_equal.
    apply list_eq. intros j. destruct (decide (j < i)%nat).
    + rewrite !list_lookup_delete_lt, list_lookup_insert_ne by lia. done.
    + rewrite !list_lookup_delete_ge, list_lookup_insert_ne by lia. done.
  - simpl. f_equal. rewrite (rrdp_failed_fallback w i s Hs).
    by rewrite bool_decide_eq_false_2 by (rewrite Ht; discriminate).
Qed.

(** RRDP_HTTP_FIN, whatever its status, for a session that is neither
    PARSED nor ERROR. *)
Lemma http_fin_bad_state (w : worker) (id' status' : Z) (i : nat) (s : rrdp)
    (last_mod' : option string) (c : completion) :
  rrdp_get w id' = Some i ->
  states w !! i = Some s ->
  state s <> ERROR -> state s <> PARSED ->
  rrdp_input_handler w (In_HTTP_FIN (-1) id' status' last_mod') c
  = Errx "bad internal state".
Proof.
  intros Hget Hs H1 H2. unfold rrdp_input_handler. simpl negb. cbv iota.
  rewrite Hget, Hs.
  by rewrite !bool_decide_eq_false_2 by done.
Qed.

(** The completion of a SNAPSHOT fetch does not look at [file_pending]:
    whatever the number of FILE messages not yet acknowledged, HTTP_FIN
    with 200 sends SESSION and END with ok = 1 and frees the session. *)
Lemma snapshot_done_ignores_file_pending (w : worker) (id' : Z) (i : nat)
    (s : rrdp) (last_mod' : option string) (c : completion) :
  rrdp_get w id' = Some i ->
  states w !! i = Some s ->
  state s = PARSED ->
  task s = SNAPSHOT ->
  XML_Parse_final c = true ->
  file_failed s = 0 ->
  rrdp_input_handler w (In_HTTP_FIN (-1) id' 200 last_mod') c =
    Done {| states := delete i (states w);
            msgq := msgq w ++
              [Msg_SESSION (id s) (session_id (current s))
                 (serial (current s)) (last_mod (current s));
               Msg_END id' 1] |}.
Proof.
  intros Hget Hs Hst Ht Hx Hf. unfold rrdp_input_handler. simpl negb. cbv iota.
  rewrite Hget, Hs, Hst. simpl. f_equal.
  rewrite (update_lookup _ _ _ s) by done.
  unfold rrdp_input_done. simpl.
  rewrite list_lookup_insert_eq by (by eapply lookup_lt_Some).
  simpl. rewrite Hx, Hf, Ht. simpl.
  unfold rrdp_done, rrdp_free, rrdp_state_send, ibuf_close, set_states. simpl.
  rewrite <- app_assoc. simpl. f_equal.
  apply list_eq. intros j. destruct (decide (j < i)%nat).
  - rewrite !list_lookup_delete_lt, list_lookup_insert_ne by lia. done.
  - rewrite !list_lookup_delete_ge, list_lookup_insert_ne by lia. done.
Qed.

(** The first loop of a turn keeps the sessions and their ids. *)
Lemma proc_rrdp_requests_ids next l : forall k i q,
  map id (proc_rrdp_requests next l k i q).1.1 = map id l.
Proof.
  induction l as [|s l IH]; intros k i q; [done|]. simpl.
  case_decide.
  - specialize (IH (S k) i q).
    destruct (proc_rrdp_requests next l (S k) i q) as [[l' q'] i'].
    simpl in *. by rewrite IH.
  - destruct (bool_decide (state s = REQ)).
    + destruct (task s).
      * specialize (IH (S k) (S i)
          (q ++ [Msg_HTTP_REQ (id s) (notifyuri s) (last_mod (repository s))])).
        destruct (proc_rrdp_requests next l (S k) (S i) _) as [[l' q'] i'].
        simpl in *. by rewrite IH.
      * destruct (next k) as [uri h].
        specialize (IH (S k) (S i) (q ++ [Msg_HTTP_REQ (id s) uri None])).
        destruct (proc_rrdp_requests next l (S k) (S i) _) as [[l' q'] i'].
        simpl in *. by rewrite IH.
      * destruct (next k) as [uri h].
        specialize (IH (S k) (S i) (q ++ [Msg_HTTP_REQ (id s) uri None])).
        destruct (proc_rrdp_requests next l (S k) (S i) _) as [[l' q'] i'].
        simpl in *. by rewrite IH.
    + specialize (IH (S k) (S i) q).
      destruct (proc_rrdp_requests next l (S k) (S i) q) as [[l' q'] i'].
      simpl in *. by rewrite IH.
Qed.

(** C8, as the code has it.  An acknowledgement (RRDP_FILE) whose id is
    the id of no session in the queue ends the worker: the handler
    leaves through [errx], and so does the turn of [proc_rrdp] that
    reads the message, before any stream of another session is
    served. *)
Theorem file_ack_unknown_id_fatal (w : worker) (infd id' status' : Z)
    (c : completion) (next : nat -> option string * list Z) (p : poll_result) :
  Forall (fun s => id s <> id') (states w) ->
  pollhup p = false ->
  pollout p = None ->
  pollin p = Some (In_FILE infd id' status', c) ->
  rrdp_input_handler w (In_FILE infd id' status') c
    = Errx "rrdp session does not exist" /\
  proc_rrdp_turn next p w = Errx "rrdp session does not exist".
Proof.
  intros Hall Hhup Hout Hin. split.
  - unfold rrdp_input_handler.
    apply rrdp_get_None in Hall. by rewrite Hall.
  - unfold proc_rrdp_turn.
    pose proof (proc_rrdp_requests_ids next (states w) 0 1 (msgq w)) as Hids.
    destruct (proc_rrdp_requests next (states w) 0 1 (msgq w)) as [[l q] n].
    simpl in Hids. rewrite Hhup, Hout, Hin. simpl. rewrite drop_0.
    assert (rrdp_get {| states := l; msgq := q |} id' = None) as ->; [|done].
    apply rrdp_get_None. simpl.
    apply List.Forall_forall. intros s' Hin'.
    assert (In (id s') (map id (states w))) as Hm.
    { rewrite <- Hids. by apply in_map. }
    apply in_map_iff in Hm as (s0 & E & Hs0).
    rewrite List.Forall_forall in Hall. rewrite <- E. by apply Hall.
Qed.

(** *** The stream loop *)


(** The second loop of a turn hands a session whose slot has [POLLIN]
    set to [rrdp_stream_input]; seen on a queue of one session. *)
Lemma proc_rrdp_streams_single (w : worker) (s : rrdp) (slot : nat)
    (ev : stream_event) (revents : nat -> option stream_event) :
  states w = [s] -> pfd s = Some slot -> revents slot = Some ev ->
  proc_rrdp_streams revents 1 0 w = rrdp_stream_input w 0 ev.
Proof.
  intros Hw Hp He. simpl. rewrite Hw. simpl. rewrite Hp, He.
  by destruct (rrdp_stream_input w 0 ev).
Qed.

End WorkerProperties.

(** *** The worker on concrete sessions *)

Section WorkerExamples.
Import Rrdp.
Existing Instance recording_hasher.


(** C2. END with ok = 1 is sent while files are outstanding: the wait
    on [file_pending] in the HTTP_FIN case stands under [#ifdef NOTYET]
    and is not compiled.  In [snapshot_run] the session is PARSED with
    [file_pending] = 2 when HTTP_FIN arrives; the handler sends SESSION
    and END with ok = 1 and frees the session, and the acknowledgement
    that follows finds no session and ends the worker. *)
Theorem end_ok_while_files_pending :
  file_pending <$> states snapshot_run.1 !! 0%nat = Some 2 /\
  state <$> states snapshot_run.1 !! 0%nat = Some PARSED /\
  snapshot_run.2 =
    Done {| states := [];
            msgq := [Msg_FILE 7 PUB_ADD None (Some "rsync://h/m/a.cer"%string)
                       [0; 0; 0];
                     Msg_FILE 7 PUB_ADD None (Some "rsync://h/m/b.roa"%string)
                       [0; 0; 0];
                     Msg_SESSION 7 (Some "A"%string) 12 None;
                     Msg_END 7 1] |} /\
  match snapshot_run.2 with
  | Done w => rrdp_input_handler w (In_FILE (-1) 7 1) all_fine
              = Errx "rrdp session does not exist"
  | Errx _ => False
  end.
Proof. vm_compute. repeat split; reflexivity. Qed.

(** C8 as the specification states it fails: with session 7 alive, an
    acknowledgement for the unknown id 8 is not put up with; the
    handler and the turn of the loop end in [errx]. *)
Lemma file_ack_unknown_id_not_tolerated :
  let w := sample_worker PARSING SNAPSHOT 1 in
  let p := {| pollhup := false; pollout := None;
              pollin := Some (In_FILE (-1) 8 1, all_fine);
              revents := fun _ => None |} in
  rrdp_get w 8 = None /\
  rrdp_input_handler w (In_FILE (-1) 8 1) all_fine
    = Errx "rrdp session does not exist" /\
  proc_rrdp_turn (fun _ => (None, [])) p w
    = Errx "rrdp session does not exist".
Proof. vm_compute. repeat split; reflexivity. Qed.

Lemma file_ack_unknown_id_fatal_witness :
  let w := sample_worker PARSING SNAPSHOT 1 in
  let p := {| pollhup := false; pollout := None;
              pollin := Some (In_FILE (-1) 8 1, all_fine);
              revents := fun _ => None |} in
  let next := fun _ : nat => (None, []) in
  Forall (fun s => id s <> 8) (states w) /\
  rrdp_input_handler w (In_FILE (-1) 8 1) all_fine
    = Errx "rrdp session does not exist" /\
  proc_rrdp_turn next p w = Errx "rrdp session does not exist".
Proof.
  intros w p next.
  assert (Forall (fun s => id s <> 8) (states w)) as H.
  { repeat constructor. vm_compute. discriminate. }
  split; [exact H|].
  apply (file_ack_unknown_id_fatal w (-1) 8 1 all_fine next p H);
    reflexivity.
Defined.

(** One flipped byte in the body of a delta that comes in two chunks:
    the digest differs from the expected hash at the end of the stream
    and the session falls back to the snapshot. *)
Example flipped_byte_falls_back :
  let s := set_ctx [] (set_hash [60; 100; 47; 62] (sample_session PARSING DELTA 0)) in
  let w := {| states := [s]; msgq := [] |} in
  let chunk := fun (buf : list Z) (_ : nat) =>
    Some {| ev_read := Some buf; ev_xml_ok := true; ev_publish := [] |} in
  match proc_rrdp_streams (chunk [60; 100]) 1 0 w with
  | Done w1 =>
    match proc_rrdp_streams (chunk [46; 62]) 1 0 w1 with
    | Done w2 =>
      match proc_rrdp_streams (chunk []) 1 0 w2 with
      | Done w3 =>
          (fun s => (state s, task s, sxml s, dxml s)) <$> states w3 !! 0%nat
            = Some (REQ, SNAPSHOT, XML_LIVE, XML_FREED) /\
          msgq w3 = []
      | Errx _ => False
      end
    | Errx _ => False
    end
  | Errx _ => False
  end.
Proof. vm_compute. split; reflexivity. Qed.

(** The 304 run from the START message on, turn by turn: the request
    is queued and written out with the descriptor arriving, the empty
    stream ends, HTTP_FIN reports 304.  END with ok = 1 is what is
    left queued for the parent. *)
Example scenario_up_to_date :
  let lm := Some "Mon, 01 Jan 2024 00:00:00 GMT"%string in
  let uri := Some "https://rrdp.example/notification.xml"%string in
  turns
    [ {| pollhup := false; pollout := None;
         pollin := Some (In_START (-1) 7 (Some "rrdp.example"%string) uri
                           (Some "A"%string) 10 lm, all_fine);
         revents := fun _ => None |};
      {| pollhup := false; pollout := Some (1, 1%nat);
         pollin := Some (In_HTTP_INI 5 7, all_fine);
         revents := fun _ => None |};
      {| pollhup := false; pollout := None; pollin := None;
         revents := fun slot =>
           if decide (slot = 1%nat)
           then Some {| ev_read := Some []; ev_xml_ok := true;
                        ev_publish := [] |}
           else None |};
      {| pollhup := false; pollout := None;
         pollin := Some (In_HTTP_FIN (-1) 7 304 lm, all_fine);
         revents := fun _ => None |} ]
    {| states := []; msgq := [] |}
  = Done (Some {| states := []; msgq := [Msg_END 7 1] |}).
Proof. vm_compute. reflexivity. Qed.

(** HTTP_FIN with 304 that reaches a session still PARSING ends the
    worker; after a parse error (ERROR) the 304 is not looked at and
    END carries ok = 0. *)
Example http_fin_while_parsing :
  rrdp_input_handler (sample_worker PARSING NOTIFICATION 0)
    (In_HTTP_FIN (-1) 7 304 None) all_fine
  = Errx "bad internal state".
Proof. vm_compute. reflexivity. Qed.

Example http_fin_after_parse_error :
  rrdp_input_handler (sample_worker ERROR NOTIFICATION 0)
    (In_HTTP_FIN (-1) 7 304 None) all_fine
  = Done {| states := []; msgq := [Msg_END 7 0] |}.
Proof. vm_compute. reflexivity. Qed.

End WorkerExamples.

(** * Further properties of the code *)

(** ** The notification handler *)

Section NotificationFurther.
Import Notification.

Lemma strtonum_range numstr minval maxval v errstr :
  strtonum numstr minval maxval = (v, errstr) ->
  (errstr = true /\ v = 0) \/ (errstr = false /\ minval <= v <= maxval).
Proof.
  unfold strtonum.
  destruct (maxval <? minval); [intros [= <- <-]; auto|].
  destruct (match skip_space (chars numstr) with
            | 45 :: ds => (true, ds)
            | 43 :: ds => (false, ds)
            | _ => (false, skip_space (chars numstr))
            end) as [neg ds].
  destruct ds as [|c ds]; [intros [= <- <-]; auto|].
  destruct (digits_value (c :: ds) 0) as [n|]; [|intros [= <- <-]; auto].
  destruct ((_ <? minval) || (maxval <? _)) eqn:E; intros [= <- <-]; auto.
  right. split; auto.
  apply orb_false_elim in E as [?%Z.ltb_ge ?%Z.ltb_ge]. lia.
Qed.

Ltac rewrite_conditions :=
  repeat match goal with
         | H : ?c = _ |- context [?c] => rewrite H
         end.

Lemma check_state_cases (nxml : notification_xml) :
  check_state nxml = nxml \/
  exists st, check_state nxml = set_state st nxml /\
             check_state (set_state st nxml) = set_state st nxml.
Proof.
  unfold check_state at 1 2.
  repeat case_match; try (left; reflexivity); right;
    eexists; (split; [reflexivity|]);
    unfold check_state;
    cbn [state set_state current_session_id current_serial session_id serial
         scope delta_q];
    rewrite_conditions; cbn [bool_decide decide_rel orb andb negb];
    try reflexivity.
Qed.

Lemma check_state_writes_state (nxml : notification_xml) :
  check_state nxml = set_state (state (check_state nxml)) nxml.
Proof. unfold check_state. repeat case_match; try reflexivity; by destruct nxml. Qed.

(** X1. [check_state] writes the plan and nothing else, and a second
    call changes nothing. *)
Theorem check_state_idempotent (nxml : notification_xml) :
  check_state nxml = set_state (state (check_state nxml)) nxml /\
  check_state (check_state nxml) = check_state nxml.
Proof.
  split; [apply check_state_writes_state|].
  destruct (check_state_cases nxml) as [E | (st & E & E')].
  - by rewrite !E.
  - by rewrite E, E'.
Qed.

Lemma check_state_scope nxml : scope (check_state nxml) = scope nxml.
Proof. rewrite (check_state_writes_state nxml). reflexivity. Qed.

(** *** The scope automaton *)

Lemma elem_start_scope nxml el attr nxml' :
  notification_xml_elem_start nxml el attr = PARSE_OK nxml' ->
  scope_step (scope nxml) (StartElement el attr) = Some (scope nxml').
Proof.
  unfold notification_xml_elem_start, scope_step.
  destruct (String.eqb "notification" el).
  { unfold start_notification_elem.
    destruct (bool_decide (scope nxml = NOTIFICATION_SCOPE_START));
      simpl; [|done].
    destruct (start_notification_attrs attr false nxml) as [[hx n]|n]; [|done].
    destruct (negb _); [done|]. by intros [= <-]. }
  destruct (String.eqb "snapshot" el).
  { unfold start_snapshot_elem.
    destruct (bool_decide (scope nxml = NOTIFICATION_SCOPE_NOTIFICATION));
      simpl; [|done].
    destruct (start_snapshot_attrs attr nxml) as [n|n]; [|done].
    destruct (_ || _); [done|]. by intros [= <-]. }
  destruct (String.eqb "delta" el); [|done].
  unfold start_delta_elem.
  destruct (bool_decide
              (scope nxml = NOTIFICATION_SCOPE_NOTIFICATION_POST_SNAPSHOT));
    simpl; [|done].
  destruct (start_delta_attrs attr None None 0) as [[[[u|] [h|]] ser]|msg];
    try done.
  destruct (ser =? 0); [done|].
  destruct (_ && _).
  - destruct (add_delta nxml u h ser) as [[| |] n]; try done;
      by intros [= <-].
  - by intros [= <-].
Qed.

Lemma elem_end_scope nxml el nxml' :
  notification_xml_elem_end nxml el = PARSE_OK nxml' ->
  scope_step (scope nxml) (EndElement el) = Some (scope nxml').
Proof.
  unfold notification_xml_elem_end, scope_step.
  destruct (String.eqb "notification" el).
  { unfold end_notification_elem. destruct (bool_decide _); simpl; [|done].
    intros [= <-]. by rewrite check_state_scope. }
  destruct (String.eqb "snapshot" el).
  { unfold end_snapshot_elem. destruct (bool_decide _); simpl; [|done].
    by intros [= <-]. }
  destruct (String.eqb "delta" el); [|done].
  unfold end_delta_elem. destruct (bool_decide _); simpl; [|done].
  by intros [= <-].
Qed.

Lemma XML_Parse_scope doc : forall nxml nxml',
  XML_Parse doc nxml = PARSE_OK nxml' ->
  scope_run (scope nxml) doc = Some (scope nxml').
Proof.
  induction doc as [|ev doc IH]; intros n n' H; simpl in *.
  - by injection H as <-.
  - destruct ev as [el attr|el].
    + destruct (notification_xml_elem_start n el attr) as [n1|] eqn:E; [|done].
      rewrite (elem_start_scope _ _ _ _ E). by apply IH.
    + destruct (notification_xml_elem_end n el) as [n1|] eqn:E; [|done].
      rewrite (elem_end_scope _ _ _ E). by apply IH.
Qed.

Ltac scope_cases H el :=
  cbn [scope_run] in H; unfold scope_step in H;
  destruct (String.eqb_spec "notification" el) as [<-|];
  [| destruct (String.eqb_spec "snapshot" el) as [<-|];
     [| destruct (String.eqb_spec "delta" el) as [<-|]; [|done] ] ];
  case_bool_decide; try done.

Lemma scope_run_end doc :
  scope_run NOTIFICATION_SCOPE_END doc = Some NOTIFICATION_SCOPE_END ->
  doc = [].
Proof.
  destruct doc as [|[el attr|el] doc]; [done| |]; intros H; scope_cases H el.
Qed.

Lemma scope_run_post_snapshot n : forall doc,
  (length doc <= n)%nat ->
  scope_run NOTIFICATION_SCOPE_NOTIFICATION_POST_SNAPSHOT doc
    = Some NOTIFICATION_SCOPE_END ->
  exists deltas, doc = deltas ++ [EndElement "notification"] /\
                 delta_elems deltas.
Proof.
  induction n as [|n IH]; intros doc Hn H.
  { destruct doc; [done | simpl in Hn; lia]. }
  destruct doc as [|[el attr|el] doc]; [done| |]; scope_cases H el.
  - destruct doc as [|[el attr'|el] doc]; [done| |]; scope_cases H el.
    destruct (IH doc) as (ds & -> & Hd); [simpl in Hn; lia | done |].
    exists (StartElement "delta" attr :: EndElement "delta" :: ds).
    split; [done|]. simpl. auto.
  - apply scope_run_end in H as ->. by exists [].
Qed.

(** X2. The element order of an accepted document.  A document the
    callbacks take from the first scope to the last is one
    [<notification>] that holds one empty [<snapshot>] and then empty
    [<delta>] elements: an element out of place, one nested in another
    or one after the end stops the parser. *)
Theorem accepted_document_shape (doc : list xml_event)
    (nxml nxml' : notification_xml) :
  XML_Parse doc nxml = PARSE_OK nxml' ->
  scope nxml = NOTIFICATION_SCOPE_START ->
  scope nxml' = NOTIFICATION_SCOPE_END ->
  exists attr attr' deltas,
    doc = StartElement "notification" attr :: StartElement "snapshot" attr'
          :: EndElement "snapshot" :: deltas ++ [EndElement "notification"] /\
    delta_elems deltas.
Proof.
  intros H Hs He. apply XML_Parse_scope in H. rewrite Hs, He in H.
  destruct doc as [|[el attr|el] doc]; [done| |]; scope_cases H el.
  destruct doc as [|[el attr'|el] doc]; [done| |]; scope_cases H el.
  destruct doc as [|[el attr''|el] doc]; [done| |]; scope_cases H el.
  destruct (scope_run_post_snapshot (length doc) doc) as (ds & -> & Hd);
    [lia | done |].
  by exists attr, attr', ds.
Qed.

(** *** [add_delta] *)

Lemma add_delta_walk_result serial q : forall i,
  match add_delta_walk serial q i with
  | None => In serial (map d_serial q)
  | Some None => True
  | Some (Some j) => (i <= j < i + length q)%nat
  end.
Proof.
  induction q as [|n q IH]; intros i; simpl; [done|].
  destruct (Z.eqb_spec (d_serial n) serial); [auto|].
  destruct (d_serial n <? serial); [lia|].
  specialize (IH (S i)). destruct (add_delta_walk serial q (S i)) as [[j|]|];
    auto. lia.
Qed.

Lemma TAILQ_LAST_lt {A} (q : list A) l :
  TAILQ_LAST q = Some l -> S l = length q.
Proof. destruct q; [done|]. by intros [= <-]. Qed.

Lemma add_delta_cases (nxml : notification_xml) (uri hash : string)
    (serial : Z) :
  (add_delta nxml uri hash serial = (0, nxml) /\
   In serial (map d_serial (delta_q nxml))) \/
  (exists k, (k <= length (delta_q nxml))%nat /\
     add_delta nxml uri hash serial =
       (1, set_delta_q
             (take k (delta_q nxml)
              ++ {| d_uri := uri; d_hash := hash; d_serial := serial |}
                 :: drop k (delta_q nxml)) nxml)).
Proof.
  unfold add_delta.
  pose proof (add_delta_walk_result serial (delta_q nxml) 0) as W.
  assert (forall l, TAILQ_LAST (delta_q nxml) = Some l ->
            exists k, (k <= length (delta_q nxml))%nat /\
              (1, set_delta_q
                    (TAILQ_INSERT_AFTER (delta_q nxml) l
                       {| d_uri := uri; d_hash := hash; d_serial := serial |})
                    nxml) =
              (1, set_delta_q
                    (take k (delta_q nxml)
                     ++ {| d_uri := uri; d_hash := hash; d_serial := serial |}
                        :: drop k (delta_q nxml)) nxml)) as Last.
  { intros l Hl. apply TAILQ_LAST_lt in Hl. exists (S l). split; [lia|done]. }
  assert (match add_delta_walk serial (delta_q nxml) 0 with
          | None => (0, nxml)
          | Some (Some n) =>
              (1, set_delta_q
                    (TAILQ_INSERT_AFTER (delta_q nxml) n
                       {| d_uri := uri; d_hash := hash; d_serial := serial |})
                    nxml)
          | Some None =>
              (1, set_delta_q
                    (TAILQ_INSERT_HEAD (delta_q nxml)
                       {| d_uri := uri; d_hash := hash; d_serial := serial |})
                    nxml)
          end = (0, nxml) /\ In serial (map d_serial (delta_q nxml))
          \/ exists k, (k <= length (delta_q nxml))%nat /\
               match add_delta_walk serial (delta_q nxml) 0 with
               | None => (0, nxml)
               | Some (Some n) =>
                   (1, set_delta_q
                         (TAILQ_INSERT_AFTER (delta_q nxml) n
                            {| d_uri := uri; d_hash := hash;
                               d_serial := serial |}) nxml)
               | Some None =>
                   (1, set_delta_q
                         (TAILQ_INSERT_HEAD (delta_q nxml)
                            {| d_uri := uri; d_hash := hash;
                               d_serial := serial |}) nxml)
               end =
               (1, set_delta_q
                     (take k (delta_q nxml)
                      ++ {| d_uri := uri; d_hash := hash; d_serial := serial |}
                         :: drop k (delta_q nxml)) nxml)) as Walk.
  { destruct (add_delta_walk serial (delta_q nxml) 0) as [[j|]|].
    - right. exists (S j). split; [lia|done].
    - right. exists 0%nat. split; [lia|done].
    - left. auto. }
  destruct (TAILQ_LAST (delta_q nxml)) as [l|] eqn:E; [|exact Walk].
  destruct (serial <? _); [exact Walk|].
  right. by apply Last.
Qed.

(** X3. [add_delta] loses nothing and invents nothing.  When it
    returns 1 the queue is the old queue with the new item put in at
    one place, the old items in their order; when it returns 0 the
    handler is untouched and the serial is one the queue holds. *)
Theorem add_delta_inserts (nxml : notification_xml) (uri hash : string)
    (serial : Z) :
  (add_delta nxml uri hash serial = (0, nxml) /\
   In serial (map d_serial (delta_q nxml))) \/
  (exists k, (k <= length (delta_q nxml))%nat /\
     add_delta nxml uri hash serial =
       (1, set_delta_q
             (take k (delta_q nxml)
              ++ {| d_uri := uri; d_hash := hash; d_serial := serial |}
                 :: drop k (delta_q nxml)) nxml)).
Proof. apply add_delta_cases. Qed.

Lemma strictly_ascending_last a q x :
  strictly_ascending (map d_serial (a :: q)) ->
  (a :: q) !! length q = Some x ->
  (q = [] /\ x = a) \/ (q <> [] /\ d_serial a < d_serial x).
Proof.
  intros [Ha _] Hx. destruct q as [|b q]; [left; by simplify_eq/=|].
  right. split; [done|]. simpl in Hx.
  apply list_elem_of_lookup_2, list_elem_of_In in Hx.
  rewrite List.Forall_forall in Ha. apply Ha. by apply in_map.
Qed.

(** X4. Which duplicate [add_delta] reports.  On a queue of strictly
    ascending serials the call returns 0 in one case only: the serial
    is the one of the head item and the queue has a further item.  A
    duplicate of any other item, or of the only item, is queued. *)
Theorem add_delta_duplicate_detected (nxml : notification_xml)
    (uri hash : string) (serial : Z) :
  strictly_ascending (map d_serial (delta_q nxml)) ->
  (add_delta nxml uri hash serial).1 = 0 <->
  exists a q, delta_q nxml = a :: q /\ q <> [] /\ d_serial a = serial.
Proof.
  intros Hq. unfold add_delta.
  destruct (delta_q nxml) as [|a q] eqn:E.
  { simpl. split; [done | by intros (? & ? & ? & _)]. }
  cbn [TAILQ_LAST].
  destruct (lookup_lt_is_Some_2 (a :: q) (length q)) as [x Hx]; [simpl; lia|].
  rewrite Hx. cbn [fmap option_fmap option_map default from_option Datatypes.id].
  pose proof (strictly_ascending_last a q x Hq Hx) as L.
  destruct Hq as [Ha _].
  destruct (Z.ltb_spec serial (d_serial x)) as [Hlt|Hge].
  - cbn [add_delta_walk].
    destruct (Z.eqb_spec (d_serial a) serial) as [Eq|Ne].
    + split; [intros _|done]. exists a, q. split; [done|]. split; [|done].
      destruct L as [[-> ->]|[? _]]; [lia | done].
    + destruct (Z.ltb_spec (d_serial a) serial).
      * simpl. split; [done|]. intros (a' & q' & [= <- <-] & _ & ?). done.
      * rewrite add_delta_walk_all_larger.
        -- simpl. split; [done|]. intros (a' & q' & [= <- <-] & _ & ?). done.
        -- rewrite Forall_map in Ha. eapply Forall_impl; [exact Ha|].
           simpl. intros; lia.
  - simpl. split; [done|]. intros (a' & q' & [= <- <-] & Hne & <-).
    destruct L as [[-> _]|[_ ?]]; [done | lia].
Qed.

(** *** What the callbacks accept and keep *)

Ltac attrs_finish A B C D :=
  split_and!; try done;
  try (constructor; [simpl; tauto | done]);
  try (let X := fresh in intros X; destruct (A X); simpl; auto; fail);
  try (destruct B as [->|]; auto; fail);
  try (destruct C as [->|]; auto; fail);
  try (let v := fresh in
       destruct D as [D|(v & ? & ?)]; simpl; eauto 7; fail).

Lemma start_notification_attrs_inv attr : forall hx n hx' n',
  start_notification_attrs attr hx n = inl (hx', n') ->
  (hx' = true -> hx = true \/ In "xmlns"%string (map fst attr)) /\
  (version n' = version n \/ version n' = 1) /\
  (serial n' = serial n \/ serial_in_range (serial n')) /\
  (session_id n' = session_id n \/
   exists v, In ("session_id"%string, v) attr /\ session_id n' = Some v) /\
  Forall (fun a => In a.1 header_names) attr /\
  same_queue n n' /\ scope n' = scope n.
Proof.
  unfold same_queue, header_names.
  induction attr as [|[name value] attr IH]; intros hx n hx' n' H;
    cbn [start_notification_attrs] in H.
  { injection H as <- <-. split_and!; auto. }
  destruct (String.eqb_spec "xmlns" name) as [<-|].
  { apply IH in H as (A & B & C & D & E & (F1 & F2 & F3) & G). simpl in *.
    attrs_finish A B C D. }
  destruct (String.eqb_spec "session_id" name) as [<-|].
  { apply IH in H as (A & B & C & D & E & (F1 & F2 & F3) & G). simpl in *.
    attrs_finish A B C D. }
  destruct (String.eqb_spec "version" name) as [<-|].
  { destruct (strtonum value 1 MAX_VERSION) as [v e] eqn:S. simpl in H.
    apply strtonum_range in S as [[-> ->]|[-> R]]; [done|].
    apply IH in H as (A & B & C & D & E & (F1 & F2 & F3) & G). simpl in *.
    unfold MAX_VERSION in R. assert (v = 1) as -> by lia.
    change (int 1) with 1 in B.
    attrs_finish A B C D. }
  destruct (String.eqb_spec "serial" name) as [<-|]; [|done].
  destruct (strtonum value 1 LLONG_MAX) as [v e] eqn:S. simpl in H.
  apply strtonum_range in S as [[-> ->]|[-> R]]; [done|].
  apply IH in H as (A & B & C & D & E & (F1 & F2 & F3) & G). simpl in *.
  attrs_finish A B C D.
Qed.

(** X5. What an accepted [<notification>] start tag carries.  On a
    fresh handler the callback goes on only when the tag has an
    [xmlns], a [version] that reads as 1, a [session_id] and a [serial]
    that reads as a number from 1 to 2^63 - 1, and no attribute of
    another name; these are the values stored. *)
Theorem accepted_header (nxml nxml' : notification_xml)
    (attr : list (string * string)) :
  start_notification_elem nxml attr = PARSE_OK nxml' ->
  version nxml = 0 -> serial nxml = 0 -> session_id nxml = None ->
  version nxml' = 1 /\
  serial_in_range (serial nxml') /\
  (exists v, In ("session_id"%string, v) attr /\ session_id nxml' = Some v) /\
  In "xmlns"%string (map fst attr) /\
  Forall (fun a => In a.1 header_names) attr /\
  scope nxml' = NOTIFICATION_SCOPE_NOTIFICATION.
Proof.
  unfold start_notification_elem. intros H Hv Hs Hi.
  destruct (negb (bool_decide _)); [done|].
  destruct (start_notification_attrs attr false nxml) as [[hx n]|n] eqn:E;
    [|done].
  apply start_notification_attrs_inv in E as (A & B & C & D & F & G & _).
  destruct (negb _) eqn:N; [done|]. injection H as <-.
  apply negb_false_iff in N.
  repeat (apply andb_true_iff in N as [N ?]).
  rewrite (check_state_writes_state n). simpl.
  destruct (Z.eqb_spec (version n) 0); [done|].
  destruct (Z.eqb_spec (serial n) 0); [done|].
  destruct (session_id n) as [sid|] eqn:S; [|done].
  split. { destruct B; [lia | done]. }
  split. { destruct C; [lia | done]. }
  split. { destruct D as [D|(v & ? & D)]; [congruence|]. exists v.
           split; [done | congruence]. }
  split. { destruct (A N); done. }
  done.
Qed.

Lemma start_snapshot_attrs_inv attr : forall n r,
  start_snapshot_attrs attr n = r ->
  same_queue n (match r with inl n' => n' | inr n' => n' end).
Proof.
  unfold same_queue.
  induction attr as [|[name value] attr IH]; intros n r <-;
    cbn [start_snapshot_attrs]; [done|].
  destruct (String.eqb "uri" name).
  { by destruct (IH (set_snapshot_uri (Some value) n) _ eq_refl) as (? & ? & ?). }
  destruct (String.eqb "hash" name); [|done].
  by destruct (IH (set_snapshot_hash (Some value) n) _ eq_refl) as (? & ? & ?).
Qed.

Lemma start_notification_attrs_fail attr : forall hx n n',
  start_notification_attrs attr hx n = inr n' -> same_queue n n'.
Proof.
  unfold same_queue.
  induction attr as [|[name value] attr IH]; intros hx n n' H;
    cbn [start_notification_attrs] in H; [done|].
  destruct (String.eqb "xmlns" name); [by apply IH in H|].
  destruct (String.eqb "session_id" name).
  { by apply IH in H as (? & ? & ?). }
  destruct (String.eqb "version" name).
  { destruct (strtonum value 1 MAX_VERSION) as [v []]; simpl in H.
    - by injection H as <-.
    - by apply IH in H as (? & ? & ?). }
  destruct (String.eqb "serial" name).
  { destruct (strtonum value 1 LLONG_MAX) as [v []]; simpl in H.
    - by injection H as <-.
    - by apply IH in H as (? & ? & ?). }
  by injection H as <-.
Qed.

Lemma start_delta_attrs_serial attr : forall u h s u' h' s',
  start_delta_attrs attr u h s = inl (u', h', s') ->
  s' = s \/ 1 <= s' <= LLONG_MAX.
Proof.
  induction attr as [|[name value] attr IH]; intros u h s u' h' s' H;
    cbn [start_delta_attrs] in H.
  { injection H as <- <- <-. auto. }
  destruct (String.eqb "uri" name); [by apply IH in H|].
  destruct (String.eqb "hash" name); [by apply IH in H|].
  destruct (String.eqb "serial" name); [|done].
  destruct (strtonum value 1 LLONG_MAX) as [v e] eqn:S. simpl in H.
  apply strtonum_range in S as [[-> ->]|[-> R]]; [done|].
  apply IH in H as [->|]; auto.
Qed.

Lemma queue_relevant_same n n' :
  same_queue n n' -> queue_relevant n -> queue_relevant n'.
Proof. unfold same_queue, queue_relevant. intros (-> & -> & _). done. Qed.

Lemma same_queue_check_state n : same_queue n (check_state n).
Proof. rewrite (check_state_writes_state n). by unfold same_queue. Qed.

Lemma elem_start_queue nxml el attr :
  queue_relevant nxml ->
  let nxml' := parsed_nxml (notification_xml_elem_start nxml el attr) in
  queue_relevant nxml' /\ current_serial nxml' = current_serial nxml /\
  current_session_id nxml' = current_session_id nxml.
Proof.
  intros Q. unfold notification_xml_elem_start.
  destruct (String.eqb "notification" el).
  { unfold start_notification_elem.
    destruct (negb (bool_decide _)); [done|].
    destruct (start_notification_attrs attr false nxml) as [[hx n]|n] eqn:E.
    - apply start_notification_attrs_inv in E as (_ & _ & _ & _ & _ & S & _).
      destruct (negb _); simpl.
      + split; [by eapply queue_relevant_same|]. by destruct S as (_ & ? & ?).
      + pose proof (same_queue_check_state n) as S'.
        split.
        * eapply (queue_relevant_same (check_state n)); [done|].
          eapply queue_relevant_same; [exact S'|].
          by eapply queue_relevant_same.
        * destruct S as (_ & <- & <-), S' as (_ & <- & <-). done.
    - apply start_notification_attrs_fail in E. simpl.
      split; [by eapply queue_relevant_same|]. by destruct E as (_ & ? & ?). }
  destruct (String.eqb "snapshot" el).
  { unfold start_snapshot_elem.
    destruct (negb (bool_decide _)); [done|].
    pose proof (start_snapshot_attrs_inv attr nxml _ eq_refl) as S.
    destruct (start_snapshot_attrs attr nxml) as [n|n]; simpl.
    - destruct (_ || _); simpl;
        (split; [by eapply (queue_relevant_same nxml)
                |by destruct S as (_ & ? & ?)]).
    - split; [by eapply queue_relevant_same|]. by destruct S as (_ & ? & ?). }
  destruct (String.eqb "delta" el); [|done].
  unfold start_delta_elem.
  destruct (negb (bool_decide _)); [done|].
  destruct (start_delta_attrs attr None None 0) as [[[[u|] [h|]] ser]|msg] eqn:E;
    try done.
  apply start_delta_attrs_serial in E.
  destruct (Z.eqb_spec ser 0); [done|]. destruct E as [|R]; [done|].
  destruct (negb (current_serial nxml =? 0) && (current_serial nxml <? ser))
    eqn:C; [|done].
  apply andb_true_iff in C as [C1 C2]. apply negb_true_iff in C1.
  apply Z.eqb_neq in C1. apply Z.ltb_lt in C2.
  destruct (add_delta_cases nxml u h ser) as [[-> _]|(k & Hk & ->)]; [done|].
  simpl. split; [|done]. destruct Q as [Q1 Q2]. split; simpl; [|done].
  apply Forall_app. split; [by apply Forall_take|].
  constructor; [simpl; lia | by apply Forall_drop].
Qed.

Lemma elem_end_queue nxml el :
  queue_relevant nxml ->
  let nxml' := parsed_nxml (notification_xml_elem_end nxml el) in
  queue_relevant nxml' /\ current_serial nxml' = current_serial nxml /\
  current_session_id nxml' = current_session_id nxml.
Proof.
  intros Q. unfold notification_xml_elem_end.
  destruct (String.eqb "notification" el).
  { unfold end_notification_elem. destruct (negb (bool_decide _)); [done|].
    simpl.
    pose proof (same_queue_check_state
                  (set_scope NOTIFICATION_SCOPE_END nxml)) as S.
    split; [by eapply (queue_relevant_same
                         (set_scope NOTIFICATION_SCOPE_END nxml))|].
    by destruct S as (_ & ? & ?). }
  destruct (String.eqb "snapshot" el).
  { unfold end_snapshot_elem. by destruct (negb (bool_decide _)). }
  destruct (String.eqb "delta" el); [|done].
  unfold end_delta_elem. by destruct (negb (bool_decide _)).
Qed.

Lemma callbacks_cons ev evs nxml :
  callbacks (ev :: evs) nxml
  = callbacks evs
      (parsed_nxml
         match ev with
         | StartElement el attr => notification_xml_elem_start nxml el attr
         | EndElement el => notification_xml_elem_end nxml el
         end).
Proof. reflexivity. Qed.

(** For a document the parser gets through, the calls of [callbacks]
    are the calls [XML_Parse] has made. *)
Lemma XML_Parse_callbacks doc : forall nxml nxml',
  XML_Parse doc nxml = PARSE_OK nxml' -> callbacks doc nxml = nxml'.
Proof.
  induction doc as [|ev doc IH]; intros n n' H.
  { by injection H as <-. }
  rewrite callbacks_cons. cbn [XML_Parse] in H.
  destruct (match ev with
            | StartElement el attr => notification_xml_elem_start n el attr
            | EndElement el => notification_xml_elem_end n el
            end) as [n1|n1 msg]; [|done].
  by apply IH.
Qed.

(** X6. What the queue holds, whatever the calls.  Through any
    sequence of calls of the two element callbacks, those that follow
    a call which has stopped the parser included, the repository state
    of the handler is not written, every queued delta has a serial
    above the repository's and up to 2^63 - 1, and with no repository
    serial the queue stays empty. *)
Theorem callbacks_queue_relevant (evs : list xml_event)
    (nxml : notification_xml) :
  queue_relevant nxml ->
  let nxml' := callbacks evs nxml in
  queue_relevant nxml' /\ current_serial nxml' = current_serial nxml /\
  current_session_id nxml' = current_session_id nxml.
Proof.
  revert nxml. induction evs as [|ev evs IH]; intros n Q; [done|].
  rewrite callbacks_cons.
  assert (let n1 := parsed_nxml
              (match ev with
               | StartElement el attr => notification_xml_elem_start n el attr
               | EndElement el => notification_xml_elem_end n el
               end) in
          queue_relevant n1 /\ current_serial n1 = current_serial n /\
          current_session_id n1 = current_session_id n) as Step.
  { destruct ev; [by apply elem_start_queue | by apply elem_end_queue]. }
  cbv zeta in Step. destruct Step as (Q1 & <- & <-). by apply IH.
Qed.

(** *** The plan DELTAS *)

(** X7. What a plan DELTAS promises.  When [check_state] sets the plan
    to DELTAS, the two session ids are equal and the queue is without
    a gap: its serials are the repository serial plus 1, plus 2, ...
    in queue order, and their number is the [int] the difference of
    the serials is reduced to. *)
Theorem deltas_plan_contiguous (nxml : notification_xml) :
  state nxml <> NOTIFICATION_STATE_DELTAS ->
  state (check_state nxml) = NOTIFICATION_STATE_DELTAS ->
  queue_relevant nxml ->
  0 <= current_serial nxml ->
  Z.of_nat (length (delta_q nxml)) <= INT_MAX ->
  (exists sid, current_session_id nxml = Some sid /\
               session_id nxml = Some sid) /\
  map d_serial (delta_q nxml)
    = seqZ (current_serial nxml + 1) (Z.of_nat (length (delta_q nxml))) /\
  int (llong (serial nxml - current_serial nxml))
    = Z.of_nat (length (delta_q nxml)) /\
  delta_q nxml <> [].
Proof.
  intros Hst H [Q _] Hc Hl. unfold check_state in H.
  destruct (bool_decide _ || bool_decide _); [done|].
  destruct (current_session_id nxml) as [cs|]; [|done].
  destruct (current_serial nxml =? 0); [done|].
  destruct (session_id nxml) as [sid|]; [|done].
  destruct (serial nxml =? 0); [done|].
  destruct (String.eqb_spec cs sid) as [->|]; [|done]. cbn [negb] in H.
  destruct (Z.eqb_spec (int (llong (serial nxml - current_serial nxml))) 0)
    as [|Hd]; [done|].
  destruct (_ <? 0); [done|].
  destruct (_ <=? _); [done|].
  destruct (check_state_walk _ _ _) as [z|] eqn:W; [|done].
  destruct (Z.eqb_spec z (int (llong (serial nxml - current_serial nxml))))
    as [Hz|]; [|done].
  clear H. split; [eauto|]. rewrite <- Hz.
  destruct (delta_q nxml) as [|d q] eqn:E.
  { simpl in W. injection W as <-. congruence. }
  rewrite <- E in *.
  assert (Forall (fun d => serial_in_range (d_serial d)) (delta_q nxml)) as Q'.
  { eapply Forall_impl; [exact Q|]. unfold serial_in_range. simpl. lia. }
  assert (current_serial nxml <= LLONG_MAX) as Hc'.
  { rewrite E in Q. apply Forall_cons in Q as [Q _]. lia. }
  rewrite check_state_walk_spec in W by (auto; lia).
  destruct (contiguous_from _ _) eqn:C; [|done]. injection W as <-.
  apply contiguous_from_seqZ in C. rewrite length_map in C.
  replace (current_serial nxml + 0 + 1) with (current_serial nxml + 1) in C
    by lia.
  split; [done|]. split; [lia|]. by rewrite E.
Qed.

Lemma ascending_seqZ n : forall a, ascending (seqZ a (Z.of_nat n)).
Proof.
  induction n as [|n IH]; intros a; [done|].
  rewrite Nat2Z.inj_succ, seqZ_cons by lia.
  replace (Z.pred (Z.succ (Z.of_nat n))) with (Z.of_nat n) by lia.
  specialize (IH (Z.succ a)). destruct n as [|n]; [done|].
  rewrite Nat2Z.inj_succ, seqZ_cons in * by lia. simpl. split; [lia|done].
Qed.

Lemma descending_snoc l a :
  descending l -> Forall (fun b => a < b) l -> descending (l ++ [a]).
Proof.
  induction l as [|b l IH]; simpl; [done|].
  intros [Hb Hl] Ha. apply Forall_cons in Ha as [Hab Ha].
  split; [|by apply IH]. apply Forall_app. split; [done|]. by constructor.
Qed.

Lemma descending_rev_seqZ n : forall a,
  descending (rev (seqZ a (Z.of_nat n))).
Proof.
  induction n as [|n IH]; intros a; [done|].
  rewrite Nat2Z.inj_succ, seqZ_cons by lia.
  replace (Z.pred (Z.succ (Z.of_nat n))) with (Z.of_nat n) by lia.
  simpl. apply descending_snoc; [done|].
  apply Forall_forall. intros b Hb. apply list_elem_of_In in Hb.
  apply in_rev in Hb. apply list_elem_of_In, elem_of_seqZ in Hb. lia.
Qed.

(** X8. The two orders notifications come in.  The handler has read
    the snapshot element, its queue is empty, the session ids are equal
    and the notification serial is [k] above the repository serial
    ([k] an [int]).  It is handed exactly the deltas of the [k] serials
    in between, in ascending or in descending order, and then the end
    of the document: the queue is the ascending one and the plan is
    DELTAS. *)
Theorem presented_in_order_gives_deltas (nxml : notification_xml)
    (ds : list delta_item) (sid : string) (k : Z) :
  delta_q nxml = [] ->
  scope nxml = NOTIFICATION_SCOPE_NOTIFICATION_POST_SNAPSHOT ->
  state nxml <> NOTIFICATION_STATE_ERROR ->
  state nxml <> NOTIFICATION_STATE_NONE ->
  current_session_id nxml = Some sid ->
  session_id nxml = Some sid ->
  1 <= current_serial nxml ->
  serial nxml = current_serial nxml + k ->
  0 < k <= INT_MAX ->
  serial nxml <= LLONG_MAX ->
  map d_serial ds = seqZ (current_serial nxml + 1) k \/
  map d_serial ds = rev (seqZ (current_serial nxml + 1) k) ->
  exists nxml',
    end_notification_elem (add_deltas nxml ds) = PARSE_OK nxml' /\
    map d_serial (delta_q nxml') = seqZ (current_serial nxml + 1) k /\
    state nxml' = NOTIFICATION_STATE_DELTAS.
Proof.
  intros Hq Hsc HE HN Hcs Hs Hc Hser Hk Hmax Hds.
  assert (exists q, add_deltas nxml ds = set_delta_q q nxml /\
                    map d_serial q = seqZ (current_serial nxml + 1) k)
    as (q & -> & Hmap).
  { replace k with (Z.of_nat (Z.to_nat k)) in * by lia.
    destruct Hds as [Hds|Hds].
    - exists ds. split; [|done].
      pose proof (add_deltas_ascending ds nxml) as A. rewrite Hq in A.
      apply A. simpl. rewrite Hds. apply ascending_seqZ.
    - exists (rev ds). split.
      + pose proof (add_deltas_descending ds nxml) as A. rewrite Hq in A.
        rewrite app_nil_r in A. apply A.
        * rewrite Hds. apply descending_rev_seqZ.
        * apply Forall_forall. intros; constructor.
      + by rewrite map_rev, Hds, rev_involutive. }
  unfold end_notification_elem. simpl. rewrite Hsc. simpl.
  eexists. split; [reflexivity|].
  rewrite (check_state_writes_state
             (set_scope NOTIFICATION_SCOPE_END (set_delta_q q nxml))).
  simpl. split; [done|].
  assert (Z.of_nat (length q) = k) as Hlen.
  { apply (f_equal length) in Hmap. rewrite length_map, length_seqZ in Hmap.
    lia. }
  assert (Forall (fun d => serial_in_range (d_serial d)) q) as Hq'.
  { apply Forall_forall. intros d Hd.
    assert (d_serial d ∈ seqZ (current_serial nxml + 1) k) as Hin.
    { rewrite <- Hmap. apply list_elem_of_In, in_map.
      by apply list_elem_of_In. }
    apply elem_of_seqZ in Hin. unfold serial_in_range. lia. }
  unfold check_state. simpl.
  rewrite !bool_decide_eq_false_2 by done. simpl.
  rewrite Hcs, Hs.
  destruct (Z.eqb_spec (current_serial nxml) 0); [lia|].
  destruct (Z.eqb_spec (serial nxml) 0); [lia|].
  rewrite String.eqb_refl. simpl.
  replace (serial nxml - current_serial nxml) with k by lia.
  rewrite llong_small by (unfold LLONG_MIN, LLONG_MAX, INT_MAX in *; lia).
  rewrite int_small by (unfold INT_MIN, INT_MAX in *; lia).
  destruct (Z.eqb_spec k 0); [lia|].
  destruct (Z.ltb_spec k 0); [lia|].
  rewrite check_state_walk_spec by (auto; unfold LLONG_MAX in *; lia).
  replace (current_serial nxml + 0 + 1) with (current_serial nxml + 1) by lia.
  assert (contiguous_from (current_serial nxml + 1) (map d_serial q) = true)
    as ->.
  { apply contiguous_from_seqZ. by rewrite length_map, Hlen. }
  rewrite Hlen. simpl. by rewrite Z.eqb_refl.
Qed.

(** *** The snapshot element *)

Lemma start_snapshot_attrs_spec attr : forall n,
  (Forall snapshot_name attr ->
   start_snapshot_attrs attr n =
     inl (set_snapshot_hash (last_value "hash" attr (snapshot_hash n))
            (set_snapshot_uri (last_value "uri" attr (snapshot_uri n)) n))) /\
  (~ Forall snapshot_name attr ->
   exists n', start_snapshot_attrs attr n = inr n').
Proof.
  induction attr as [|[name value] attr IH]; intros n;
    cbn [start_snapshot_attrs last_value].
  { split; [intros _; by destruct n | intros []; constructor]. }
  destruct (String.eqb_spec "uri" name) as [<-|Nu].
  { destruct (IH (set_snapshot_uri (Some value) n)) as [A B].
    change (String.eqb "hash" "uri") with false. cbn iota. split.
    - intros H. apply Forall_cons in H as [_ H]. rewrite A by done.
      by destruct n.
    - intros H. apply B. intros H'. apply H. constructor; [by left|done]. }
  destruct (String.eqb_spec "hash" name) as [<-|Nh].
  { destruct (IH (set_snapshot_hash (Some value) n)) as [A B]. split.
    - intros H. apply Forall_cons in H as [_ H]. rewrite A by done.
      by destruct n.
    - intros H. apply B. intros H'. apply H. constructor; [by right|done]. }
  split.
  - intros H. apply Forall_cons in H as [[H|H] _]; simpl in H; congruence.
  - intros _. by exists n.
Qed.

(** X20. What an accepted [<snapshot>] start tag carries.  The tag is
    accepted exactly when the scope is NOTIFICATION, every attribute
    is named uri or hash, and both have a value, from the tag or kept
    from before; the handler then holds the values of their last
    occurrences and the scope is SNAPSHOT.  The values are stored as
    they come: no attribute value makes the tag fail. *)
Theorem accepted_snapshot (nxml nxml' : notification_xml)
    (attr : list (string * string)) :
  start_snapshot_elem nxml attr = PARSE_OK nxml' <->
  scope nxml = NOTIFICATION_SCOPE_NOTIFICATION /\
  Forall snapshot_name attr /\
  exists u h,
    last_value "uri" attr (snapshot_uri nxml) = Some u /\
    last_value "hash" attr (snapshot_hash nxml) = Some h /\
    nxml' = set_scope NOTIFICATION_SCOPE_SNAPSHOT
              (set_snapshot_hash (Some h) (set_snapshot_uri (Some u) nxml)).
Proof.
  unfold start_snapshot_elem.
  destruct (start_snapshot_attrs_spec attr nxml) as [A B].
  destruct (decide (scope nxml = NOTIFICATION_SCOPE_NOTIFICATION)) as [Hs|Hs].
  2:{ rewrite (bool_decide_eq_false_2 _ Hs). simpl.
      split; [done | by intros [? _]]. }
  rewrite (bool_decide_eq_true_2 _ Hs). cbn [negb].
  destruct (decide (Forall snapshot_name attr)) as [Hf|Hf].
  2:{ destruct (B Hf) as [n' ->]. split; [done | by intros (_ & ? & _)]. }
  rewrite (A Hf).
  destruct (last_value "uri" attr (snapshot_uri nxml)) as [u|];
    destruct (last_value "hash" attr (snapshot_hash nxml)) as [h|];
    cbn [is_null snapshot_uri snapshot_hash set_snapshot_hash
         set_snapshot_uri orb].
  - split.
    + intros [= <-]. split_and!; [done|done|]. by exists u, h.
    + intros (_ & _ & u' & h' & [= <-] & [= <-] & ->). done.
  - split; [done|]. by intros (_ & _ & ? & ? & _ & ? & _).
  - split; [done|]. by intros (_ & _ & ? & ? & ? & _).
  - split; [done|]. by intros (_ & _ & ? & ? & ? & _).
Qed.

End NotificationFurther.

(** ** The session worker *)

Section WorkerFurther.
Context {hasher : Hasher}.
Import Rrdp.

Lemma rrdp_get_from_snoc l s id' : forall k,
  rrdp_get_from (l ++ [s]) id' k =
    match rrdp_get_from l id' k with
    | Some i => Some i
    | None => if id s =? id' then Some (k + length l)%nat else None
    end.
Proof.
  induction l as [|x l IH]; intros k; simpl.
  - rewrite Nat.add_0_r. by destruct (id s =? id').
  - destruct (id x =? id'); [done|]. rewrite IH.
    destruct (rrdp_get_from l id' (S k)); [done|].
    destruct (id s =? id'); [|done]. f_equal. lia.
Qed.

(** X9. START and the lookup by id.  After [rrdp_new] a lookup of the
    new id finds the session that had this id before, when there was
    one (the new session then is never found), and else the new
    session at the tail, which is in REQ on the task NOTIFICATION with
    the repository state of the message, no descriptor and no file
    counted; lookups of other ids are as before. *)
Theorem rrdp_new_get (w : worker) (id' : Z)
    (local' notify sid : option string) (ser : Z) (lm : option string) :
  let w' := rrdp_new w id' local' notify sid ser lm in
  rrdp_get w' id' =
    Some (match rrdp_get w id' with
          | Some i => i
          | None => length (states w)
          end) /\
  (forall id'', id'' <> id' -> rrdp_get w' id'' = rrdp_get w id'') /\
  (exists s, states w' !! length (states w) = Some s /\
     id s = id' /\ state s = REQ /\ task s = NOTIFICATION /\
     repository s = {| session_id := sid; serial := ser; last_mod := lm |} /\
     notifyuri s = notify /\ infd s = -1 /\
     file_pending s = 0 /\ file_failed s = 0) /\
  msgq w' = msgq w.
Proof.
  intros w'. unfold w', rrdp_new, rrdp_get. simpl.
  split_and!.
  - rewrite rrdp_get_from_snoc. simpl. rewrite Z.eqb_refl.
    by destruct (rrdp_get_from (states w) id' 0).
  - intros id'' Hne. rewrite rrdp_get_from_snoc. simpl.
    destruct (Z.eqb_spec id' id''); [done|].
    by destruct (rrdp_get_from (states w) id'' 0).
  - eexists. split; [apply list_lookup_middle; done|]. by simpl.
  - done.
Qed.

Lemma rrdp_get_from_lookup l id' : forall k,
  match rrdp_get_from l id' k with
  | Some i => (k <= i)%nat /\ l !! (i - k)%nat = hd_error (List.filter (fun s => id s =? id') l)
  | None => hd_error (List.filter (fun s => id s =? id') l) = None
  end.
Proof.
  induction l as [|x l IH]; intros k; simpl; [done|].
  destruct (id x =? id') eqn:E.
  - by rewrite Nat.sub_diag.
  - specialize (IH (S k)).
    destruct (rrdp_get_from l id' (S k)) as [i|]; [|done].
    destruct IH as [? IH]. split; [lia|].
    replace (i - k)%nat with (S (i - S k)) by lia. done.
Qed.

Lemma session_of_first (w : worker) (id' : Z) :
  session_of w id' = hd_error (List.filter (fun s => id s =? id') (states w)).
Proof.
  unfold session_of, rrdp_get.
  pose proof (rrdp_get_from_lookup (states w) id' 0) as H.
  destruct (rrdp_get_from (states w) id' 0) as [i|]; [|done].
  destruct H as [_ H]. by rewrite Nat.sub_0_r in H.
Qed.

Lemma filter_delete_other (l : list rrdp) (i : nat) (s : rrdp) (id' : Z) :
  l !! i = Some s -> id s <> id' ->
  List.filter (fun s => id s =? id') (delete i l)
    = List.filter (fun s => id s =? id') l.
Proof.
  revert i. induction l as [|x l IH]; intros [|i] H Hne; simplify_eq/=.
  - by destruct (Z.eqb_spec (id s) id').
  - destruct (id x =? id'); [f_equal|]; eauto.
Qed.

(** X10. Freeing a session leaves the others where a message finds
    them: for every other id the lookup gives the same session as
    before, and nothing is sent. *)
Theorem rrdp_free_others (w : worker) (i : nat) (s : rrdp) (id' : Z) :
  states w !! i = Some s ->
  id s <> id' ->
  session_of (rrdp_free w i) id' = session_of w id' /\
  msgq (rrdp_free w i) = msgq w.
Proof.
  intros Hs Hne. split; [|done].
  rewrite !session_of_first. simpl.
  by rewrite (filter_delete_other _ _ s).
Qed.

(** *** What the handler sends and frees *)

Lemma update_quiet (w : worker) (i : nat) (f : rrdp -> rrdp) :
  quiet_step w (update w i f).
Proof. unfold quiet_step, update. simpl. by rewrite length_alter. Qed.

Lemma rrdp_failed_unfold (w : worker) (i : nat) (s : rrdp) :
  states w !! i = Some s ->
  rrdp_failed w i =
    if bool_decide (task s = DELTA) then
      update w i (fun s =>
        set_state REQ
          (set_task SNAPSHOT
             (set_sxml XML_LIVE (set_dxml (free_xml (dxml s)) s))))
    else rrdp_done (rrdp_free w i) (id s) 0.
Proof. intros H. unfold rrdp_failed. by rewrite H. Qed.

(** *** The body of the stream loop at one session *)

Lemma iter_succ_r {A} (f : A -> A) (n : nat) (x : A) :
  Nat.iter n f (f x) = f (Nat.iter n f x).
Proof. induction n as [|n IH]; simpl; [done|]. by rewrite IH. Qed.

Lemma iter_pending (n : nat) (x : Z) :
  Nat.iter (S n) (fun p => uint (p + 1)) x
  = Nat.iter n (fun p => uint (p + 1)) (uint (x + 1)).
Proof. symmetry. apply (iter_succ_r (fun p => uint (p + 1))). Qed.

(** [publish_sent] is [publish_done] past the decoding. *)
Lemma publish_done_sent (decode : string -> option (list Z)) (w : worker)
    (i : nat) (pxml : publish_xml) :
  publish_done decode w i pxml =
    match states w !! i with
    | None => (-1, w)
    | Some _ =>
      match (if 0 <? pub_data_length pxml
             then decode (default EmptyString (pub_data pxml))
             else Some []) with
      | None => (-1, w)
      | Some data => (0, publish_sent w i pxml data)
      end
    end.
Proof.
  unfold publish_done, publish_sent.
  destruct (states w !! i); [|done].
  by destruct (if 0 <? pub_data_length pxml then _ else _).
Qed.

Lemma publish_sent_lookup (w : worker) (i : nat) (s : rrdp)
    (r : publish_xml * list Z) :
  states w !! i = Some s ->
  publish_sent w i r.1 r.2 =
    {| states := <[i:=set_file_pending (uint (file_pending s + 1)) s]>
                   (states w);
       msgq := msgq w ++ [file_message s r] |}.
Proof.
  intros Hs. unfold publish_sent. rewrite Hs.
  by rewrite (update_lookup _ _ _ s).
Qed.

Lemma publish_fold (rs : list (publish_xml * list Z)) :
  forall (w : worker) (i : nat) (s : rrdp),
  states w !! i = Some s ->
  fold_left (fun w r => publish_sent w i r.1 r.2) rs w =
    {| states := <[i:=published s rs]> (states w);
       msgq := msgq w ++ map (file_message s) rs |}.
Proof.
  induction rs as [|r rs IH]; intros w i s Hs; cbn [fold_left map length].
  - unfold published. cbn [length Nat.iter]. rewrite app_nil_r.
    rewrite list_insert_id; [by destruct w|]. rewrite Hs. f_equal.
    by destruct s.
  - rewrite (publish_sent_lookup _ _ s) by done.
    pose proof (lookup_lt_Some _ _ _ Hs) as Hi.
    rewrite (IH _ i (set_file_pending (uint (file_pending s + 1)) s))
      by (cbn [states]; by apply list_lookup_insert_eq).
    cbn [states msgq]. rewrite list_insert_insert_eq, <- app_assoc.
    f_equal. f_equal. unfold published. cbn [file_pending set_file_pending].
    change (length (r :: rs)) with (S (length rs)).
    rewrite iter_pending. by destruct s.
Qed.

Lemma worker_at (w : worker) (i : nat) (s x : rrdp) (m : list ibuf) :
  states w !! i = Some s ->
  {| states := <[i:=x]> (states w); msgq := m |}
  = {| states := take i (states w) ++ [x] ++ drop (S i) (states w);
       msgq := m |}.
Proof.
  intros Hs. f_equal. apply insert_take_drop. by eapply lookup_lt_Some.
Qed.

Lemma rrdp_failed_at (w : worker) (i : nat) (s : rrdp) :
  states w !! i = Some s ->
  rrdp_failed w i =
    {| states := take i (states w) ++ (failure_outcome s).1
                 ++ drop (S i) (states w);
       msgq := msgq w ++ (failure_outcome s).2 |}.
Proof.
  intros Hs. rewrite (rrdp_failed_unfold _ _ s) by done.
  unfold failure_outcome. destruct (bool_decide _); cbn [fst snd].
  - rewrite (update_lookup _ _ _ s), app_nil_r by done.
    by apply (worker_at w i s).
  - unfold rrdp_done, rrdp_free, ibuf_close, set_states. cbn [states msgq].
    by rewrite delete_take_drop.
Qed.

Lemma rrdp_stream_input_outcome (w : worker) (i : nat) (s : rrdp)
    (ev : stream_event) :
  states w !! i = Some s ->
  rrdp_stream_input w i ev =
    match stream_outcome s ev with
    | Done o =>
        Done {| states := take i (states w) ++ o.1 ++ drop (S i) (states w);
                msgq := msgq w ++ o.2 |}
    | Errx msg => Errx msg
    end.
Proof.
  intros Hs. pose proof (lookup_lt_Some _ _ _ Hs) as Hi.
  unfold rrdp_stream_input, stream_outcome. rewrite Hs.
  destruct (ev_read ev) as [buf|]; [|by rewrite (rrdp_failed_at _ _ s)].
  destruct (_ && _); [done|].
  assert (forall f, states (update w i f) !! i = Some (f s)) as Hu.
  { intros f. rewrite (update_lookup _ _ _ s) by done. cbn [states].
    by apply list_lookup_insert_eq. }
  destruct buf as [|b buf].
  - destruct (_ && _).
    + rewrite (rrdp_failed_at _ _ (set_infd (-1) s)) by apply Hu.
      rewrite (update_lookup _ _ _ s) by done. cbn [states msgq].
      by rewrite take_insert_ge, drop_insert_lt by lia.
    + cbn [fst snd]. rewrite app_nil_r. destruct (bool_decide _).
      * rewrite (update_lookup _ _ _ (set_infd (-1) s)) by apply Hu.
        rewrite (update_lookup _ _ _ s) by done. cbn [states msgq].
        rewrite list_insert_insert_eq. f_equal; by apply (worker_at w i s).
      * rewrite (update_lookup _ _ _ s) by done.
        rewrite (worker_at w i s) by done.
        assert (set_state (state s) (set_infd (-1) s) = set_infd (-1) s)
          as -> by (by destruct s).
        done.
  - cbn [fst snd]. unfold after_chunk, chunk_files.
    destruct (bool_decide (task s = NOTIFICATION)); cbn [negb andb].
    + rewrite andb_false_r, app_nil_r.
      destruct (bool_decide (state s = PARSING)).
      * destruct (ev_xml_ok ev); cbn [negb].
        -- rewrite <- (worker_at w i s) by done.
           rewrite list_insert_id by done. by destruct w.
        -- rewrite (update_lookup _ _ _ s) by done.
           f_equal; by apply (worker_at w i s).
      * rewrite <- (worker_at w i s) by done.
        rewrite list_insert_id by done. by destruct w.
    + rewrite andb_true_r.
      destruct (bool_decide (state s = PARSING)).
      * rewrite (publish_fold _ _ i (set_ctx (SHA256_Update (ctx s) (b :: buf)) s))
          by apply (Hu (fun s0 => set_ctx (SHA256_Update (ctx s0) (b :: buf)) s0)).
        rewrite (update_lookup w _ _ s) by done. cbn [states msgq].
        rewrite list_insert_insert_eq.
        change (file_message (set_ctx (SHA256_Update (ctx s) (b :: buf)) s))
          with (file_message s).
        destruct (ev_xml_ok ev); cbn [negb].
        -- f_equal; by apply (worker_at w i s).
        -- rewrite (update_lookup _ _ _
                      (published (set_ctx (SHA256_Update (ctx s) (b :: buf)) s)
                         (ev_publish ev)))
             by (cbn [states]; by apply list_lookup_insert_eq).
           cbn [states msgq]. rewrite list_insert_insert_eq.
           f_equal; by apply (worker_at w i s).
      * rewrite app_nil_r. rewrite (update_lookup _ _ _ s) by done.
        f_equal; by apply (worker_at w i s).
Qed.

Lemma free_done_ending (w : worker) (i : nat) (s : rrdp) (ok : Z) :
  states w !! i = Some s ->
  msgq (rrdp_done (rrdp_free w i) (id s) ok) = msgq w ++ [Msg_END (id s) ok] /\
  S (length (states (rrdp_done (rrdp_free w i) (id s) ok)))
    = length (states w).
Proof.
  intros H. simpl. split; [done|].
  rewrite length_delete by eauto. apply lookup_lt_Some in H. lia.
Qed.

Lemma rrdp_failed_step (w : worker) (i : nat) (s : rrdp) :
  states w !! i = Some s ->
  quiet_step w (rrdp_failed w i) \/
  (msgq (rrdp_failed w i) = msgq w ++ [Msg_END (id s) 0] /\
   S (length (states (rrdp_failed w i))) = length (states w)).
Proof.
  intros H. rewrite (rrdp_failed_unfold _ _ s) by done.
  destruct (bool_decide _); [left; apply update_quiet|].
  right. by apply free_done_ending.
Qed.

Lemma send_free_done_ending (w : worker) (i : nat) (s s' : rrdp) :
  states w !! i = Some s ->
  id s' = id s ->
  ending_step (id s) w
    (rrdp_done (rrdp_free (rrdp_state_send w s') i) (id s) 1).
Proof.
  intros H E. exists 1, [Msg_SESSION (id s) (session_id (current s'))
                           (serial (current s')) (last_mod (current s'))].
  simpl. rewrite E, <- app_assoc. split; [done|]. split.
  - rewrite length_delete by eauto. apply lookup_lt_Some in H. lia.
  - right. eauto.
Qed.

Lemma rrdp_input_done_step (w : worker) (i : nat) (s : rrdp) (c : completion) :
  states w !! i = Some s ->
  quiet_step w (rrdp_input_done w i (id s) c) \/
  ending_step (id s) w (rrdp_input_done w i (id s) c).
Proof.
  intros H. unfold rrdp_input_done. rewrite H.
  assert (quiet_step w (rrdp_failed w i) \/
          ending_step (id s) w (rrdp_failed w i)) as F.
  { destruct (rrdp_failed_step w i s H) as [?|[? ?]]; [by left|right].
    exists 0, []. auto. }
  destruct (status s =? 200).
  - destruct (negb (XML_Parse_final c)); [done|].
    destruct (0 <? file_failed s); [done|].
    destruct (task s).
    + destruct (notification_done c).
      * right. unfold rrdp_state_send.
        pose proof (send_free_done_ending
                      (update w i (set_task NOTIFICATION)) i
                      (set_task NOTIFICATION s) (set_task NOTIFICATION s)) as E.
        destruct E as (ok & tail & E1 & E2 & E3); [|done|].
        { rewrite (update_lookup _ _ _ s) by done. simpl.
          apply list_lookup_insert_eq. by eapply lookup_lt_Some. }
        exists ok, tail. simpl in *. rewrite length_alter in E2. auto.
      * left. unfold quiet_step, update. simpl. by rewrite !length_alter.
      * left. unfold quiet_step, update. simpl. by rewrite !length_alter.
    + right. by apply send_free_done_ending.
    + destruct (notification_delta_done c).
      * right. by apply send_free_done_ending.
      * left. apply update_quiet.
  - destruct (_ && _); [|done]. right. exists 1, [].
    destruct (free_done_ending w i s 1 H). auto.
Qed.

Lemma quiet_then (w w1 w' : worker) (id' : Z) :
  quiet_step w w1 ->
  quiet_step w1 w' \/ ending_step id' w1 w' ->
  quiet_step w w' \/ ending_step id' w w'.
Proof.
  intros [Q1 Q2] [[R1 R2]|(ok & tail & R1 & R2 & R3)].
  - left. split; congruence.
  - right. exists ok, tail. rewrite <- Q1, <- Q2. auto.
Qed.

Lemma rrdp_input_handler_step (w w' : worker) (m : imsg)
    (c : completion) :
  rrdp_input_handler w m c = Done w' ->
  (msgq w' = msgq w /\
   length (states w')
     = (length (states w) + (if is_start m then 1 else 0))%nat) \/
  ending_step (msg_id m) w w'.
Proof.
  assert (forall w1, quiet_step w w1 \/ ending_step (msg_id m) w w1 ->
            is_start m = false ->
            (msgq w1 = msgq w /\
             length (states w1)
               = (length (states w) + (if is_start m then 1 else 0))%nat) \/
            ending_step (msg_id m) w w1) as Fin.
  { intros w1 [[? ?]|?] ->; [left|by right]. split; [done|lia]. }
  destruct m as [infd id' l n sid ser lm|infd id'|infd id' st lm|infd id' st|];
    simpl; intros H.
  - destruct (negb _); [done|]. injection H as <-. left. simpl.
    rewrite length_app. simpl. done.
  - destruct (infd =? -1); [done|].
    destruct (rrdp_get w id') as [i|] eqn:G; [|done].
    destruct (rrdp_get_Some _ _ _ G) as (s & Hs & <-). rewrite Hs in H.
    destruct (negb _); [done|]. injection H as <-.
    apply Fin; [|done]. left. apply update_quiet.
  - destruct (negb _); [done|].
    destruct (rrdp_get w id') as [i|] eqn:G; [|done].
    destruct (rrdp_get_Some _ _ _ G) as (s & Hs & <-). rewrite Hs in H.
    destruct (bool_decide (state s = ERROR)).
    { injection H as <-. apply Fin; [|done].
      destruct (rrdp_failed_step w i s Hs) as [?|[? ?]]; [by left|right].
      exists 0, []. auto. }
    destruct (negb _); [done|]. simpl in H. injection H as <-.
    apply Fin; [|done].
    eapply quiet_then; [apply update_quiet|].
    apply (rrdp_input_done_step _ _ (set_state DONE (set_status st s))).
    rewrite (update_lookup _ _ _ s) by done. simpl.
    apply list_lookup_insert_eq. by eapply lookup_lt_Some.
  - destruct (rrdp_get w id') as [i|] eqn:G; [|done].
    destruct (rrdp_get_Some _ _ _ G) as (s & Hs & <-). rewrite Hs in H.
    set (s1 := set_file_pending _ _) in H.
    assert (id s1 = id s) as E by (unfold s1; by destruct (st =? 0)).
    assert (states (update w i (fun _ => s1)) !! i = Some s1) as Hs1.
    { rewrite (update_lookup _ _ _ s) by done. simpl.
      apply list_lookup_insert_eq. by eapply lookup_lt_Some. }
    apply Fin; [|done].
    destruct (_ && _); injection H as <-.
    + eapply quiet_then; [apply update_quiet|]. rewrite <- E.
      by apply rrdp_input_done_step.
    + left. apply update_quiet.
  - done.
Qed.

(** X11. Messages and sessions go together.  A message the handler
    gets through has one of two effects.  Either nothing is sent and
    the queue of sessions keeps its length (START makes it one
    longer); or exactly one session is freed and END for the id of the
    message is the last thing sent, alone or right after the one
    SESSION message, which goes with ok = 1 only. *)
Theorem rrdp_input_handler_accounting (w w' : worker) (m : imsg)
    (c : completion) :
  rrdp_input_handler w m c = Done w' ->
  (msgq w' = msgq w /\
   length (states w')
     = (length (states w) + (if is_start m then 1 else 0))%nat) \/
  ending_step (msg_id m) w w'.
Proof. apply rrdp_input_handler_step. Qed.

(** *** When END carries ok = 1 *)

Lemma sent_update (w : worker) (i : nat) (f : rrdp -> rrdp) (w' : worker) :
  sent (update w i f) w' = sent w w'.
Proof. done. Qed.

Lemma rrdp_failed_sent (w : worker) (i : nat) (s : rrdp) (id' : Z) :
  states w !! i = Some s -> ~ In (Msg_END id' 1) (sent w (rrdp_failed w i)).
Proof.
  intros H. unfold sent.
  destruct (rrdp_failed_step w i s H) as [[-> _]|[-> _]].
  - rewrite drop_all. intros [].
  - rewrite drop_app_length. simpl. intros [[=]|[]].
Qed.

Lemma rrdp_input_done_sent (w : worker) (i : nat) (s : rrdp) (id' : Z)
    (c : completion) :
  states w !! i = Some s ->
  In (Msg_END id' 1) (sent w (rrdp_input_done w i id' c)) ->
  completes s (status s) c.
Proof.
  intros H. unfold rrdp_input_done, completes. rewrite H.
  pose proof (rrdp_failed_sent w i s id' H) as F.
  destruct (Z.eqb_spec (status s) 200) as [E|NE].
  - destruct (XML_Parse_final c); simpl; [|done].
    destruct (Z.ltb_spec 0 (file_failed s)); [done|].
    intros S. left. split_and!; [done|done|lia|].
    destruct (task s) eqn:T; [|by left|].
    + destruct (notification_done c) eqn:N; [by right; left| |];
        unfold sent, update in S; simpl in S;
        rewrite drop_all in S; destruct S.
    + destruct (notification_delta_done c); [by right; right|].
      unfold sent, update in S; simpl in S. rewrite drop_all in S.
      destruct S.
  - destruct (Z.eqb_spec (status s) 304); simpl; [|done].
    case_bool_decide; [|done]. intros _. by right.
Qed.

(** X12. Success is never reported after a failure.  When the handler
    answers HTTP_FIN by sending END with ok = 1, the session was PARSED
    and either the status is 200, the final parse is clean, no file
    has failed and the task is over (a SNAPSHOT, a NOTIFICATION with
    nothing to fetch, the last DELTA), or the status is 304 for a
    NOTIFICATION. *)
Theorem end_ok_only_after_success (w w' : worker) (infd id' status' : Z)
    (lm : option string) (c : completion) :
  rrdp_input_handler w (In_HTTP_FIN infd id' status' lm) c = Done w' ->
  In (Msg_END id' 1) (sent w w') ->
  exists s, session_of w id' = Some s /\ state s = PARSED /\
            completes s status' c.
Proof.
  simpl. intros H S. destruct (negb _); [done|].
  unfold session_of.
  destruct (rrdp_get w id') as [i|] eqn:G; [|done].
  destruct (rrdp_get_Some _ _ _ G) as (s & Hs & <-). rewrite Hs in H.
  exists s. split; [done|].
  case_bool_decide as E.
  { injection H as <-. by apply (rrdp_failed_sent w i s) in S. }
  case_bool_decide as P; [|done]. simpl in H. injection H as <-.
  split; [done|].
  apply (rrdp_input_done_sent
           (update w i (fun s => set_state DONE (set_status status' s))) _
           (set_state DONE (set_status status' s)))
    in S; [exact S|].
  rewrite (update_lookup _ _ _ s) by done. simpl.
  apply list_lookup_insert_eq. by eapply lookup_lt_Some.
Qed.

(** *** The request loop *)

Lemma proc_rrdp_requests_cons next s l k i q :
  proc_rrdp_requests next (s :: l) k i q =
    if decide (MAX_SESSIONS + 1 <= i)%nat then
      let r := proc_rrdp_requests next l (S k) i q in
      (set_pfd None s :: r.1.1, r.1.2, r.2)
    else
      let q1 := if bool_decide (state s = REQ)
                then q ++ [request_of next k s] else q in
      let r := proc_rrdp_requests next l (S k) (S i) q1 in
      (set_pfd (Some i)
         (if bool_decide (state s = REQ) then
            match task s with
            | NOTIFICATION => set_state WAITING s
            | _ => set_state WAITING
                     (set_ctx SHA256_Init (set_hash (next k).2 s))
            end
          else s) :: r.1.1, r.1.2, r.2).
Proof.
  cbn [proc_rrdp_requests]. case_decide.
  - by destruct (proc_rrdp_requests next l (S k) i q) as [[? ?] ?].
  - unfold request_of. destruct (bool_decide (state s = REQ)).
    + destruct (task s); simpl.
      * by destruct (proc_rrdp_requests next l (S k) (S i) _) as [[? ?] ?].
      * destruct (next k) as [uri h]. simpl.
        by destruct (proc_rrdp_requests next l (S k) (S i) _) as [[? ?] ?].
      * destruct (next k) as [uri h]. simpl.
        by destruct (proc_rrdp_requests next l (S k) (S i) _) as [[? ?] ?].
    + by destruct (proc_rrdp_requests next l (S k) (S i) q) as [[? ?] ?].
Qed.

(** X13. The poll slots.  The loop keeps the sessions in their order
    and numbers them from the slot it starts with ([proc_rrdp] starts
    with 1): the session at position [j] gets slot [i + j] as long as
    that is at most [MAX_SESSIONS], and every later session gets none.
    No two sessions share a slot and slot 0 stays the channel's. *)
Theorem proc_rrdp_requests_slots (next : nat -> option string * list Z)
    (l : list rrdp) (k i : nat) (q : list ibuf) :
  let l' := (proc_rrdp_requests next l k i q).1.1 in
  length l' = length l /\
  forall j s', l' !! j = Some s' ->
    pfd s' = if decide (i + j <= MAX_SESSIONS)%nat
             then Some (i + j)%nat else None.
Proof.
  revert k i q. induction l as [|s l IH]; intros k i q; [done|].
  rewrite proc_rrdp_requests_cons. unfold MAX_SESSIONS in *.
  case_decide as Hi; cbn zeta; cbn [fst snd length].
  - destruct (IH (S k) i q) as [IH1 IH2]. split; [by rewrite IH1|].
    intros [|j] s' Hs'.
    + injection Hs' as <-. cbn [pfd set_pfd].
      destruct (decide (i + 0 <= 12)%nat); [exfalso; lia|done].
    + rewrite (IH2 j s' Hs').
      destruct (decide (i + j <= 12)%nat), (decide (i + S j <= 12)%nat);
        try (exfalso; lia); done.
  - match goal with
    | |- context [proc_rrdp_requests next l (S k) (S i) ?q1] =>
        destruct (IH (S k) (S i) q1) as [IH1 IH2]
    end.
    split; [by rewrite IH1|].
    intros [|j] s' Hs'.
    + injection Hs' as <-. cbn [pfd set_pfd].
      destruct (decide (i + 0 <= 12)%nat); [|exfalso; lia]. f_equal. lia.
    + rewrite (IH2 j s' Hs').
      destruct (decide (S i + j <= 12)%nat), (decide (i + S j <= 12)%nat);
        try (exfalso; lia); [f_equal; lia | done].
Qed.

Lemma requests_of_full next k i l :
  (MAX_SESSIONS + 1 <= i)%nat -> requests_of next k i l = [].
Proof. intros H. destruct l; [done|]. simpl. by case_decide. Qed.

Lemma proc_rrdp_requests_queue next l : forall k i q,
  (proc_rrdp_requests next l k i q).1.2 = q ++ requests_of next k i l.
Proof.
  induction l as [|s l IH]; intros k i q; [by rewrite app_nil_r|].
  rewrite proc_rrdp_requests_cons. cbn [requests_of].
  case_decide as Hi; cbn zeta; cbn [fst snd].
  - by rewrite IH, requests_of_full.
  - rewrite IH. destruct (bool_decide (state s = REQ)); [|done].
    by rewrite <- app_assoc.
Qed.

Lemma requests_of_in next l : forall k i j s,
  l !! j = Some s -> (i + j <= MAX_SESSIONS)%nat -> state s = REQ ->
  In (request_of next (k + j) s) (requests_of next k i l).
Proof.
  unfold MAX_SESSIONS.
  induction l as [|x l IH]; intros k i [|j] s Hs Hi Hr; try done;
    cbn [requests_of]; (case_decide as D; [unfold MAX_SESSIONS in D; lia|]).
  - injection Hs as ->. rewrite (bool_decide_eq_true_2 _ Hr), Nat.add_0_r.
    by left.
  - apply in_or_app. right.
    replace (k + S j)%nat with (S k + j)%nat by lia.
    apply IH; [done | lia | done].
Qed.

Lemma requests_of_length next l : forall k i,
  length (requests_of next k i l)
  = length (filter (fun s => state s = REQ) (take (S MAX_SESSIONS - i) l)).
Proof.
  unfold MAX_SESSIONS.
  induction l as [|x l IH]; intros k i; [by rewrite take_nil|].
  cbn [requests_of]. case_decide as D; unfold MAX_SESSIONS in D.
  - replace (13 - i)%nat with 0%nat by lia. done.
  - replace (13 - i)%nat with (S (13 - S i)) by lia.
    cbn [take]. rewrite filter_cons, length_app, IH.
    case_bool_decide; case_decide; done.
Qed.

Lemma requested_fields (s : rrdp) (h : list Z) :
  let s' := match task s with
            | NOTIFICATION => set_state WAITING s
            | _ => set_state WAITING (set_ctx SHA256_Init (set_hash h s))
            end in
  id s' = id s /\ task s' = task s /\ state s' = WAITING.
Proof. destruct s as [? ? ? ? ? ? t]; simpl; by destruct t. Qed.

Lemma proc_rrdp_requests_states next l : forall k i q j s,
  l !! j = Some s ->
  exists s', (proc_rrdp_requests next l k i q).1.1 !! j = Some s' /\
    id s' = id s /\ task s' = task s /\
    state s' = if decide ((i + j <= MAX_SESSIONS)%nat /\ state s = REQ)
               then WAITING else state s.
Proof.
  unfold MAX_SESSIONS.
  induction l as [|x l IH]; intros k i q [|j] s Hs; try done;
    rewrite proc_rrdp_requests_cons;
    (case_decide as D; unfold MAX_SESSIONS in D); cbn zeta; cbn [fst snd].
  - injection Hs as ->. eexists. split; [done|]. split_and!; try done.
    case_decide as C; [exfalso; lia | done].
  - injection Hs as ->. eexists. split; [done|].
    case_bool_decide as R.
    + destruct (requested_fields s (next k).2) as (F1 & F2 & F3).
      split_and!; [exact F1 | exact F2 |].
      case_decide as C; [exact F3 | exfalso; apply C; split; [lia|done]].
    + split_and!; try done. case_decide as C; [tauto | done].
  - destruct (IH (S k) i q j s Hs) as (s' & ? & ? & ? & E). exists s'.
    split_and!; try done. rewrite E.
    repeat case_decide; try done; exfalso; lia.
  - match goal with
    | |- context [proc_rrdp_requests next l (S k) (S i) ?q1] =>
        destruct (IH (S k) (S i) q1 j s Hs) as (s' & ? & ? & ? & E)
    end.
    exists s'. split_and!; try done. rewrite E.
    repeat case_decide; try done; exfalso;
      match goal with
      | C : ~ (_ /\ _) |- _ => apply C; split; [lia | tauto]
      end.
Qed.

(** X14. Requests within the capacity.  Every session in REQ among
    those that get a slot sends its request (a NOTIFICATION with the
    stored date for If-Modified-Since, a SNAPSHOT or DELTA for the URI
    [notification_get_next] gives) and is WAITING afterwards; the
    requests are queued behind what was queued, one per such session.
    A session not in REQ, or past the capacity, keeps its state. *)
Theorem proc_rrdp_requests_sent (next : nat -> option string * list Z)
    (l : list rrdp) (k i : nat) (q : list ibuf) :
  let r := proc_rrdp_requests next l k i q in
  (forall j s, l !! j = Some s ->
     exists s', r.1.1 !! j = Some s' /\ id s' = id s /\ task s' = task s /\
       if decide ((i + j <= MAX_SESSIONS)%nat /\ state s = REQ)
       then state s' = WAITING /\
            In (request_of next (k + j) s) (drop (length q) r.1.2)
       else state s' = state s) /\
  exists reqs, r.1.2 = q ++ reqs /\
    length reqs
      = length (filter (fun s => state s = REQ)
                  (take (S MAX_SESSIONS - i) l)).
Proof.
  intros r. unfold r. split.
  - intros j s Hs.
    destruct (proc_rrdp_requests_states next l k i q j s Hs)
      as (s' & ? & ? & ? & E).
    exists s'. split_and!; try done.
    rewrite proc_rrdp_requests_queue, drop_app_length.
    case_decide as C; [|done]. split; [done|].
    destruct C. by apply requests_of_in.
  - exists (requests_of next k i l).
    split; [apply proc_rrdp_requests_queue | apply requests_of_length].
Qed.

(** *** File accounting *)

Lemma uint_range z : 0 <= uint z < 2 ^ 32.
Proof. unfold uint. apply Z.mod_pos_bound. lia. Qed.

Lemma uint_add_l a b : uint (uint a + b) = uint (a + b).
Proof. unfold uint. by rewrite Z.add_mod_idemp_l by lia. Qed.

Lemma uint_add_sub a b c : uint (uint a + b - c) = uint (a + b - c).
Proof.
  replace (uint a + b - c) with (uint a + (b - c)) by lia.
  rewrite uint_add_l. f_equal. lia.
Qed.

Lemma rrdp_get_from_alter (f : rrdp -> rrdp) l id' i :
  (forall s, id (f s) = id s) ->
  forall k, rrdp_get_from (alter f i l) id' k = rrdp_get_from l id' k.
Proof.
  intros Hf. revert i. induction l as [|x l IH]; intros i k; [done|].
  destruct i as [|i]; simpl.
  - by rewrite Hf.
  - destruct (id x =? id'); [done|]. apply IH.
Qed.

Lemma rrdp_get_from_insert (l : list rrdp) (i : nat) (s s' : rrdp) id' :
  l !! i = Some s -> id s' = id s ->
  forall k, rrdp_get_from (<[i:=s']> l) id' k = rrdp_get_from l id' k.
Proof.
  revert i. induction l as [|x l IH]; intros i Hs Hid k; [done|].
  destruct i as [|i]; simpl in *.
  - injection Hs as ->. by rewrite Hid.
  - destruct (id x =? id'); [done|]. by apply IH.
Qed.

Lemma publish_done_session (decode : string -> option (list Z)) (w : worker)
    (i : nat) (s : rrdp) (pxml : publish_xml) :
  states w !! i = Some s ->
  let w' := (publish_done decode w i pxml).2 in
  states w' =
    <[i:=if decodes decode pxml
         then set_file_pending (uint (file_pending s + 1)) s else s]>
      (states w) /\
  rrdp_get w' (id s) = rrdp_get w (id s) /\
  Z.of_nat (length (msgq w'))
    = Z.of_nat (length (msgq w)) + (if decodes decode pxml then 1 else 0).
Proof.
  intros Hs. unfold publish_done, decodes. rewrite Hs.
  destruct (0 <? pub_data_length pxml).
  - destruct (decode _) as [data|]; simpl.
    + rewrite (alter_lookup _ _ _ s) by done. split_and!; [done| |].
      * unfold rrdp_get. simpl. by apply rrdp_get_from_alter.
      * rewrite length_app. simpl. lia.
    + rewrite list_insert_id by done. split_and!; [done|done|lia].
  - simpl. rewrite (alter_lookup _ _ _ s) by done. split_and!; [done| |].
    + unfold rrdp_get. simpl. by apply rrdp_get_from_alter.
    + rewrite length_app. simpl. lia.
Qed.

(** X15. The file counters.  While a session is not DONE, any
    succession of records handed to [publish_done] and of
    acknowledgements leaves [file_pending] at its start value plus the
    files sent minus the acknowledgements, and [file_failed] at its
    start value plus the acknowledgements with status 0, both as
    [unsigned int]; the queue has grown by one FILE message per record
    that decoded, and the session is otherwise as it was. *)
Theorem file_accounting (decode : string -> option (list Z)) (c : completion)
    (evs : list file_step) :
  forall (w : worker) (id' : Z) (i : nat) (s : rrdp),
  rrdp_get w id' = Some i ->
  states w !! i = Some s ->
  state s <> DONE ->
  0 <= file_pending s < 2 ^ 32 ->
  0 <= file_failed s < 2 ^ 32 ->
  exists w',
    file_steps decode c id' i evs w = Done w' /\
    states w' =
      <[i:=set_file_failed (uint (file_failed s + files_failed evs))
             (set_file_pending
                (uint (file_pending s + files_sent decode evs
                       - files_acked evs)) s)]> (states w) /\
    Z.of_nat (length (msgq w'))
      = Z.of_nat (length (msgq w)) + files_sent decode evs.
Proof.
  induction evs as [|[pxml|st] evs IH]; intros w id' i s Hg Hs Hd Hp Hf.
  - exists w. split; [done|]. simpl. split; [|lia].
    rewrite !Z.add_0_r, Z.sub_0_r. unfold uint.
    rewrite !Z.mod_small by lia.
    rewrite list_insert_id; [done|]. rewrite Hs. f_equal. by destruct s.
  - cbn [file_steps files_sent files_acked files_failed].
    destruct (rrdp_get_Some _ _ _ Hg) as (s0 & Hs0 & Hid).
    assert (s0 = s) as -> by congruence.
    destruct (publish_done_session decode w i s pxml Hs) as (E1 & E2 & E3).
    set (s1 := if decodes decode pxml
               then set_file_pending (uint (file_pending s + 1)) s else s)
      in *.
    pose proof (lookup_lt_Some _ _ _ Hs) as Hi.
    destruct (IH (publish_done decode w i pxml).2 id' i s1)
      as (w' & R1 & R2 & R3).
    { by rewrite <- Hid, E2, Hid. }
    { rewrite E1. by apply list_lookup_insert_eq. }
    { unfold s1. by destruct (decodes decode pxml). }
    { unfold s1. destruct (decodes decode pxml); [apply uint_range|done]. }
    { unfold s1. by destruct (decodes decode pxml). }
    exists w'. split; [done|]. split; [|lia].
    rewrite R2, E1, list_insert_insert_eq. f_equal.
    unfold s1. destruct (decodes decode pxml); simpl.
    + destruct s; unfold set_file_failed, set_file_pending; simpl. f_equal.
      rewrite uint_add_sub. f_equal. lia.
    + done.
  - cbn [file_steps files_sent files_acked files_failed].
    unfold rrdp_input_handler. rewrite Hg, Hs.
    set (s1 := set_file_pending _ _).
    assert (state s1 = state s) as Est by (unfold s1; by destruct (st =? 0)).
    rewrite Est, (bool_decide_eq_false_2 _ Hd), andb_false_r.
    pose proof (lookup_lt_Some _ _ _ Hs) as Hi.
    destruct (IH (update w i (fun _ => s1)) id' i s1) as (w' & R1 & R2 & R3).
    { unfold rrdp_get, update. simpl.
      rewrite (alter_lookup _ _ _ s) by done.
      rewrite (rrdp_get_from_insert _ _ s) by (done || (unfold s1; by destruct (st =? 0))).
      apply Hg. }
    { unfold update. simpl. rewrite (alter_lookup _ _ _ s) by done.
      by apply list_lookup_insert_eq. }
    { by rewrite Est. }
    { unfold s1. simpl. apply uint_range. }
    { unfold s1. destruct (st =? 0); simpl; [apply uint_range|done]. }
    exists w'. split; [done|]. split.
    + rewrite R2. unfold update. simpl.
      rewrite (alter_lookup _ _ _ s) by done.
      rewrite list_insert_insert_eq. f_equal.
      unfold s1. destruct s; destruct (st =? 0);
        unfold set_file_failed, set_file_pending; simpl; f_equal.
      all: rewrite ?uint_add_sub, ?uint_add_l; f_equal; lia.
    + rewrite R3. unfold update. simpl. lia.
Qed.

(** *** The stream loop under read failures *)

Lemma omap_cons {A B} (f : A -> option B) (x : A) (l : list A) :
  omap f (x :: l)
  = match f x with Some y => y :: omap f l | None => omap f l end.
Proof. done. Qed.

Lemma proc_rrdp_streams_read_failures_from
    (revents : nat -> option stream_event) :
  (forall slot ev, revents slot = Some ev -> ev_read ev = None) ->
  forall (rest done : list rrdp) (q : list ibuf),
  proc_rrdp_streams revents (length rest) (length done)
    {| states := done ++ rest; msgq := q |}
  = Done {| states := done ++ omap (read_failure_keeps revents) rest;
            msgq := q ++ omap (read_failure_reports revents) rest |}.
Proof.
  intros Hev. induction rest as [|s rest IH]; intros done q.
  { simpl. by rewrite !app_nil_r. }
  assert (forall s', proc_rrdp_streams revents (length rest) (S (length done))
            {| states := done ++ s' :: rest; msgq := q |}
          = Done {| states := done ++ s' :: omap (read_failure_keeps revents) rest;
                    msgq := q ++ omap (read_failure_reports revents) rest |})
    as Hskip.
  { intros s'. specialize (IH (done ++ [s']) q).
    rewrite length_app, Nat.add_1_r, <- !app_assoc in IH. apply IH. }
  cbn [proc_rrdp_streams length states].
  rewrite list_lookup_middle by done. rewrite !omap_cons.
  destruct (pfd s) as [slot|] eqn:Hp; [destruct (revents slot) as [ev|] eqn:He|].
  - unfold rrdp_stream_input. cbn [states].
    rewrite list_lookup_middle by done. rewrite (Hev _ _ He).
    rewrite (rrdp_failed_unfold _ _ s) by (by apply list_lookup_middle).
    assert (polled revents s = true) as Hpo.
    { unfold polled. rewrite Hp. apply bool_decide_eq_true_2. eauto. }
    unfold read_failure_keeps at 1. unfold read_failure_reports at 1.
    rewrite Hpo.
    destruct (bool_decide (task s = DELTA)); cbn [andb negb].
    + unfold update, set_states. cbn [states msgq].
      rewrite (alter_lookup _ _ _ s) by (by apply list_lookup_middle).
      rewrite insert_app_r_alt, Nat.sub_diag by done. cbn [insert list_insert].
      rewrite !length_app. cbn [length]. rewrite Nat.sub_diag, Nat.sub_0_r.
      apply Hskip.
    + unfold rrdp_done, rrdp_free, ibuf_close, set_states. cbn [states msgq].
      rewrite delete_middle, !length_app. cbn [length].
      replace (S (length done)
               - (length done + S (length rest)
                  - (length done + length rest)))%nat
        with (length done) by lia.
      rewrite IH. by rewrite <- app_assoc.
  - assert (polled revents s = false) as Hpo.
    { unfold polled. rewrite Hp, He. apply bool_decide_eq_false_2.
      by intros [? ?]. }
    unfold read_failure_keeps at 1. unfold read_failure_reports at 1.
    rewrite Hpo. apply Hskip.
  - assert (polled revents s = false) as Hpo by (unfold polled; by rewrite Hp).
    unfold read_failure_keeps at 1. unfold read_failure_reports at 1.
    rewrite Hpo. apply Hskip.
Qed.

(** X16. Read failures in the stream loop.  When the [read] of every
    session whose slot has input fails, the loop goes through all
    sessions without an error exit: each such session that is not
    fetching a delta is removed and reported with one END message of
    status 0, in the order of the sessions; each one fetching a delta
    stays in place, set to fetch the snapshot; the sessions without
    input are left as they are. *)
Theorem proc_rrdp_streams_read_failures
    (revents : nat -> option stream_event) (w : worker) :
  (forall slot ev, revents slot = Some ev -> ev_read ev = None) ->
  proc_rrdp_streams revents (length (states w)) 0 w
  = Done {| states := omap (read_failure_keeps revents) (states w);
            msgq := msgq w ++ omap (read_failure_reports revents) (states w) |}.
Proof.
  intros Hev. destruct w as [l q].
  apply (proc_rrdp_streams_read_failures_from revents Hev l [] q).
Qed.

(** *** One turn of the loop *)

Lemma ends_app (q q' : list ibuf) : ends (q ++ q') = (ends q + ends q')%nat.
Proof. unfold ends. by rewrite List.filter_app, length_app. Qed.

Lemma accounted_refl (w : worker) : accounted 0 w w.
Proof. exists []. rewrite app_nil_r. split; [done|]. unfold ends. simpl. lia. Qed.

Lemma accounted_trans (n m : nat) (w w1 w2 : worker) :
  accounted n w w1 -> accounted m w1 w2 -> accounted (n + m) w w2.
Proof.
  intros (t1 & E1 & L1) (t2 & E2 & L2). exists (t1 ++ t2).
  rewrite E2, E1, <- app_assoc, ends_app. split; [done|lia].
Qed.

Lemma quiet_accounted (w w' : worker) : quiet_step w w' -> accounted 0 w w'.
Proof.
  intros [Q1 Q2]. exists []. rewrite app_nil_r. split; [done|]. unfold ends. simpl. lia.
Qed.

Lemma ending_accounted (id' : Z) (w w' : worker) :
  ending_step id' w w' -> accounted 0 w w'.
Proof.
  intros (ok & tail & E & L & T). exists (tail ++ [Msg_END id' ok]).
  split; [done|]. rewrite ends_app.
  destruct T as [->|(_ & sid & ser & lm & ->)]; unfold ends; simpl; lia.
Qed.

Lemma ends_files (s : rrdp) (rs : list (publish_xml * list Z)) :
  ends (map (file_message s) rs) = 0%nat.
Proof. unfold ends. by induction rs. Qed.

Lemma stream_outcome_accounted (s : rrdp) (ev : stream_event)
    (o : list rrdp * list ibuf) :
  stream_outcome s ev = Done o -> (length o.1 + ends o.2 = 1)%nat.
Proof.
  assert (forall s0, (length (failure_outcome s0).1
                      + ends (failure_outcome s0).2 = 1)%nat) as F.
  { intros s0. unfold failure_outcome. by destruct (bool_decide _). }
  unfold stream_outcome. destruct (ev_read ev) as [buf|].
  2:{ intros [= <-]. apply F. }
  destruct (_ && _); [done|]. destruct buf as [|b buf].
  - destruct (_ && _); intros [= <-]; [apply F|done].
  - intros [= <-]. cbn [fst snd length]. unfold chunk_files.
    destruct (_ && _); [by rewrite ends_files|done].
Qed.

Lemma rrdp_stream_input_accounted (w w' : worker) (i : nat)
    (ev : stream_event) :
  rrdp_stream_input w i ev = Done w' ->
  accounted 0 w w' /\ (length (states w') <= length (states w))%nat.
Proof.
  destruct (states w !! i) as [s|] eqn:Hs.
  2:{ unfold rrdp_stream_input. rewrite Hs. intros [= <-].
      split; [apply accounted_refl|done]. }
  rewrite (rrdp_stream_input_outcome _ _ s) by done.
  destruct (stream_outcome s ev) as [[l m]|] eqn:E; [|done].
  apply stream_outcome_accounted in E. cbn [fst snd] in *.
  pose proof (lookup_lt_Some _ _ _ Hs) as Hi.
  intros [= <-]. cbn [states msgq].
  rewrite !length_app, length_take, length_drop.
  split; [|lia]. exists m. split; [done|].
  cbn [states]. rewrite !length_app, length_take, length_drop. lia.
Qed.

Lemma proc_rrdp_streams_accounted (revents : nat -> option stream_event)
    (n : nat) :
  forall (i : nat) (w w' : worker),
  proc_rrdp_streams revents n i w = Done w' -> accounted 0 w w'.
Proof.
  induction n as [|n IH]; intros i w w'; simpl.
  { intros [= <-]. apply accounted_refl. }
  destruct (states w !! i) as [s|]; [|intros [= <-]; apply accounted_refl].
  destruct (pfd s) as [slot|]; [|apply IH].
  destruct (revents slot) as [ev|]; [|apply IH].
  destruct (rrdp_stream_input w i ev) as [w1|] eqn:E; [|done].
  intros H. apply rrdp_stream_input_accounted in E as [A _].
  apply (accounted_trans 0 0 w w1 w' A). by eapply IH.
Qed.

Lemma requests_of_ends next l : forall k i,
  ends (requests_of next k i l) = 0%nat.
Proof.
  induction l as [|s l IH]; intros k i; cbn [requests_of]; [done|].
  case_decide; [done|]. rewrite ends_app, IH.
  destruct (bool_decide _); [|done]. unfold request_of. by destruct (task s).
Qed.

Lemma proc_rrdp_requests_length next l : forall k i q,
  length (proc_rrdp_requests next l k i q).1.1 = length l.
Proof.
  induction l as [|s l IH]; intros k i q; [done|].
  rewrite proc_rrdp_requests_cons.
  case_decide; cbn zeta; cbn [fst snd length]; by rewrite IH.
Qed.

(** X17. No session is lost without an END.  Through a whole turn of
    the loop of [proc_rrdp] that does not exit, the queue ends as the
    messages queued before and the requests of the turn, less the
    messages [msgbuf_write] has written out, and behind them what the
    handler and the stream loop have queued.  The requests hold no
    END, and the number of sessions plus the number of END messages
    the handler and the stream loop have queued is the number of
    sessions before, plus one when the message was START. *)
Theorem proc_rrdp_turn_accounting (next : nat -> option string * list Z)
    (p : poll_result) (w w' : worker) :
  proc_rrdp_turn next p w = Done (Some w') ->
  exists reqs tail,
    msgq w' = drop (from_option snd 0%nat (pollout p)) (msgq w ++ reqs)
              ++ tail /\
    ends reqs = 0%nat /\
    (length (states w') + ends tail
     = length (states w) + match pollin p with
                           | Some (m, _) => if is_start m then 1 else 0
                           | None => 0
                           end)%nat.
Proof.
  unfold proc_rrdp_turn.
  pose proof (proc_rrdp_requests_length next (states w) 0 1 (msgq w)) as RL.
  pose proof (proc_rrdp_requests_queue next (states w) 0 1 (msgq w)) as RQ.
  pose proof (requests_of_ends next (states w) 0 1) as RN.
  destruct (proc_rrdp_requests next (states w) 0 1 (msgq w)) as [[l q] i0].
  simpl in RL, RQ. subst q.
  set (w0 := {| states := l;
                msgq := drop (from_option snd 0%nat (pollout p))
                          (msgq w ++ requests_of next 0 1 (states w)) |}).
  destruct (pollhup p); [done|].
  destruct (bool_decide _); [done|]. destruct (bool_decide _); [done|].
  assert (forall n w2, accounted n w0 w2 ->
            exists reqs tail,
              msgq w2 = drop (from_option snd 0%nat (pollout p))
                          (msgq w ++ reqs) ++ tail /\
              ends reqs = 0%nat /\
              (length (states w2) + ends tail = length (states w) + n)%nat)
    as Fin.
  { intros n w2 (tail & E & L). exists (requests_of next 0 1 (states w)), tail.
    split; [done|]. split; [done|]. cbn [states w0] in L. lia. }
  destruct (pollin p) as [[m c]|].
  - destruct (rrdp_input_handler w0 m c) as [w1|] eqn:E; [|done].
    destruct (proc_rrdp_streams _ _ _ w1) as [w2|] eqn:S; [|done].
    intros [= <-]. apply proc_rrdp_streams_accounted in S.
    assert (accounted (if is_start m then 1 else 0) w0 w1) as A1.
    { destruct (is_start m) eqn:I.
      - destruct m; try discriminate I. simpl in E.
        destruct (negb _); [done|]. injection E as <-.
        exists []. rewrite app_nil_r. split; [done|].
        unfold rrdp_new, set_states. cbn [states]. rewrite length_app.
        unfold ends. cbn [List.filter length]. lia.
      - apply rrdp_input_handler_step in E as [[E1 E2]|E].
        + exists []. rewrite app_nil_r. split; [done|]. rewrite E2, I.
          unfold ends. cbn [List.filter length]. lia.
        + by apply ending_accounted in E. }
    pose proof (accounted_trans _ _ _ _ _ A1 S) as A.
    rewrite Nat.add_0_r in A. by apply Fin.
  - destruct (proc_rrdp_streams _ _ _ w0) as [w2|] eqn:S; [|done].
    intros [= <-]. apply proc_rrdp_streams_accounted in S. by apply Fin.
Qed.

(** *** DONE is never left behind *)

Lemma none_done_others (i : nat) (l : list rrdp) :
  none_done l -> others_not_done i l.
Proof.
  intros H j s _ Hs. unfold none_done in H. rewrite List.Forall_forall in H.
  apply H. apply list_elem_of_In. by eapply list_elem_of_lookup_2.
Qed.

Lemma others_delete (i : nat) (l : list rrdp) :
  others_not_done i l -> none_done (delete i l).
Proof.
  intros H. apply Forall_lookup. intros j s Hs.
  destruct (decide (j < i)%nat).
  - rewrite list_lookup_delete_lt in Hs by done. apply (H j); [lia|done].
  - rewrite list_lookup_delete_ge in Hs by lia. apply (H (S j)); [lia|done].
Qed.

Lemma others_alter (i : nat) (f : rrdp -> rrdp) (l : list rrdp) :
  others_not_done i l -> others_not_done i (alter f i l).
Proof.
  intros H j s Hj Hs. rewrite list_lookup_alter_ne in Hs by lia.
  by apply (H j).
Qed.

Lemma others_alter_done (i : nat) (f : rrdp -> rrdp) (l : list rrdp) :
  others_not_done i l -> (forall s, state (f s) <> DONE) ->
  none_done (alter f i l).
Proof.
  intros H Hf. apply Forall_lookup. intros j s Hs.
  destruct (decide (j = i)) as [->|Hj].
  - rewrite list_lookup_alter_eq in Hs.
    destruct (l !! i) as [s0|]; [|done]. injection Hs as <-. apply Hf.
  - rewrite list_lookup_alter_ne in Hs by lia. by apply (H j).
Qed.

Lemma rrdp_failed_none_done (w : worker) (i : nat) :
  others_not_done i (states w) -> none_done (states (rrdp_failed w i)).
Proof.
  intros H. unfold rrdp_failed.
  destruct (states w !! i) as [s|] eqn:Hs.
  - destruct (bool_decide _).
    + by apply others_alter_done.
    + by apply others_delete.
  - apply Forall_lookup. intros j s Hj. apply (H j); [|done].
    intros ->. congruence.
Qed.

Lemma rrdp_input_done_none_done (w : worker) (i : nat) (id' : Z)
    (c : completion) :
  states w !! i <> None ->
  others_not_done i (states w) ->
  none_done (states (rrdp_input_done w i id' c)).
Proof.
  intros Hi H. unfold rrdp_input_done.
  destruct (states w !! i) as [s|]; [|done].
  pose proof (rrdp_failed_none_done w i H) as F.
  destruct (status s =? 200).
  - destruct (negb _); [done|]. destruct (0 <? _); [done|].
    destruct (task s).
    + destruct (notification_done c).
      * apply others_delete. by apply others_alter.
      * apply others_alter_done; [by apply others_alter|done].
      * apply others_alter_done; [by apply others_alter|done].
    + by apply others_delete.
    + destruct (notification_delta_done c).
      * by apply others_delete.
      * by apply others_alter_done.
  - destruct (_ && _); [|done]. by apply others_delete.
Qed.

Lemma rrdp_input_handler_none_done (w w' : worker) (m : imsg)
    (c : completion) :
  none_done (states w) ->
  rrdp_input_handler w m c = Done w' ->
  none_done (states w').
Proof.
  intros H.
  destruct m as [infd id' l n sid ser lm|infd id'|infd id' st lm|infd id' st|];
    simpl.
  - destruct (negb _); [done|]. intros [= <-]. simpl.
    apply Forall_app. split; [done|]. by repeat constructor.
  - destruct (infd =? -1); [done|].
    destruct (rrdp_get w id') as [i|]; [|done].
    destruct (states w !! i) as [s|]; [|by intros [= <-]].
    destruct (negb _); [done|]. intros [= <-].
    apply others_alter_done; [by apply none_done_others|done].
  - destruct (negb _); [done|].
    destruct (rrdp_get w id') as [i|]; [|done].
    destruct (states w !! i) as [s|] eqn:Hs; [|by intros [= <-]].
    destruct (bool_decide (state s = ERROR)).
    { intros [= <-]. apply rrdp_failed_none_done. by apply none_done_others. }
    destruct (negb _); [done|]. simpl. intros [= <-].
    apply rrdp_input_done_none_done.
    + unfold update. simpl. by rewrite list_lookup_alter_eq, Hs.
    + apply others_alter. by apply none_done_others.
  - destruct (rrdp_get w id') as [i|]; [|done].
    destruct (states w !! i) as [s|] eqn:Hs; [|by intros [= <-]].
    set (s1 := set_file_pending _ _).
    assert (state s1 <> DONE) as Hs1.
    { unfold none_done in H. rewrite List.Forall_forall in H.
      assert (state s <> DONE) as Hd.
      { apply H, list_elem_of_In. by eapply list_elem_of_lookup_2. }
      unfold s1. by destruct (st =? 0). }
    rewrite (bool_decide_eq_false_2 _ Hs1), andb_false_r. intros [= <-].
    apply others_alter_done; [by apply none_done_others|done].
  - done.
Qed.

Lemma stream_outcome_none_done (s : rrdp) (ev : stream_event)
    (o : list rrdp * list ibuf) :
  state s <> DONE ->
  stream_outcome s ev = Done o ->
  none_done o.1.
Proof.
  intros Hd. unfold stream_outcome, failure_outcome, after_chunk, published.
  destruct (ev_read ev) as [[|b buf]|].
  - destruct (_ && _); [done|].
    cbn [task set_infd].
    destruct (_ && _).
    + destruct (bool_decide _); intros [= <-]; by repeat constructor.
    + intros [= <-]. repeat constructor. cbn [state set_state].
      by destruct (bool_decide _).
  - destruct (_ && _); [done|]. intros [= <-]. repeat constructor.
    destruct (bool_decide (task s = NOTIFICATION));
      destruct (bool_decide (state s = PARSING));
      destruct (ev_xml_ok ev); done.
  - destruct (bool_decide _); intros [= <-]; by repeat constructor.
Qed.

Lemma rrdp_stream_input_none_done (w w' : worker) (i : nat)
    (ev : stream_event) :
  none_done (states w) ->
  rrdp_stream_input w i ev = Done w' ->
  none_done (states w').
Proof.
  intros H.
  destruct (states w !! i) as [s|] eqn:Hs.
  2:{ unfold rrdp_stream_input. rewrite Hs. by intros [= <-]. }
  rewrite (rrdp_stream_input_outcome w i s ev Hs).
  destruct (stream_outcome s ev) as [o|] eqn:E; [|done].
  intros [= <-]. cbn [states].
  assert (state s <> DONE) as Hd.
  { unfold none_done in H. rewrite List.Forall_forall in H.
    apply H, list_elem_of_In. by eapply list_elem_of_lookup_2. }
  pose proof (stream_outcome_none_done s ev o Hd E) as No.
  rewrite <- (take_drop_middle _ _ _ Hs) in H.
  unfold none_done in *.
  apply Forall_app in H as [H1 H2]. apply Forall_cons in H2 as [_ H2].
  apply Forall_app. split; [done|]. apply Forall_app. by split.
Qed.

Lemma proc_rrdp_streams_none_done (revents : nat -> option stream_event)
    (n : nat) :
  forall (i : nat) (w w' : worker),
  none_done (states w) ->
  proc_rrdp_streams revents n i w = Done w' -> none_done (states w').
Proof.
  induction n as [|n IH]; intros i w w' H; simpl.
  { by intros [= <-]. }
  destruct (states w !! i) as [s|]; [|by intros [= <-]].
  destruct (pfd s) as [slot|]; [|by apply IH].
  destruct (revents slot) as [ev|]; [|by apply IH].
  destruct (rrdp_stream_input w i ev) as [w1|] eqn:E; [|done].
  apply IH. by eapply rrdp_stream_input_none_done.
Qed.

Lemma proc_rrdp_requests_none_done next l : forall k i q,
  none_done l -> none_done (proc_rrdp_requests next l k i q).1.1.
Proof.
  induction l as [|s l IH]; intros k i q H; [done|].
  apply Forall_cons in H as [Hs H].
  rewrite proc_rrdp_requests_cons.
  case_decide; cbn zeta; cbn [fst snd]; (constructor; [|by apply IH]).
  - done.
  - destruct (bool_decide _); [|done]. by destruct (task s).
Qed.

(** X21. DONE is never left behind.  If no session is in state DONE,
    none is after a turn of the loop of [proc_rrdp]: the handler of
    RRDP_HTTP_FIN sets DONE and, before it returns, frees the session
    or sets it to REQ. *)
Theorem proc_rrdp_turn_none_done (next : nat -> option string * list Z)
    (p : poll_result) (w w' : worker) :
  none_done (states w) ->
  proc_rrdp_turn next p w = Done (Some w') ->
  none_done (states w').
Proof.
  intros H. unfold proc_rrdp_turn.
  pose proof (proc_rrdp_requests_none_done next (states w) 0 1 (msgq w) H) as R.
  destruct (proc_rrdp_requests next (states w) 0 1 (msgq w)) as [[l q] i0].
  simpl in R.
  destruct (pollhup p); [done|].
  destruct (bool_decide _); [done|]. destruct (bool_decide _); [done|].
  destruct (pollin p) as [[m c]|].
  - destruct (rrdp_input_handler _ m c) as [w1|] eqn:E; [|done].
    apply rrdp_input_handler_none_done in E; [|done].
    destruct (proc_rrdp_streams _ _ _ w1) as [w2|] eqn:S; [|done].
    intros [= <-]. eapply proc_rrdp_streams_none_done; [|exact S]. exact E.
  - destruct (proc_rrdp_streams _ _ _ _) as [w2|] eqn:S; [|done].
    intros [= <-]. eapply proc_rrdp_streams_none_done; [|exact S]. exact R.
Qed.

(** *** The stream loop, session by session *)

Lemma update_middle (done rest : list rrdp) (q : list ibuf) (s : rrdp)
    (f : rrdp -> rrdp) :
  update {| states := done ++ s :: rest; msgq := q |} (length done) f
  = {| states := done ++ f s :: rest; msgq := q |}.
Proof.
  unfold update, set_states. cbn [states msgq].
  rewrite (alter_lookup _ _ _ s) by (by apply list_lookup_middle).
  by rewrite insert_app_r_alt, Nat.sub_diag by done.
Qed.

Lemma rrdp_failed_middle (done rest : list rrdp) (q : list ibuf) (s : rrdp) :
  rrdp_failed {| states := done ++ s :: rest; msgq := q |} (length done)
  = if bool_decide (task s = DELTA)
    then {| states :=
              done ++ set_state REQ
                        (set_task SNAPSHOT
                           (set_sxml XML_LIVE
                              (set_dxml (free_xml (dxml s)) s))) :: rest;
            msgq := q |}
    else {| states := done ++ rest; msgq := q ++ [Msg_END (id s) 0] |}.
Proof.
  rewrite (rrdp_failed_unfold _ _ s) by (by apply list_lookup_middle).
  destruct (bool_decide _); [by rewrite update_middle|].
  unfold rrdp_done, rrdp_free, ibuf_close, set_states. cbn [states msgq].
  by rewrite delete_middle.
Qed.

Lemma rrdp_stream_input_middle (done rest : list rrdp) (q : list ibuf)
    (s : rrdp) (ev : stream_event) :
  rrdp_stream_input {| states := done ++ s :: rest; msgq := q |}
    (length done) ev
  = match rrdp_stream_input {| states := [s]; msgq := [] |} 0 ev with
    | Done w1 =>
        Done {| states := done ++ states w1 ++ rest; msgq := q ++ msgq w1 |}
    | Errx msg => Errx msg
    end.
Proof.
  rewrite (rrdp_stream_input_outcome _ _ s)
    by (cbn [states]; by apply list_lookup_middle).
  rewrite (rrdp_stream_input_outcome {| states := [s]; msgq := [] |} 0 s)
    by done.
  destruct (stream_outcome s ev) as [o|]; [|done].
  cbn [states msgq take drop app].
  rewrite take_app_length.
  replace (S (length done)) with (length (done ++ [s]))
    by (rewrite length_app; simpl; lia).
  replace (done ++ s :: rest) with ((done ++ [s]) ++ rest)
    by (by rewrite <- app_assoc).
  by rewrite drop_app_length, app_nil_r.
Qed.

Lemma rrdp_stream_input_alone_length (s : rrdp) (ev : stream_event)
    (w1 : worker) :
  rrdp_stream_input {| states := [s]; msgq := [] |} 0 ev = Done w1 ->
  (length (states w1) <= 1)%nat.
Proof.
  intros H. apply rrdp_stream_input_accounted in H as [_ H]. exact H.
Qed.

Lemma proc_rrdp_streams_from (revents : nat -> option stream_event) :
  forall (rest done : list rrdp) (q : list ibuf),
  proc_rrdp_streams revents (length rest) (length done)
    {| states := done ++ rest; msgq := q |}
  = match streams_alone revents rest with
    | Done w1 =>
        Done {| states := done ++ states w1; msgq := q ++ msgq w1 |}
    | Errx msg => Errx msg
    end.
Proof.
  induction rest as [|s rest IH]; intros done q.
  { cbn [proc_rrdp_streams streams_alone length states msgq].
    by rewrite !app_nil_r. }
  assert (proc_rrdp_streams revents (length rest) (S (length done))
            {| states := done ++ s :: rest; msgq := q |}
          = match streams_alone revents rest with
            | Done w2 =>
                Done {| states := done ++ s :: states w2;
                        msgq := q ++ msgq w2 |}
            | Errx msg => Errx msg
            end) as Hskip.
  { specialize (IH (done ++ [s]) q).
    rewrite length_app, Nat.add_1_r, <- !app_assoc in IH.
    cbn [app] in IH. rewrite IH.
    destruct (streams_alone revents rest); [|done].
    by rewrite <- app_assoc. }
  cbn [proc_rrdp_streams streams_alone length states].
  rewrite list_lookup_middle by done. unfold stream_alone.
  destruct (pfd s) as [slot|].
  2:{ rewrite Hskip. by destruct (streams_alone revents rest). }
  destruct (revents slot) as [ev|].
  2:{ rewrite Hskip. by destruct (streams_alone revents rest). }
  rewrite rrdp_stream_input_middle.
  destruct (rrdp_stream_input {| states := [s]; msgq := [] |} 0 ev)
    as [w1|msg] eqn:E; [|done].
  pose proof (rrdp_stream_input_alone_length _ _ _ E) as L1.
  cbn [states msgq]. rewrite !length_app. cbn [length].
  destruct (states w1) as [|s1 [|s2 l1]] eqn:E1; cbn [length] in *; [| |lia].
  - replace (S (length done)
             - (length done + S (length rest)
                - (length done + (0 + length rest))))%nat
      with (length done) by lia.
    cbn [app]. rewrite IH.
    destruct (streams_alone revents rest); [|done].
    cbn [app]. by rewrite <- app_assoc.
  - replace (S (length done)
             - (length done + S (length rest)
                - (length done + (1 + length rest))))%nat
      with (length (done ++ [s1])) by (rewrite length_app; simpl; lia).
    replace (done ++ [s1] ++ rest) with ((done ++ [s1]) ++ rest)
      by (by rewrite <- app_assoc).
    rewrite IH.
    destruct (streams_alone revents rest); [|done].
    cbn [app]. by rewrite <- !app_assoc.
Qed.

(** X23. The stream loop takes the sessions one by one.  The loop over
    all sessions, which frees sessions while it walks the queue, ends
    as if each session had been alone in the worker: what is left is
    what is left of each session, in order, and the messages are the
    ones of each session, in order, behind those queued before; the
    loop exits with an error where the first session does that exits
    alone.  No session is passed over and none is taken twice. *)
Theorem proc_rrdp_streams_sessionwise (revents : nat -> option stream_event)
    (w : worker) :
  proc_rrdp_streams revents (length (states w)) 0 w
  = match streams_alone revents (states w) with
    | Done w1 => Done {| states := states w1; msgq := msgq w ++ msgq w1 |}
    | Errx msg => Errx msg
    end.
Proof.
  destruct w as [l q]. apply (proc_rrdp_streams_from revents l [] q).
Qed.

(** *** A message is for one session *)

Lemma other_sessions_update (w : worker) (i : nat) (s : rrdp)
    (f : rrdp -> rrdp) :
  states w !! i = Some s -> id (f s) = id s ->
  other_sessions (id s) (update w i f) = other_sessions (id s) w.
Proof.
  intros Hs Hf. unfold other_sessions, update. cbn [states set_states].
  rewrite (alter_lookup _ _ _ s) by done.
  revert i Hs. generalize (states w). intros l.
  induction l as [|x l IH]; intros [|i] Hs; simplify_eq/=.
  - by rewrite Hf, Z.eqb_refl.
  - destruct (negb _); [f_equal|]; eauto.
Qed.

Lemma other_sessions_free (w : worker) (i : nat) (s : rrdp) :
  states w !! i = Some s ->
  other_sessions (id s) (rrdp_free w i) = other_sessions (id s) w.
Proof.
  intros Hs. unfold other_sessions, rrdp_free. cbn [states set_states].
  revert i Hs. generalize (states w). intros l.
  induction l as [|x l IH]; intros [|i] Hs; simplify_eq/=.
  - by rewrite Z.eqb_refl.
  - destruct (negb _); [f_equal|]; eauto.
Qed.

Lemma update_same_id (w : worker) (i : nat) (s : rrdp) (f : rrdp -> rrdp) :
  states w !! i = Some s ->
  states (update w i f) !! i = Some (f s).
Proof.
  intros Hs. unfold update. cbn [states set_states].
  by rewrite list_lookup_alter_eq, Hs.
Qed.

Lemma other_sessions_failed (w : worker) (i : nat) (s : rrdp) :
  states w !! i = Some s ->
  other_sessions (id s) (rrdp_failed w i) = other_sessions (id s) w.
Proof.
  intros Hs. rewrite (rrdp_failed_unfold _ _ s) by done.
  destruct (bool_decide _).
  - by apply other_sessions_update.
  - by apply (other_sessions_free w i s).
Qed.

Lemma other_sessions_input_done (w : worker) (i : nat) (s : rrdp) (id' : Z)
    (c : completion) :
  states w !! i = Some s ->
  other_sessions (id s) (rrdp_input_done w i id' c)
  = other_sessions (id s) w.
Proof.
  intros Hs. unfold rrdp_input_done. rewrite Hs.
  pose proof (other_sessions_failed w i s Hs) as F.
  pose proof (other_sessions_free w i s Hs) as D.
  destruct (status s =? 200).
  - destruct (negb _); [done|]. destruct (0 <? _); [done|].
    destruct (task s).
    + pose proof (update_same_id w i s (set_task (notification_done c)) Hs)
        as H1.
      pose proof (other_sessions_update w i s
                    (set_task (notification_done c)) Hs eq_refl) as U1.
      destruct (notification_done c).
      * rewrite <- U1.
        apply (other_sessions_free (update w i _) i _ H1).
      * rewrite <- U1.
        by apply (other_sessions_update (update w i _) i _ _ H1).
      * rewrite <- U1.
        by apply (other_sessions_update (update w i _) i _ _ H1).
    + done.
    + destruct (notification_delta_done c); [done|].
      by apply other_sessions_update.
  - by destruct (_ && _).
Qed.

(** X24. A message is for one session.  Whatever a message makes the
    handler do, the sessions with another id than the one in the
    message are afterwards the same, in the same order: none of them
    is changed, freed or added. *)
Theorem rrdp_input_handler_frame (w w' : worker) (m : imsg) (c : completion) :
  rrdp_input_handler w m c = Done w' ->
  other_sessions (msg_id m) w' = other_sessions (msg_id m) w.
Proof.
  destruct m as [infd id' l n sid ser lm|infd id'|infd id' st lm|infd id' st|];
    cbn [rrdp_input_handler msg_id].
  - destruct (negb _); [done|]. intros [= <-].
    unfold other_sessions, rrdp_new. cbn [states set_states].
    rewrite List.filter_app. cbn [List.filter id].
    by rewrite Z.eqb_refl, app_nil_r.
  - destruct (infd =? -1); [done|].
    destruct (rrdp_get w id') as [i|] eqn:G; [|done].
    destruct (rrdp_get_Some _ _ _ G) as (s & Hs & <-). rewrite Hs.
    destruct (negb _); [done|]. intros [= <-].
    by apply other_sessions_update.
  - destruct (negb _); [done|].
    destruct (rrdp_get w id') as [i|] eqn:G; [|done].
    destruct (rrdp_get_Some _ _ _ G) as (s & Hs & <-). rewrite Hs.
    destruct (bool_decide (state s = ERROR)).
    { intros [= <-]. by apply other_sessions_failed. }
    destruct (negb _); [done|]. cbn [NOTYET andb]. intros [= <-].
    pose proof (update_same_id w i s
                  (fun s => set_state DONE (set_status st s)) Hs) as H1.
    rewrite <- (other_sessions_update w i s
                  (fun s => set_state DONE (set_status st s)) Hs eq_refl).
    apply (other_sessions_input_done (update w i _) i _ _ c H1).
  - destruct (rrdp_get w id') as [i|] eqn:G; [|done].
    destruct (rrdp_get_Some _ _ _ G) as (s & Hs & <-). rewrite Hs.
    set (s1 := set_file_pending _ _).
    assert (id s1 = id s) as E by (unfold s1; by destruct (st =? 0)).
    pose proof (update_same_id w i s (fun _ => s1) Hs) as H1.
    pose proof (other_sessions_update w i s (fun _ => s1) Hs E) as U1.
    destruct (_ && _); intros [= <-]; [|done].
    rewrite <- U1, <- E.
    apply (other_sessions_input_done (update w i _) i s1 _ c H1).
  - done.
Qed.

(** *** The hash discipline, iteration by iteration *)

Lemma stream_alone_outcome (revents : nat -> option stream_event)
    (s : rrdp) :
  stream_alone revents s =
    match event_of revents s with
    | None => Done {| states := [s]; msgq := [] |}
    | Some ev =>
      match stream_outcome s ev with
      | Done o => Done {| states := o.1; msgq := o.2 |}
      | Errx msg => Errx msg
      end
    end.
Proof.
  unfold stream_alone, event_of.
  destruct (pfd s) as [slot|]; [|done].
  destruct (revents slot) as [ev|]; [|done].
  rewrite (rrdp_stream_input_outcome _ 0 s) by done.
  destruct (stream_outcome s ev) as [o|]; [|done].
  cbn [states msgq take drop app]. by rewrite app_nil_r.
Qed.





(** *** The message of the parent and the end of the stream *)

Lemma proc_rrdp_requests_one (next : nat -> option string * list Z)
    (s : rrdp) (q : list ibuf) :
  state s <> REQ ->
  proc_rrdp_requests next [s] 0 1 q = ([set_pfd (Some 1%nat) s], q, 2%nat).
Proof.
  intros H. rewrite proc_rrdp_requests_cons. case_decide as D.
  { unfold MAX_SESSIONS in D. lia. }
  by rewrite !bool_decide_eq_false_2 by done.
Qed.

Lemma proc_rrdp_requests_one_req (next : nat -> option string * list Z)
    (s : rrdp) (q : list ibuf) :
  state s = REQ ->
  exists s' q',
    proc_rrdp_requests next [s] 0 1 q = ([s'], q', 2%nat) /\
    id s' = id s /\ state s' = WAITING.
Proof.
  intros H. rewrite proc_rrdp_requests_cons. case_decide as D.
  { unfold MAX_SESSIONS in D. lia. }
  rewrite !bool_decide_eq_true_2 by done. cbv zeta. cbn [proc_rrdp_requests].
  eexists _, _. split; [reflexivity|].
  by destruct (task s).
Qed.

Lemma proc_rrdp_streams_one (revents : nat -> option stream_event)
    (s : rrdp) (q : list ibuf) (ev : stream_event) :
  event_of revents s = Some ev ->
  proc_rrdp_streams revents 1 0 {| states := [s]; msgq := q |} =
    match stream_outcome s ev with
    | Done o => Done {| states := o.1; msgq := q ++ o.2 |}
    | Errx msg => Errx msg
    end.
Proof.
  intros E. pose proof (proc_rrdp_streams_from revents [s] [] q) as F.
  cbn [length app] in F. rewrite F. cbn [streams_alone].
  rewrite stream_alone_outcome, E.
  destruct (stream_outcome s ev) as [o|]; [|done].
  cbn [states msgq app]. by rewrite !app_nil_r.
Qed.

(** A turn in which the parent's message is RRDP_HTTP_FIN for the one
    session of the worker, and the session is neither PARSED nor
    ERROR. *)
Lemma proc_rrdp_turn_fin_bad_state (next : nat -> option string * list Z)
    (s : rrdp) (q : list ibuf) (status' : Z) (last_mod' : option string)
    (c : completion) (revents : nat -> option stream_event) :
  state s <> ERROR -> state s <> PARSED ->
  proc_rrdp_turn next
    (poll_message (In_HTTP_FIN (-1) (id s) status' last_mod') c revents)
    {| states := [s]; msgq := q |}
  = Errx "bad internal state".
Proof.
  intros H1 H2. unfold proc_rrdp_turn, poll_message.
  cbn [states msgq pollhup pollout pollin Rrdp.revents fmap option_fmap
       option_map from_option].
  assert (exists s' q', proc_rrdp_requests next [s] 0 1 q = ([s'], q', 2%nat)
            /\ id s' = id s /\ state s' <> ERROR /\ state s' <> PARSED)
    as (s' & q' & -> & Hid & H1' & H2').
  { destruct (decide (state s = REQ)) as [R|R].
    - destruct (proc_rrdp_requests_one_req next s q R)
        as (s' & q' & E & Hid & W).
      exists s', q'. rewrite W. by repeat split.
    - exists (set_pfd (Some 1%nat) s), q.
      by rewrite proc_rrdp_requests_one. }
  rewrite !bool_decide_eq_false_2 by done.
  rewrite (http_fin_bad_state _ _ _ 0 s'); try done.
  unfold rrdp_get. cbn [states rrdp_get_from]. by rewrite Hid, Z.eqb_refl.
Qed.

(** C5. The fallback of a failed delta is cut short by the exit of the
    worker.  The session is the one session of the worker, on a DELTA
    and PARSING, and the digest of the body differs from the expected
    hash.  The turn that reads the end of the stream takes the
    fallback as specified: the delta handler is freed, a snapshot
    handler installed, the session is in REQ on the task SNAPSHOT and
    nothing is sent.  But the RRDP_HTTP_FIN that concludes the delta
    fetch, whatever its status, then finds a session that is not
    PARSED and the worker ends in [errx], before any of the snapshot
    is read and without an END; it does the same when the message is
    served before the end of the stream is read. *)
Theorem delta_failure_ends_worker (next : nat -> option string * list Z)
    (s : rrdp) (q : list ibuf) (status' : Z) (last_mod' : option string)
    (c : completion) (revents : nat -> option stream_event) :
  task s = DELTA -> state s = PARSING -> hash s <> SHA256_Final (ctx s) ->
  let failed :=
    set_state REQ
      (set_task SNAPSHOT
         (set_sxml XML_LIVE
            (set_dxml match dxml s with
                      | XML_NULL => XML_NULL
                      | _ => XML_FREED
                      end
               (set_infd (-1) (set_pfd (Some 1%nat) s))))) in
  let fin := In_HTTP_FIN (-1) (id s) status' last_mod' in
  proc_rrdp_turn next (poll_streams (fun _ => Some end_of_file))
    {| states := [s]; msgq := q |}
  = Done (Some {| states := [failed]; msgq := q |}) /\
  proc_rrdp_turn next (poll_message fin c revents)
    {| states := [failed]; msgq := q |}
  = Errx "bad internal state" /\
  proc_rrdp_turn next (poll_message fin c revents)
    {| states := [s]; msgq := q |}
  = Errx "bad internal state".
Proof.
  intros Ht Hst Hh failed fin. split; [|split].
  - unfold proc_rrdp_turn, poll_streams.
    cbn [states msgq pollhup pollout pollin Rrdp.revents fmap option_fmap
         option_map from_option].
    rewrite proc_rrdp_requests_one by (rewrite Hst; discriminate).
    rewrite !bool_decide_eq_false_2 by done.
    rewrite drop_0. cbn [states length].
    rewrite (proc_rrdp_streams_one _ _ _ end_of_file) by done.
    unfold stream_outcome, end_of_file, failure_outcome.
    cbn [ev_read state task hash ctx set_pfd set_infd dxml id].
    rewrite Hst, Ht.
    rewrite (bool_decide_eq_true_2 (PARSING = PARSING)) by done.
    rewrite (bool_decide_eq_false_2 (DELTA = NOTIFICATION)) by done.
    rewrite (bool_decide_eq_false_2 (hash s = _)) by done.
    rewrite (bool_decide_eq_true_2 (DELTA = DELTA)) by done.
    cbn [negb andb fst snd]. by rewrite app_nil_r.
  - change (id s) with (id failed) in fin.
    by apply proc_rrdp_turn_fin_bad_state.
  - apply proc_rrdp_turn_fin_bad_state; rewrite Hst; discriminate.
Qed.

(** C7. HTTP status 304 for a NOTIFICATION fetch completes the session
    only when the end of the stream has been read first.  The session
    is the one session of the worker and on a NOTIFICATION.  A turn in
    which the parent reports 304 frees a PARSED session and leaves END
    with ok = 1 as the one message queued for it, neither FILE nor
    SESSION; it frees a session in ERROR with END ok = 0; and on a
    session in any other state, one still PARSING among them, the
    worker ends in [errx], whatever the streams report in that turn,
    the end of the stream included: the message is served before the
    streams are read.  A PARSING session becomes PARSED in a turn of
    its own that reads the end of the stream. *)
Theorem not_modified_by_state (next : nat -> option string * list Z)
    (s : rrdp) (q : list ibuf) (last_mod' : option string) (c : completion)
    (revents : nat -> option stream_event) :
  task s = NOTIFICATION ->
  proc_rrdp_turn next
    (poll_message (In_HTTP_FIN (-1) (id s) 304 last_mod') c revents)
    {| states := [s]; msgq := q |}
  = match state s with
    | PARSED => Done (Some {| states := []; msgq := q ++ [Msg_END (id s) 1] |})
    | ERROR => Done (Some {| states := []; msgq := q ++ [Msg_END (id s) 0] |})
    | _ => Errx "bad internal state"
    end /\
  (state s = PARSING ->
   proc_rrdp_turn next (poll_streams (fun _ => Some end_of_file))
     {| states := [s]; msgq := q |}
   = Done (Some {| states := [set_state PARSED
                                (set_infd (-1) (set_pfd (Some 1%nat) s))];
                   msgq := q |})).
Proof.
  intros Ht. split.
  - assert (state s = PARSED \/ state s = ERROR ->
            proc_rrdp_turn next
              (poll_message (In_HTTP_FIN (-1) (id s) 304 last_mod') c revents)
              {| states := [s]; msgq := q |}
            = Done (Some {| states := [];
                            msgq := q ++ [Msg_END (id s)
                                            (if bool_decide (state s = PARSED)
                                             then 1 else 0)] |})) as Fin.
    { intros Hst. unfold proc_rrdp_turn, poll_message.
      cbn [states msgq pollhup pollout pollin Rrdp.revents fmap option_fmap
           option_map from_option].
      rewrite proc_rrdp_requests_one by (destruct Hst as [-> | ->]; done).
      rewrite !bool_decide_eq_false_2 by done.
      rewrite drop_0.
      rewrite (notification_not_modified _ _ 0 (set_pfd (Some 1%nat) s));
        [|unfold rrdp_get; cbn [states rrdp_get_from set_pfd id];
          by rewrite Z.eqb_refl|done|done].
      cbn [state set_pfd id states msgq delete list_delete].
      by destruct Hst as [-> | ->]. }
    destruct (state s) eqn:Hst;
      try (apply proc_rrdp_turn_fin_bad_state; rewrite Hst; discriminate).
    + rewrite Fin by auto. by rewrite bool_decide_eq_true_2.
    + rewrite Fin by auto. by rewrite bool_decide_eq_false_2.
  - intros Hst. unfold proc_rrdp_turn, poll_streams.
    cbn [states msgq pollhup pollout pollin Rrdp.revents fmap option_fmap
         option_map from_option].
    rewrite proc_rrdp_requests_one by (rewrite Hst; discriminate).
    rewrite !bool_decide_eq_false_2 by done.
    rewrite drop_0. cbn [states length].
    rewrite (proc_rrdp_streams_one _ _ _ end_of_file) by done.
    unfold stream_outcome, end_of_file.
    cbn [ev_read state task hash ctx set_pfd set_infd].
    rewrite Hst, Ht.
    rewrite !(bool_decide_eq_true_2 (PARSING = PARSING)) by done.
    rewrite (bool_decide_eq_true_2 (NOTIFICATION = NOTIFICATION)) by done.
    cbn [negb andb fst snd]. by rewrite app_nil_r.
Qed.

End WorkerFurther.

(** ** The publish records *)

Section PublishFurther.
Context {hasher : Hasher}.
Import Rrdp Publish.

Lemma string_append_cons (a : ascii) (s t : string) :
  String a s +:+ t = String a (s +:+ t).
Proof. reflexivity. Qed.

Lemma string_length_append (s t : string) :
  String.length (s +:+ t) = (String.length s + String.length t)%nat.
Proof.
  induction s as [|a s IH]; [done|].
  rewrite string_append_cons. simpl. by rewrite IH.
Qed.

Lemma substring_all (s : string) : substring 0 (String.length s) s = s.
Proof. induction s as [|a s IH]; simpl; [done|]. by rewrite IH. Qed.

Lemma string_append_nil_r (s : string) : s +:+ EmptyString = s.
Proof.
  induction s as [|a s IH]; [done|]. by rewrite string_append_cons, IH.
Qed.

Lemma string_append_assoc (s t u : string) :
  (s +:+ t) +:+ u = s +:+ (t +:+ u).
Proof.
  induction s as [|a s IH]; [done|]. by rewrite !string_append_cons, IH.
Qed.

Lemma sole_newline (buf : string) :
  (Z.of_nat (String.length buf) =? 1)
  && bool_decide (String.get 0 buf = Some "010"%char)
  = String.eqb buf newline.
Proof.
  destruct buf as [|a [|b buf]]; [done| |].
  - cbn [String.length String.get Z.of_nat Z.eqb Pos.of_succ_nat Pos.eqb andb].
    unfold newline. cbn [String.eqb].
    destruct (Ascii.eqb_spec a "010"%char) as [->|N].
    + by rewrite bool_decide_eq_true_2.
    + rewrite bool_decide_eq_false_2; [done|]. by intros [= ?].
  - replace (Z.of_nat (String.length (String a (String b buf))) =? 1)
      with false.
    + unfold newline. cbn [String.eqb andb]. by destruct (Ascii.eqb a _).
    + symmetry. apply Z.eqb_neq. cbn [String.length]. lia.
Qed.

Lemma publish_add_content_step (pxml : publish_xml) (buf : string) :
  data_ok pxml ->
  pub_data_length pxml + Z.of_nat (String.length buf) <= INT_MAX ->
  publish_add_content pxml buf (Z.of_nat (String.length buf)) =
    if String.eqb buf newline then pxml
    else {| pub_uri := pub_uri pxml;
            pub_data := Some (default EmptyString (pub_data pxml) +:+ buf);
            pub_hash := pub_hash pxml;
            pub_data_length
              := pub_data_length pxml + Z.of_nat (String.length buf);
            pub_type := pub_type pxml |}.
Proof.
  intros Hok Hmax. unfold publish_add_content. rewrite sole_newline.
  destruct (String.eqb buf newline); [done|].
  unfold data_ok in Hok. rewrite Hok, !Nat2Z.id, !substring_all.
  rewrite int_small; [done|]. unfold INT_MIN, INT_MAX in *. lia.
Qed.

Lemma add_chunks_content (chunks : list string) :
  forall pxml : publish_xml,
  data_ok pxml ->
  pub_data_length pxml + Z.of_nat (String.length (content chunks)) <= INT_MAX ->
  let p' := add_chunks pxml chunks in
  default EmptyString (pub_data p')
    = default EmptyString (pub_data pxml) +:+ content chunks /\
  pub_data_length p'
    = pub_data_length pxml + Z.of_nat (String.length (content chunks)) /\
  pub_uri p' = pub_uri pxml /\ pub_hash p' = pub_hash pxml /\
  pub_type p' = pub_type pxml.
Proof.
  induction chunks as [|buf chunks IH]; intros pxml Hok Hmax.
  { unfold add_chunks, content.
    cbn [fold_left fold_right List.filter String.length].
    rewrite string_append_nil_r. split_and!; try done. lia. }
  unfold add_chunks, content in *. cbn [fold_left List.filter] in *.
  assert (pub_data_length pxml + Z.of_nat (String.length buf) <= INT_MAX
          \/ String.eqb buf newline = true) as Hb.
  { destruct (String.eqb buf newline); [by right|left].
    cbn [negb fold_right] in Hmax. rewrite string_length_append in Hmax. lia. }
  assert (publish_add_content pxml buf (Z.of_nat (String.length buf)) =
          if String.eqb buf newline then pxml
          else {| pub_uri := pub_uri pxml;
                  pub_data := Some (default EmptyString (pub_data pxml) +:+ buf);
                  pub_hash := pub_hash pxml;
                  pub_data_length
                    := pub_data_length pxml + Z.of_nat (String.length buf);
                  pub_type := pub_type pxml |}) as ->.
  { destruct Hb as [Hb|Hb]; [by apply publish_add_content_step|].
    unfold publish_add_content. by rewrite sole_newline, Hb. }
  destruct (String.eqb buf newline); cbn [negb fold_right] in *.
  { by apply IH. }
  rewrite string_length_append in Hmax.
  edestruct (IH {| pub_uri := pub_uri pxml;
                   pub_data := Some (default EmptyString (pub_data pxml) +:+ buf);
                   pub_hash := pub_hash pxml;
                   pub_data_length
                     := pub_data_length pxml + Z.of_nat (String.length buf);
                   pub_type := pub_type pxml |})
    as (E1 & E2 & E3 & E4 & E5).
  { unfold data_ok in *. simpl. rewrite string_length_append. lia. }
  { simpl. lia. }
  simpl in *. rewrite E1, E2, string_append_assoc, string_length_append.
  split_and!; try done. lia.
Qed.

(** X18. From the parser's chunks to the FILE message.  A record made
    by [new_publish_xml] (with no hash, or one of 32 bytes) takes the
    character data in any number of chunks; [publish_done] then
    decodes their concatenation without the chunks that are a lone
    newline, queues one FILE message with the uri, the type, the hash
    for every type but PUB_ADD, and the decoded bytes, and counts the
    file as pending.  No data at all is sent as an empty file without
    asking the decoder, and data that do not decode give -1 and send
    nothing. *)
Theorem publish_record_sent (decode : string -> option (list Z))
    (w : worker) (i : nat) (s : rrdp) (type : publish_type)
    (uri : option string) (hash : list Z) (hlen : Z) (chunks : list string) :
  hlen = 0 \/ hlen = 32 ->
  states w !! i = Some s ->
  Z.of_nat (String.length (content chunks)) <= INT_MAX ->
  exists p0,
    new_publish_xml type uri hash hlen = Done p0 /\
    publish_done decode w i (add_chunks p0 chunks) =
      match (if String.eqb (content chunks) EmptyString then Some []
             else decode (content chunks)) with
      | None => (-1, w)
      | Some data =>
          (0, {| states :=
                   <[i:=set_file_pending (uint (file_pending s + 1)) s]>
                     (states w);
                 msgq :=
                   msgq w ++
                   [Msg_FILE (id s) type
                      (if bool_decide (type = PUB_ADD) then None
                       else Some (if hlen =? 0 then repeat 0 32
                                  else take 32 hash))
                      uri data] |})
      end.
Proof.
  intros Hh Hs Hmax.
  set (p0 := {| pub_uri := uri; pub_data := None;
                pub_hash := if hlen =? 0 then repeat 0 32 else take 32 hash;
                pub_data_length := 0; pub_type := type |}).
  exists p0. split.
  { unfold new_publish_xml, p0. by destruct Hh as [->| ->]. }
  destruct (add_chunks_content chunks p0) as (E1 & E2 & E3 & E4 & E5).
  { done. }
  { simpl. lia. }
  unfold publish_done. rewrite Hs, E1, E2, E3, E4, E5.
  cbn [p0 pub_data pub_data_length pub_uri pub_hash pub_type default
       from_option Datatypes.id].
  change (EmptyString +:+ content chunks) with (content chunks).
  rewrite Z.add_0_l.
  destruct (String.eqb_spec (content chunks) EmptyString) as [->|Hne].
  - change (0 <? Z.of_nat (String.length EmptyString)) with false. cbn iota.
    by rewrite (update_lookup _ _ _ s).
  - replace (0 <? Z.of_nat (String.length (content chunks))) with true.
    2:{ symmetry. apply Z.ltb_lt. destruct (content chunks); [done|].
        cbn [String.length]. lia. }
    destruct (decode (content chunks)) as [data|]; [|done].
    by rewrite (update_lookup _ _ _ s).
Qed.

End PublishFurther.

(** ** [strip_non_b64] *)

Section StripFurther.

Lemma b64_kept_cons (c : Z) (s : list Z) :
  b64_kept (c :: s) =
    if c =? 0 then [] else if b64_char c then c :: b64_kept s else b64_kept s.
Proof.
  unfold b64_kept. cbn [until_nul]. destruct (c =? 0); [done|].
  cbn [List.filter]. by destruct (b64_char c).
Qed.

Lemma strip_non_b64_loop_spec (rest : list Z) :
  forall (pre post out : list Z) (k : nat),
  (k <= length pre)%nat ->
  (length pre + length rest <= length out)%nat ->
  exists out',
    strip_non_b64_loop (length rest) (pre ++ rest ++ post)
      (Z.of_nat (length pre)) (Z.of_nat (length pre) - Z.of_nat k) out
    = Some (Z.of_nat (k + length (b64_kept rest)), out') /\
    length out' = length out /\
    take k out' = take k out /\
    take (length (b64_kept rest)) (drop k out') = b64_kept rest /\
    (In 0 rest -> out' !! (k + length (b64_kept rest))%nat = Some 0) /\
    (~ In 0 rest ->
     drop (k + length (b64_kept rest)) out'
     = drop (k + length (b64_kept rest)) out) /\
    drop (S (k + length (b64_kept rest))) out'
    = drop (S (k + length (b64_kept rest))) out.
Proof.
  induction rest as [|c rest IH]; intros pre post out k Hk Hlen.
  { exists out. cbn [strip_non_b64_loop length b64_kept until_nul List.filter].
    rewrite Nat.add_0_r. split_and!; try done.
    f_equal. f_equal. lia. }
  cbn [strip_non_b64_loop length]. rewrite Nat2Z.id, <- app_comm_cons.
  rewrite list_lookup_middle by done. rewrite b64_kept_cons.
  replace (Z.to_nat (Z.of_nat (length pre)
                     - (Z.of_nat (length pre) - Z.of_nat k))) with k by lia.
  cbn [length] in Hlen.
  destruct (b64_char c) eqn:Hb.
  - unfold store. rewrite decide_True by lia.
    destruct (Z.eqb_spec c 0) as [->|Hc].
    + exists (<[k:=0]> out). cbn [length]. rewrite Nat.add_0_r.
      split_and!.
      * f_equal. f_equal. lia.
      * by rewrite length_insert.
      * by rewrite take_insert_ge by lia.
      * done.
      * intros _. apply list_lookup_insert_eq. lia.
      * intros H. exfalso. apply H. by left.
      * by rewrite drop_insert_lt by lia.
    + destruct (IH (pre ++ [c]) post (<[k:=c]> out) (S k))
        as (out' & E & L & T & K & Z0 & D0 & D).
      { rewrite length_app. simpl. lia. }
      { rewrite length_app, length_insert. simpl. lia. }
      rewrite length_app, <- app_assoc in E. cbn [length app] in E.
      exists out'. cbn [length].
      replace (Z.of_nat (length pre) + 1)
        with (Z.of_nat (length pre + 1)) by lia.
      replace (Z.of_nat (length pre) - Z.of_nat k)
        with (Z.of_nat (length pre + 1) - Z.of_nat (S k)) by lia.
      rewrite E, length_insert in *.
      replace (k + S (length (b64_kept rest)))%nat
        with (S k + length (b64_kept rest))%nat by lia.
      assert (out' !! k = Some c) as Hk'.
      { apply (f_equal (fun l => l !! k)) in T.
        rewrite !lookup_take_lt in T by lia. rewrite T.
        apply list_lookup_insert_eq. lia. }
      split_and!; try done.
      * apply (f_equal (take k)) in T.
        rewrite !take_take, Nat.min_l in T by lia.
        by rewrite T, take_insert_ge by lia.
      * rewrite (drop_S _ c k) by done. cbn [take]. f_equal.
        exact K.
      * intros [H|H]; [done|]. by apply Z0.
      * intros H. rewrite D0.
        -- by rewrite drop_insert_lt by lia.
        -- intros H'. apply H. by right.
      * by rewrite D, drop_insert_lt by lia.
  - assert (c <> 0) as Hc by (intros ->; done).
    apply Z.eqb_neq in Hc. rewrite Hc.
    destruct (IH (pre ++ [c]) post out k)
      as (out' & E & L & T & K & Z0 & D0 & D).
    { rewrite length_app. simpl. lia. }
    { rewrite length_app. simpl. lia. }
    rewrite length_app, <- app_assoc in E. cbn [length app] in E.
    exists out'.
    replace (Z.of_nat (length pre) + 1)
      with (Z.of_nat (length pre + 1)) by lia.
    replace (Z.of_nat (length pre) - Z.of_nat k + 1)
      with (Z.of_nat (length pre + 1) - Z.of_nat k) by lia.
    rewrite E. split_and!; try done.
    + intros [H|H]; [by apply Z.eqb_neq in Hc|]. by apply Z0.
    + intros H. apply D0. intros H'. apply H. by right.
Qed.

(** X19. What [strip_non_b64] writes.  For [len] characters that [str]
    holds and [out] has room for, the call returns the number of
    characters it kept and [out] starts with them: the letters, digits
    and [+ / =] of [str] in front of its first NUL, in their order.
    A NUL among the [len] characters is written behind them; without
    one nothing is written there, so the result is not a C string.
    The rest of [out] is as before. *)
Theorem strip_non_b64_spec (str out : list Z) (len : Z) :
  0 <= len <= Z.of_nat (length str) ->
  len <= Z.of_nat (length out) ->
  let kept := b64_kept (take (Z.to_nat len) str) in
  exists out',
    strip_non_b64 (Some str) len (Some out)
      = Some (Z.of_nat (length kept), Some out') /\
    take (length kept) out' = kept /\
    length out' = length out /\
    (In 0 (take (Z.to_nat len) str) -> out' !! length kept = Some 0) /\
    (~ In 0 (take (Z.to_nat len) str) ->
     drop (length kept) out' = drop (length kept) out) /\
    drop (S (length kept)) out' = drop (S (length kept)) out.
Proof.
  intros Hlen Hout kept.
  destruct (strip_non_b64_loop_spec (take (Z.to_nat len) str) []
              (drop (Z.to_nat len) str) out 0)
    as (out' & E & L & T & K & Z0 & D0 & D).
  { simpl. lia. }
  { rewrite length_take. simpl. lia. }
  rewrite length_take, Nat.min_l in E by lia.
  cbn [app length] in E. rewrite take_drop in E.
  exists out'. unfold strip_non_b64.
  change (Z.of_nat 0 - Z.of_nat 0) with 0 in E. change (Z.of_nat 0) with 0 in E.
  rewrite E. by rewrite drop_0 in K.
Qed.

End StripFurther.

(** ** [rsync_uri_parse] *)

Section RsyncFurther.

Lemma tolower_nonzero (y : Z) : 0 < y < 256 -> tolower y <> 0.
Proof. unfold tolower, isupper. intros H. destruct (_ && _); lia. Qed.

Lemma strncasecmp_zero (p : list Z) :
  plain p -> forall s, is_cstring s ->
  strncasecmp s p (length p) = 0 <-> map tolower (take (length p) s) = p.
Proof.
  intros Hp. induction Hp as [|x p [Hx Lx] Hp IH]; intros s Hs.
  { by rewrite take_0. }
  cbn [length strncasecmp]. unfold char_at. cbn [nth].
  rewrite (uchar_small x) by lia. rewrite Lx.
  destruct s as [|y s].
  { cbn [nth]. change (tolower (uchar 0)) with 0.
    destruct (Z.eqb_spec 0 x); [lia|]. split; [lia|done]. }
  apply Forall_cons in Hs as [Hy Hs]. cbn [nth].
  rewrite (uchar_small y) by lia.
  cbn [take map drop]. rewrite !drop_0.
  destruct (Z.eqb_spec (tolower y) x) as [E|N].
  - destruct (Z.eqb_spec (tolower y) 0) as [Z0|_].
    { by apply tolower_nonzero in Z0. }
    rewrite (IH s Hs). split; [by intros ->; rewrite E|].
    by intros [= _ ?].
  - split; [lia|]. by intros [= ? _].
Qed.

Lemma strcasecmp_zero (s : list Z) :
  is_cstring s -> forall p, plain p ->
  strcasecmp s p = 0 <-> map tolower s = p.
Proof.
  intros Hs. induction Hs as [|y s Hy Hs IH]; intros p Hp.
  - cbn [strcasecmp map]. unfold char_at. cbn [nth].
    change (tolower (uchar 0)) with 0.
    destruct Hp as [|x p [Hx Lx] Hp]; [done|]. cbn [nth].
    rewrite (uchar_small x), Lx by lia. split; [lia|done].
  - cbn [strcasecmp map]. unfold char_at. cbn [nth].
    rewrite (uchar_small y) by lia.
    pose proof (tolower_nonzero y Hy) as Ny.
    destruct Hp as [|x p [Hx Lx] Hp].
    + cbn [nth]. change (tolower (uchar 0)) with 0.
      destruct (Z.eqb_spec (tolower y) 0); [done|]. split; [lia|done].
    + cbn [nth drop]. rewrite drop_0, (uchar_small x), Lx by lia.
      destruct (Z.eqb_spec (tolower y) x) as [E|N].
      * destruct (Z.eqb_spec (tolower y) 0); [done|].
        rewrite (IH p Hp). split; [by intros ->; rewrite E|].
        by intros [= _ ?].
      * split; [lia|]. by intros [= ? _].
Qed.

Lemma strchr_Some (s : list Z) (c : Z) : forall k,
  strchr s c = Some k ->
  exists pre post, s = pre ++ c :: post /\ length pre = k /\ ~ In c pre.
Proof.
  induction s as [|x s IH]; intros k H; [done|]. cbn [strchr] in H.
  destruct (Z.eqb_spec x c) as [->|N].
  - injection H as <-. exists [], s. split_and!; [done|done|intros []].
  - destruct (strchr s c) as [k'|]; [|done]. injection H as <-.
    destruct (IH k' eq_refl) as (pre & post & -> & <- & Hn).
    exists (x :: pre), post. split_and!; [done|done|].
    intros [?|?]; [done|by apply Hn].
Qed.

Lemma strchr_None (s : list Z) (c : Z) : strchr s c = None -> ~ In c s.
Proof.
  induction s as [|x s IH]; [by intros _ []|]. cbn [strchr].
  destruct (Z.eqb_spec x c) as [->|N]; [done|].
  destruct (strchr s c); [done|]. intros _ [?|?]; [done|by apply IH].
Qed.

Lemma strchr_first (pre post : list Z) (c : Z) :
  ~ In c pre -> strchr (pre ++ c :: post) c = Some (length pre).
Proof.
  induction pre as [|x pre IH]; intros H; cbn [strchr app length].
  - by rewrite Z.eqb_refl.
  - destruct (Z.eqb_spec x c) as [->|N]; [exfalso; apply H; by left|].
    rewrite IH; [done|]. intros ?. apply H. by right.
Qed.

Lemma strchr_absent (s : list Z) (c : Z) : ~ In c s -> strchr s c = None.
Proof.
  induction s as [|x s IH]; intros H; [done|]. cbn [strchr].
  destruct (Z.eqb_spec x c) as [->|N]; [exfalso; apply H; by left|].
  rewrite IH; [done|]. intros ?. apply H. by right.
Qed.

Lemma plain_ext (e : string) :
  e = ".roa"%string \/ e = ".mft"%string \/ e = ".cer"%string \/
  e = ".crl"%string \/ e = "rsync://"%string ->
  plain (chars e).
Proof.
  intros [->|[->|[->|[->| ->]]]]; unfold plain; vm_compute;
    repeat constructor; discriminate.
Qed.

Lemma rtype_of_code (path : list Z) :
  is_cstring path ->
  let sz := length path in
  let ext := drop (sz - 4) path in
  (if (4 <? sz)%nat then
     if strcasecmp ext (chars ".roa") =? 0 then RTYPE_ROA
     else if strcasecmp ext (chars ".mft") =? 0 then RTYPE_MFT
     else if strcasecmp ext (chars ".cer") =? 0 then RTYPE_CER
     else if strcasecmp ext (chars ".crl") =? 0 then RTYPE_CRL
     else RTYPE_EOF
   else RTYPE_EOF) = rtype_of path.
Proof.
  intros Hs sz ext. unfold rtype_of. fold sz. fold ext.
  assert (is_cstring ext) as He by (by apply Forall_drop).
  destruct (Nat.ltb_spec 4 sz); [|by rewrite decide_True by lia].
  rewrite decide_False by lia.
  assert (forall e, plain (chars e) ->
            (strcasecmp ext (chars e) =? 0)
            = bool_decide (map tolower ext = chars e)) as C.
  { intros e Pe. pose proof (strcasecmp_zero ext He _ Pe) as I.
    destruct (Z.eqb_spec (strcasecmp ext (chars e)) 0) as [E|N].
    - symmetry. apply bool_decide_eq_true_2. by apply I.
    - symmetry. apply bool_decide_eq_false_2. intros E. by apply N, I. }
  rewrite (C ".roa"%string) by (apply plain_ext; left; reflexivity).
  rewrite (C ".mft"%string) by (apply plain_ext; right; left; reflexivity).
  rewrite (C ".cer"%string)
    by (apply plain_ext; right; right; left; reflexivity).
  rewrite (C ".crl"%string)
    by (apply plain_ext; right; right; right; left; reflexivity).
  repeat (case_bool_decide;
          [by rewrite decide_True by done | rewrite decide_False by done]).
  done.
Qed.

Lemma rsync_uri_parse_parts (uri scheme host module : list Z)
    (path : option (list Z)) :
  is_cstring uri ->
  rsync_parts uri scheme host module path ->
  rsync_uri_parse uri =
    (1, {| hostp := Some (host ++ 47 :: module ++ rsync_tail path);
           hostsz := Z.of_nat (length host);
           modulep := Some (module ++ rsync_tail path);
           modulesz := Z.of_nat (length module);
           pathp := path;
           pathsz := Z.of_nat (length (default [] path));
           rtypep := from_option rtype_of RTYPE_EOF path |}).
Proof.
  intros Hs (-> & Hsch & Hh & Hh' & Hm & Hm').
  assert (length scheme = 8%nat) as L8.
  { apply (f_equal length) in Hsch. by rewrite length_map in Hsch. }
  unfold rsync_uri_parse.
  assert (strncasecmp (scheme ++ host ++ 47 :: module ++ rsync_tail path)
            (chars "rsync://") 8 = 0) as ->.
  { apply (strncasecmp_zero (chars "rsync://")
             (plain_ext "rsync://" ltac:(auto 6)) _ Hs).
    change (length (chars "rsync://")) with 8%nat.
    by rewrite <- L8, take_app_length. }
  cbn [Z.eqb negb]. rewrite <- L8, drop_app_length.
  rewrite (strchr_first host _ 47 Hh').
  destruct host as [|h0 host]; [done|]. cbn [length Nat.eqb].
  change (S (length host)) with (length (h0 :: host)).
  rewrite drop_app_length.
  apply Forall_app in Hs as [_ Hs]. apply Forall_app in Hs as [_ Hs].
  apply Forall_cons in Hs as [_ Hs].
  destruct module as [|m0 module]; [done|].
  assert (0 < m0 < 256) as Hm0.
  { apply Forall_app in Hs as [Hs _]. by apply Forall_cons in Hs as [? _]. }
  cbn [nth app]. destruct (Z.eqb_spec m0 0); [lia|].
  cbn [drop].
  change (m0 :: module ++ rsync_tail path)
    with ((m0 :: module) ++ rsync_tail path).
  destruct path as [p|]; cbn [rsync_tail default from_option].
  - rewrite (strchr_first (m0 :: module) p 47 Hm'). cbn [length Nat.eqb].
    change (S (length module)) with (length (m0 :: module)).
    rewrite drop_app_length. cbn [drop].
    cbn [hostp hostsz]. rewrite rtype_of_code; [done|].
    apply Forall_app in Hs as [_ Hs]. by apply Forall_cons in Hs as [_ ?].
  - rewrite app_nil_r, (strchr_absent _ 47 Hm'). done.
Qed.

Lemma rsync_uri_parse_accepts (uri : list Z) :
  is_cstring uri ->
  (rsync_uri_parse uri).1 = 1 ->
  exists scheme host module path, rsync_parts uri scheme host module path.
Proof.
  intros Hs. unfold rsync_uri_parse.
  destruct (Z.eqb_spec (strncasecmp uri (chars "rsync://") 8) 0) as [E|];
    [|done].
  apply (strncasecmp_zero (chars "rsync://")
           (plain_ext "rsync://" ltac:(auto 6)) _ Hs) in E.
  change (length (chars "rsync://")) with 8%nat in E.
  cbn [negb].
  destruct (strchr (drop 8 uri) 47) as [m|] eqn:S1; [|done].
  apply strchr_Some in S1 as (host & post & Eu & <- & Hh).
  destruct host as [|h0 host]; [done|]. cbn [length Nat.eqb].
  rewrite Eu. change (S (length host)) with (length (h0 :: host)).
  rewrite drop_app_length.
  destruct post as [|m0 post]; [done|]. cbn [nth drop].
  destruct (m0 =? 0); [done|].
  assert (uri = take 8 uri ++ (h0 :: host) ++ 47 :: m0 :: post) as Eu'.
  { by rewrite <- Eu, take_drop. }
  destruct (strchr (m0 :: post) 47) as [p|] eqn:S2.
  - apply strchr_Some in S2 as (module & path & Em & <- & Hm).
    destruct module as [|m1 module]; [done|]. cbn [length Nat.eqb fst].
    intros _. exists (take 8 uri), (h0 :: host), (m1 :: module), (Some path).
    unfold rsync_parts. cbn [rsync_tail]. rewrite <- Em.
    split_and!; done.
  - apply strchr_None in S2. intros _.
    exists (take 8 uri), (h0 :: host), (m0 :: post), None.
    unfold rsync_parts. cbn [rsync_tail]. rewrite app_nil_r.
    split_and!; done.
Qed.

(** X22. What [rsync_uri_parse] takes apart.  The call returns 1
    exactly for the strings that are a scheme reading rsync:// in any
    case, a host, a slash, a module and maybe a slash and a path, host
    and module not empty and without a slash; any other string gives
    0.  On 1 the outputs are these parts: the host and the module as
    pointers into the string with their lengths, the path (NULL and 0
    without one) and the type the last four characters of a path
    longer than four stand for. *)
Theorem rsync_uri_parse_spec (uri : list Z) :
  is_cstring uri ->
  ((rsync_uri_parse uri).1 = 0 \/ (rsync_uri_parse uri).1 = 1) /\
  ((rsync_uri_parse uri).1 = 1 <->
   exists scheme host module path, rsync_parts uri scheme host module path) /\
  (forall scheme host module path,
     rsync_parts uri scheme host module path ->
     (rsync_uri_parse uri).2 =
       {| hostp := Some (host ++ 47 :: module ++ rsync_tail path);
          hostsz := Z.of_nat (length host);
          modulep := Some (module ++ rsync_tail path);
          modulesz := Z.of_nat (length module);
          pathp := path;
          pathsz := Z.of_nat (length (default [] path));
          rtypep := from_option rtype_of RTYPE_EOF path |}).
Proof.
  intros Hs. split_and!.
  - unfold rsync_uri_parse. repeat case_match; auto.
  - split; [by apply rsync_uri_parse_accepts|].
    intros (scheme & host & module & path & P).
    by rewrite (rsync_uri_parse_parts _ _ _ _ _ Hs P).
  - intros scheme host module path P.
    by rewrite (rsync_uri_parse_parts _ _ _ _ _ Hs P).
Qed.

End RsyncFurther.

(** ** The further properties on concrete runs *)

Section NotificationFurtherExamples.
Import Notification.

(** A notification file of session A at serial 12 with the deltas 11
    and 12, read by a handler whose repository is at serial 10. *)
Lemma accepted_document_shape_witness :
  let doc := notification_doc "A" "12" [("11", "u", "00"); ("12", "v", "00")] in
  let nxml := with_current (Some "A"%string) 10 new_notification_xml in
  let nxml' := parsed_nxml (XML_Parse doc nxml) in
  XML_Parse doc nxml = PARSE_OK nxml' /\
  scope nxml = NOTIFICATION_SCOPE_START /\
  scope nxml' = NOTIFICATION_SCOPE_END /\
  exists attr attr' deltas,
    doc = StartElement "notification" attr :: StartElement "snapshot" attr'
          :: EndElement "snapshot" :: deltas ++ [EndElement "notification"] /\
    delta_elems deltas.
Proof.
  intros doc nxml nxml'.
  assert (XML_Parse doc nxml = PARSE_OK nxml') as H by (vm_compute; reflexivity).
  split; [exact H|]. split; [reflexivity|]. split; [reflexivity|].
  apply (accepted_document_shape doc nxml nxml' H); reflexivity.
Defined.

(** A second delta 12 behind the queue 11, 12: the duplicate is the
    tail item, and [add_delta] queues it. *)
Lemma add_delta_duplicate_detected_witness :
  let q := [ {| d_uri := "u"; d_hash := "00"; d_serial := 11 |};
             {| d_uri := "v"; d_hash := "00"; d_serial := 12 |} ] in
  let nxml := set_delta_q q new_notification_xml in
  strictly_ascending (map d_serial (delta_q nxml)) /\
  ((add_delta nxml "w" "00" 12).1 = 0 <->
   exists a q', delta_q nxml = a :: q' /\ q' <> [] /\ d_serial a = 12).
Proof.
  intros q nxml.
  assert (strictly_ascending (map d_serial (delta_q nxml))) as H.
  { simpl. repeat constructor. }
  split; [exact H|].
  apply (add_delta_duplicate_detected nxml "w" "00" 12 H).
Defined.

Lemma accepted_header_witness :
  let attr := [("xmlns", "http://www.ripe.net/rpki/rrdp"); ("version", "1");
               ("session_id", "A"); ("serial", "12")]%string in
  let nxml := new_notification_xml in
  let nxml' := parsed_nxml (start_notification_elem nxml attr) in
  start_notification_elem nxml attr = PARSE_OK nxml' /\
  version nxml' = 1 /\
  serial_in_range (serial nxml') /\
  (exists v, In ("session_id"%string, v) attr /\ session_id nxml' = Some v) /\
  In "xmlns"%string (map fst attr) /\
  Forall (fun a => In a.1 header_names) attr /\
  scope nxml' = NOTIFICATION_SCOPE_NOTIFICATION.
Proof.
  intros attr nxml nxml'.
  assert (start_notification_elem nxml attr = PARSE_OK nxml') as H
    by (vm_compute; reflexivity).
  split; [exact H|].
  apply (accepted_header nxml nxml' attr H); reflexivity.
Defined.

(** A refused document: the second root element is an empty-element
    tag whose start callback stops the parser, and the parser still
    calls its end callback. *)
Lemma callbacks_queue_relevant_witness :
  let evs := [ StartElement "notification"
                 [("xmlns", "http://www.ripe.net/rpki/rrdp"); ("version", "1");
                  ("session_id", "A"); ("serial", "12")];
               StartElement "snapshot"
                 [("uri", "https://h/s.xml"); ("hash", "00")];
               EndElement "snapshot";
               StartElement "delta"
                 [("serial", "11"); ("uri", "u"); ("hash", "00")];
               EndElement "delta";
               StartElement "notification" [];
               EndElement "notification" ] in
  let nxml := with_current (Some "A"%string) 10 new_notification_xml in
  let nxml' := callbacks evs nxml in
  queue_relevant nxml /\
  queue_relevant nxml' /\ current_serial nxml' = current_serial nxml /\
  current_session_id nxml' = current_session_id nxml.
Proof.
  intros evs nxml nxml'.
  assert (queue_relevant nxml) as H.
  { split; [constructor | reflexivity]. }
  split; [exact H|].
  apply (callbacks_queue_relevant evs nxml H).
Defined.

(** On that document the handler is left with the scope the end
    callback has set, past the point where [XML_Parse] stops. *)
Example callbacks_after_stop :
  let evs := [ StartElement "notification"
                 [("xmlns", "http://www.ripe.net/rpki/rrdp"); ("version", "1");
                  ("session_id", "A"); ("serial", "12")];
               StartElement "snapshot"
                 [("uri", "https://h/s.xml"); ("hash", "00")];
               EndElement "snapshot";
               StartElement "delta"
                 [("serial", "11"); ("uri", "u"); ("hash", "00")];
               EndElement "delta";
               StartElement "notification" [];
               EndElement "notification" ] in
  let nxml := with_current (Some "A"%string) 10 new_notification_xml in
  scope (callbacks evs nxml) = NOTIFICATION_SCOPE_END /\
  scope (parsed_nxml (XML_Parse evs nxml))
  = NOTIFICATION_SCOPE_NOTIFICATION_POST_SNAPSHOT.
Proof. vm_compute. split; reflexivity. Qed.

Lemma deltas_plan_contiguous_witness :
  let nxml :=
    {| session_id := Some "A"%string; current_session_id := Some "A"%string;
       snapshot_uri := Some "https://h/s.xml"%string;
       snapshot_hash := Some "00"%string;
       delta_q := [ {| d_uri := "u"; d_hash := "00"; d_serial := 11 |};
                    {| d_uri := "v"; d_hash := "00"; d_serial := 12 |} ];
       serial := 12; current_serial := 10; version := 1;
       scope := NOTIFICATION_SCOPE_END;
       state := NOTIFICATION_STATE_SNAPSHOT |} in
  (state nxml <> NOTIFICATION_STATE_DELTAS /\
   state (check_state nxml) = NOTIFICATION_STATE_DELTAS /\
   queue_relevant nxml) /\
  (exists sid, current_session_id nxml = Some sid /\
               session_id nxml = Some sid) /\
  map d_serial (delta_q nxml)
    = seqZ (current_serial nxml + 1) (Z.of_nat (length (delta_q nxml))) /\
  int (llong (serial nxml - current_serial nxml))
    = Z.of_nat (length (delta_q nxml)) /\
  delta_q nxml <> [].
Proof.
  intros nxml.
  assert (state nxml <> NOTIFICATION_STATE_DELTAS) as H1 by discriminate.
  assert (state (check_state nxml) = NOTIFICATION_STATE_DELTAS) as H2
    by (vm_compute; reflexivity).
  assert (queue_relevant nxml) as H3.
  { split; [|discriminate]. unfold LLONG_MAX. simpl.
    repeat constructor; simpl; lia. }
  split; [by split_and!|].
  apply (deltas_plan_contiguous nxml H1 H2 H3).
  - simpl. lia.
  - unfold INT_MAX. simpl. lia.
Defined.

(** The deltas 12 and 11 presented newest first. *)
Lemma presented_in_order_gives_deltas_witness :
  let nxml :=
    {| session_id := Some "A"%string; current_session_id := Some "A"%string;
       snapshot_uri := Some "https://h/s.xml"%string;
       snapshot_hash := Some "00"%string;
       delta_q := []; serial := 12; current_serial := 10; version := 1;
       scope := NOTIFICATION_SCOPE_NOTIFICATION_POST_SNAPSHOT;
       state := NOTIFICATION_STATE_SNAPSHOT |} in
  let ds := [ {| d_uri := "v"; d_hash := "00"; d_serial := 12 |};
              {| d_uri := "u"; d_hash := "00"; d_serial := 11 |} ] in
  map d_serial ds = rev (seqZ (current_serial nxml + 1) 2) /\
  exists nxml',
    end_notification_elem (add_deltas nxml ds) = PARSE_OK nxml' /\
    map d_serial (delta_q nxml') = seqZ (current_serial nxml + 1) 2 /\
    state nxml' = NOTIFICATION_STATE_DELTAS.
Proof.
  intros nxml ds.
  assert (map d_serial ds = rev (seqZ (current_serial nxml + 1) 2)) as H
    by reflexivity.
  split; [exact H|].
  apply (presented_in_order_gives_deltas nxml ds "A" 2);
    first [ reflexivity | discriminate | right; exact H
          | unfold INT_MAX, LLONG_MAX; simpl; lia ].
Defined.

End NotificationFurtherExamples.

Section WorkerFurtherExamples.
Import Rrdp Publish.
Existing Instance recording_hasher.

(** Session 7 is freed while session 8 waits behind it. *)
Lemma rrdp_free_others_witness :
  let w := rrdp_new (sample_worker PARSING SNAPSHOT 0) 8 None None None 0 None in
  let s := sample_session PARSING SNAPSHOT 0 in
  (states w !! 0%nat = Some s /\ id s <> 8) /\
  session_of (rrdp_free w 0) 8 = session_of w 8 /\
  msgq (rrdp_free w 0) = msgq w.
Proof.
  intros w s.
  assert (states w !! 0%nat = Some s) as H1 by reflexivity.
  assert (id s <> 8) as H2 by discriminate.
  split; [by split|].
  apply (rrdp_free_others w 0 s 8 H1 H2).
Defined.

(** The notification of session 7 is answered with 304. *)
Lemma rrdp_input_handler_accounting_witness :
  let w := sample_worker PARSED NOTIFICATION 0 in
  let m := In_HTTP_FIN (-1) 7 304 None in
  let w' := {| states := []; msgq := [Msg_END 7 1] |} in
  rrdp_input_handler w m all_fine = Done w' /\
  ((msgq w' = msgq w /\
    length (states w')
      = (length (states w) + (if is_start m then 1 else 0))%nat) \/
   ending_step (msg_id m) w w').
Proof.
  intros w m w'.
  assert (rrdp_input_handler w m all_fine = Done w') as H by reflexivity.
  split; [exact H|].
  apply (rrdp_input_handler_accounting w w' m all_fine H).
Defined.

Lemma end_ok_only_after_success_witness :
  let w := sample_worker PARSED NOTIFICATION 0 in
  let w' := {| states := []; msgq := [Msg_END 7 1] |} in
  (rrdp_input_handler w (In_HTTP_FIN (-1) 7 304 None) all_fine = Done w' /\
   In (Msg_END 7 1) (sent w w')) /\
  exists s, session_of w 7 = Some s /\ state s = PARSED /\
            completes s 304 all_fine.
Proof.
  intros w w'.
  assert (rrdp_input_handler w (In_HTTP_FIN (-1) 7 304 None) all_fine
          = Done w') as H1 by reflexivity.
  assert (In (Msg_END 7 1) (sent w w')) as H2 by (left; reflexivity).
  split; [by split|].
  apply (end_ok_only_after_success w w' (-1) 7 304 None all_fine H1 H2).
Defined.

(** Two files of a snapshot, the first one acknowledged as failed
    before the second one is sent. *)
Lemma file_accounting_witness :
  let decode := fun _ : string => Some [0; 0; 0] in
  let evs := [ Published (sample_publish "rsync://h/m/a.cer"); Acked 0;
               Published (sample_publish "rsync://h/m/b.roa"); Acked 1 ] in
  let w := sample_worker PARSING SNAPSHOT 0 in
  let s := sample_session PARSING SNAPSHOT 0 in
  exists w',
    file_steps decode all_fine 7 0 evs w = Done w' /\
    states w' =
      <[0%nat:=set_file_failed (uint (file_failed s + files_failed evs))
             (set_file_pending
                (uint (file_pending s + files_sent decode evs
                       - files_acked evs)) s)]> (states w) /\
    Z.of_nat (length (msgq w'))
      = Z.of_nat (length (msgq w)) + files_sent decode evs.
Proof.
  intros decode evs w s.
  apply (file_accounting decode all_fine evs w 7 0 s);
    try reflexivity; try discriminate; simpl; lia.
Defined.

(** The read of session 7, which fetches a snapshot, fails. *)
Lemma proc_rrdp_streams_read_failures_witness :
  let revents := fun _ : nat =>
    Some {| ev_read := None; ev_xml_ok := true; ev_publish := [] |} in
  let w := sample_worker PARSING SNAPSHOT 0 in
  (forall slot ev, revents slot = Some ev -> ev_read ev = None) /\
  proc_rrdp_streams revents (length (states w)) 0 w
  = Done {| states := omap (read_failure_keeps revents) (states w);
            msgq := msgq w ++ omap (read_failure_reports revents) (states w) |}.
Proof.
  intros revents w.
  assert (forall slot ev, revents slot = Some ev -> ev_read ev = None) as H.
  { intros slot ev [= <-]. reflexivity. }
  split; [exact H|].
  apply (proc_rrdp_streams_read_failures revents w H).
Defined.

(** The turn in which one queued message is written out and the parent
    answers the notification fetch of session 7 with 304. *)
Lemma proc_rrdp_turn_accounting_witness :
  let p := {| pollhup := false; pollout := Some (1, 1%nat);
              pollin := Some (In_HTTP_FIN (-1) 7 304 None, all_fine);
              revents := fun _ => None |} in
  let w := {| states := states (sample_worker PARSED NOTIFICATION 0);
              msgq := [Msg_END 3 1] |} in
  let w' := {| states := []; msgq := [Msg_END 7 1] |} in
  proc_rrdp_turn (fun _ => (None, [])) p w = Done (Some w') /\
  exists reqs tail,
    msgq w' = drop (from_option snd 0%nat (pollout p)) (msgq w ++ reqs)
              ++ tail /\
    ends reqs = 0%nat /\
    (length (states w') + ends tail
     = length (states w) + match pollin p with
                           | Some (m, _) => if is_start m then 1 else 0
                           | None => 0
                           end)%nat.
Proof.
  intros p w w'.
  assert (proc_rrdp_turn (fun _ => (None, [])) p w = Done (Some w')) as H
    by (vm_compute; reflexivity).
  split; [exact H|].
  apply (proc_rrdp_turn_accounting (fun _ => (None, [])) p w w' H).
Defined.

(** The turn in which the parent answers the notification fetch of
    session 7 with 200 and the notification asks for the snapshot. *)
Lemma proc_rrdp_turn_none_done_witness :
  let p := {| pollhup := false; pollout := None;
              pollin := Some (In_HTTP_FIN (-1) 7 200 None,
                              {| XML_Parse_final := true;
                                 notification_done := SNAPSHOT;
                                 notification_delta_done := false |});
              revents := fun _ => None |} in
  let w := sample_worker PARSED NOTIFICATION 0 in
  match proc_rrdp_turn (fun _ => (None, [])) p w with
  | Done (Some w') =>
      none_done (states w) /\ none_done (states w') /\
      length (states w') = 1%nat
  | _ => False
  end.
Proof.
  intros p w.
  assert (none_done (states w)) as H0 by (repeat constructor; discriminate).
  pose proof (proc_rrdp_turn_none_done (fun _ => (None, [])) p w) as T.
  destruct (proc_rrdp_turn (fun _ => (None, [])) p w) as [[w'|]|msg] eqn:E.
  - split; [exact H0|]. split; [exact (T w' H0 eq_refl)|].
    vm_compute in E. injection E as <-. reflexivity.
  - vm_compute in E. discriminate E.
  - vm_compute in E. discriminate E.
Defined.

(** An update of a.cer whose base64 text comes in three chunks, the
    middle one a lone newline. *)
Lemma publish_record_sent_witness :
  let decode := fun _ : string => Some [0; 0; 0] in
  let w := sample_worker PARSING SNAPSHOT 0 in
  let s := sample_session PARSING SNAPSHOT 0 in
  let uri := Some "rsync://h/m/a.cer"%string in
  let chunks := ["AA"; newline; "AA"]%string in
  content chunks = "AAAA"%string /\
  exists p0,
    new_publish_xml PUB_UPD uri (repeat 1 32) 32 = Done p0 /\
    publish_done decode w 0 (add_chunks p0 chunks) =
      match (if String.eqb (content chunks) EmptyString then Some []
             else decode (content chunks)) with
      | None => (-1, w)
      | Some data =>
          (0, {| states :=
                   <[0%nat:=set_file_pending (uint (file_pending s + 1)) s]>
                     (states w);
                 msgq :=
                   msgq w ++
                   [Msg_FILE (id s) PUB_UPD
                      (if bool_decide (PUB_UPD = PUB_ADD) then None
                       else Some (if 32 =? 0 then repeat 0 32
                                  else take 32 (repeat 1 32)))
                      uri data] |})
      end.
Proof.
  intros decode w s uri chunks. split; [reflexivity|].
  apply (publish_record_sent decode w 0 s PUB_UPD uri (repeat 1 32) 32 chunks).
  - by right.
  - reflexivity.
  - vm_compute. discriminate.
Defined.

(** Session 8 waits behind session 7 while the fetch of 7 is answered
    with 304. *)
Lemma rrdp_input_handler_frame_witness :
  let w := rrdp_new (sample_worker PARSED NOTIFICATION 0) 8 None None None 0
             None in
  let m := In_HTTP_FIN (-1) 7 304 None in
  exists w',
    rrdp_input_handler w m all_fine = Done w' /\
    length (states w') = 1%nat /\
    other_sessions (msg_id m) w' = other_sessions (msg_id m) w.
Proof.
  intros w m. eexists. split; [reflexivity|]. split; [reflexivity|].
  apply (rrdp_input_handler_frame w _ m all_fine). reflexivity.
Defined.

(** Session 7 on a delta whose body has come with one byte flipped;
    the parent reports status 200 for the fetch. *)
Lemma delta_failure_ends_worker_witness :
  let next := fun _ : nat => (Some "https://h/s.xml"%string, [1; 2]) in
  let s := set_ctx [60; 100; 46; 62]
             (set_hash [60; 100; 47; 62] (sample_session PARSING DELTA 0)) in
  let failed :=
    set_state REQ
      (set_task SNAPSHOT
         (set_sxml XML_LIVE
            (set_dxml match dxml s with
                      | XML_NULL => XML_NULL
                      | _ => XML_FREED
                      end
               (set_infd (-1) (set_pfd (Some 1%nat) s))))) in
  let fin := In_HTTP_FIN (-1) (id s) 200 None in
  let revents := fun _ : nat => Some end_of_file in
  (task s = DELTA /\ state s = PARSING /\ hash s <> SHA256_Final (ctx s)) /\
  dxml failed = XML_FREED /\
  proc_rrdp_turn next (poll_streams (fun _ => Some end_of_file))
    {| states := [s]; msgq := [] |}
  = Done (Some {| states := [failed]; msgq := [] |}) /\
  proc_rrdp_turn next (poll_message fin all_fine revents)
    {| states := [failed]; msgq := [] |}
  = Errx "bad internal state" /\
  proc_rrdp_turn next (poll_message fin all_fine revents)
    {| states := [s]; msgq := [] |}
  = Errx "bad internal state".
Proof.
  intros next s failed fin revents.
  assert (task s = DELTA) as Ht by reflexivity.
  assert (state s = PARSING) as Hst by reflexivity.
  assert (hash s <> SHA256_Final (ctx s)) as Hh by (vm_compute; discriminate).
  split; [done|]. split; [reflexivity|].
  apply (delta_failure_ends_worker next s [] 200 None all_fine revents
           Ht Hst Hh).
Defined.

(** Session 7 on its notification, the stream not yet read to its end:
    the poll that reports the 304 reports the end of the stream
    too. *)
Lemma not_modified_by_state_witness :
  let next := fun _ : nat => (None, []) in
  let s := sample_session PARSING NOTIFICATION 0 in
  let fin := In_HTTP_FIN (-1) 7 304 None in
  let revents := fun _ : nat => Some end_of_file in
  task s = NOTIFICATION /\
  proc_rrdp_turn next (poll_message fin all_fine revents)
    {| states := [s]; msgq := [] |}
  = Errx "bad internal state" /\
  proc_rrdp_turn next (poll_streams revents) {| states := [s]; msgq := [] |}
  = Done (Some {| states := [set_state PARSED
                               (set_infd (-1) (set_pfd (Some 1%nat) s))];
                  msgq := [] |}) /\
  proc_rrdp_turn next (poll_message fin all_fine revents)
    {| states := [set_state PARSED (set_infd (-1) (set_pfd (Some 1%nat) s))];
       msgq := [] |}
  = Done (Some {| states := []; msgq := [Msg_END 7 1] |}).
Proof.
  intros next s fin revents.
  assert (task s = NOTIFICATION) as Ht by reflexivity.
  destruct (not_modified_by_state next s [] None all_fine revents Ht)
    as [T1 T2].
  destruct (not_modified_by_state next
              (set_state PARSED (set_infd (-1) (set_pfd (Some 1%nat) s)))
              [] None all_fine revents Ht) as [T3 _].
  split; [exact Ht|]. split; [exact T1|]. split; [exact (T2 eq_refl)|].
  exact T3.
Defined.


End WorkerFurtherExamples.

Section StripExamples.

(** Five characters of a line with a blank in it. *)
Lemma strip_non_b64_spec_witness :
  let str := chars "aG k=??" in
  let out := repeat 7 8 in
  let kept := b64_kept (take (Z.to_nat 5) str) in
  kept = chars "aGk=" /\
  exists out',
    strip_non_b64 (Some str) 5 (Some out)
      = Some (Z.of_nat (length kept), Some out') /\
    take (length kept) out' = kept /\
    length out' = length out /\
    (In 0 (take (Z.to_nat 5) str) -> out' !! length kept = Some 0) /\
    (~ In 0 (take (Z.to_nat 5) str) ->
     drop (length kept) out' = drop (length kept) out) /\
    drop (S (length kept)) out' = drop (S (length kept)) out.
Proof.
  intros str out kept. split; [reflexivity|].
  apply (strip_non_b64_spec str out 5).
  - vm_compute. split; discriminate.
  - vm_compute. discriminate.
Defined.

End StripExamples.

Section RsyncExamples.

Lemma rsync_uri_parse_spec_witness :
  let uri := chars "RSYNC://host/module/a/b.ROA" in
  (is_cstring uri /\ rsync_uri_parse uri
     = (1, {| hostp := Some (chars "host/module/a/b.ROA"); hostsz := 4;
              modulep := Some (chars "module/a/b.ROA"); modulesz := 6;
              pathp := Some (chars "a/b.ROA"); pathsz := 7;
              rtypep := RTYPE_ROA |})) /\
  ((rsync_uri_parse uri).1 = 0 \/ (rsync_uri_parse uri).1 = 1) /\
  ((rsync_uri_parse uri).1 = 1 <->
   exists scheme host module path, rsync_parts uri scheme host module path) /\
  (forall scheme host module path,
     rsync_parts uri scheme host module path ->
     (rsync_uri_parse uri).2 =
       {| hostp := Some (host ++ 47 :: module ++ rsync_tail path);
          hostsz := Z.of_nat (length host);
          modulep := Some (module ++ rsync_tail path);
          modulesz := Z.of_nat (length module);
          pathp := path;
          pathsz := Z.of_nat (length (default [] path));
          rtypep := from_option rtype_of RTYPE_EOF path |}).
Proof.
  intros uri.
  assert (is_cstring uri) as H.
  { unfold is_cstring. vm_compute. repeat constructor. }
  split; [split; [exact H | reflexivity]|].
  apply (rsync_uri_parse_spec uri H).
Defined.

End RsyncExamples.
